(** * SICAssembler: a shallow embedding of the two-pass SIC assembler

    The development follows [util.h] (character classes, tokenizer,
    string-to-integer conversion) and [assembler.h] (operand validation,
    object-code synthesis, record writers, [pass1] and [pass2]).

    Conventions of the embedding.
    - A C++ [std::string] is a [string]; a [char] is an [ascii].  The
      comparisons of the source are comparisons of [char] values; [char] is
      signed on the platform the program is built for (Linux, x86), so
      [char_val] maps the bytes 128..255 to -128..-1.
    - An [int] is a [Z] kept in the 32-bit two's complement range by
      [wrap_int] after every arithmetic operation of the source.
    - [std::unordered_map] is a [gmap].
    - The files are the values written to them: the intermediate file is
      the list of its five-line blocks, the listing and object files are
      strings.
    - [std::string::at] throws [std::out_of_range]; nothing in the program
      catches it, so the functions that can reach it return a [result]. *)

From Stdlib Require Import ZArith Ascii String List Bool Lia.
From stdpp Require Import gmap strings.
Import ListNotations.

Local Open Scope string_scope.
Local Open Scope Z_scope.

(** ** Machine integers *)

Definition INT_MAX : Z := 2147483647.
Definition INT_MIN : Z := -2147483648.

(** The value kept by a 32-bit [int] (two's complement wrap-around). *)
Definition wrap_int (z : Z) : Z := (z + 2147483648) mod 4294967296 - 2147483648.

(** The value of an [int] seen as [unsigned], as [operator<<] prints it in
    base 16. *)
Definition to_unsigned (z : Z) : Z := z mod 4294967296.

(** [(int)pow(base, e)]: exact while the power fits an [int]; the
    conversion of a larger double gives the x86 "integer indefinite"
    value. *)
Definition pow_int (base : Z) (e : nat) : Z :=
  let p := base ^ Z.of_nat e in
  if p <=? INT_MAX then p else INT_MIN.

(** ** Characters *)

Definition code (c : ascii) : Z := Z.of_N (N_of_ascii c).

(** The value of a (signed) [char]. *)
Definition char_val (c : ascii) : Z :=
  if code c <? 128 then code c else code c - 256.

(** The [char] holding the value [z] (taken modulo 256). *)
Definition char_of (z : Z) : ascii := ascii_of_N (Z.to_N (z mod 256)).

Definition NUL : ascii := ascii_of_N 0.
Definition TAB : ascii := ascii_of_N 9.
Definition LF : ascii := ascii_of_N 10.

(** [s[i]], and [s.at(i)] where the source has checked the index: reading
    at [s.length()] gives the terminating NUL. *)
Definition char_at (s : string) (i : nat) : ascii :=
  match String.get i s with
  | Some c => c
  | None => NUL
  end.

Definition is_empty (s : string) : bool :=
  match s with
  | EmptyString => true
  | String _ _ => false
  end.

Definition push_back (s : string) (c : ascii) : string :=
  s ++ String c EmptyString.

(** ** Stream formatting *)

Fixpoint fill_string (n : nat) (c : ascii) : string :=
  match n with
  | O => EmptyString
  | S k => String c (fill_string k c)
  end.

(** [setw(w) << setfill(c)] with right adjustment (the default). *)
Definition pad_right_adjust (w : nat) (c : ascii) (s : string) : string :=
  fill_string (w - String.length s) c ++ s.

(** [std::left << setw(w) << setfill(c)]. *)
Definition pad_left_adjust (w : nat) (c : ascii) (s : string) : string :=
  s ++ fill_string (w - String.length s) c.

Definition digit_char (upper : bool) (d : Z) : ascii :=
  if d <? 10 then char_of (code "0" + d)
  else char_of (code (if upper then "A" else "a")%char + (d - 10)).

Fixpoint digits_loop (fuel : nat) (base : Z) (upper : bool) (n : Z)
    (acc : string) : string :=
  match fuel with
  | O => acc
  | S f =>
      let acc' := String (digit_char upper (n mod base)) acc in
      if n / base =? 0 then acc' else digits_loop f base upper (n / base) acc'
  end.

(** [os << std::hex << v] for a 32-bit value: the unsigned value, no
    leading zero; [upper] is [std::uppercase]. *)
Definition print_hex (upper : bool) (v : Z) : string :=
  digits_loop 8 16 upper (to_unsigned v) EmptyString.

(** [os << v] for an [int] in base 10. *)
Definition print_dec (v : Z) : string :=
  let w := wrap_int v in
  if w <? 0 then String "-" (digits_loop 10 10 false (- w) EmptyString)
  else digits_loop 10 10 false w EmptyString.

(** ** util.h *)

Module Util.

Fixpoint findChar (src : string) (c : ascii) : bool :=
  match src with
  | EmptyString => false
  | String d rest => if Ascii.eqb d c then true else findChar rest c
  end.

Definition isLowerCase (c : ascii) : bool :=
  (char_val "a" <=? char_val c) && (char_val c <=? char_val "z").

Definition isUpperCase (c : ascii) : bool :=
  (char_val "A" <=? char_val c) && (char_val c <=? char_val "Z").

Definition isDigit (c : ascii) : bool :=
  (char_val "0" <=? char_val c) && (char_val c <=? char_val "9").

Definition isAlpha (c : ascii) : bool := isLowerCase c || isUpperCase c.

Definition isAlphaNumeric (c : ascii) : bool := isAlpha c || isDigit c.

(** [c - 32] stored back in a [char]. *)
Definition upper_char (c : ascii) : ascii :=
  if isLowerCase c then char_of (char_val c - 32) else c.

Fixpoint toUpperCase (src : string) : string :=
  match src with
  | EmptyString => EmptyString
  | String c rest => String (upper_char c) (toUpperCase rest)
  end.

Definition isHexDigit (c0 : ascii) : bool :=
  let c := upper_char c0 in
  isDigit c || ((char_val "A" <=? char_val c) && (char_val c <=? char_val "F")).

Fixpoint hasHexFormat (hex : string) : bool :=
  match hex with
  | EmptyString => true
  | String c rest =>
      if isAlphaNumeric c then
        if isAlpha c && ((char_val c <? char_val "A") || (char_val "F" <? char_val c))
        then false
        else hasHexFormat rest
      else false
  end.

(** The loop of [stringToInt]; [String.length rest] is
    [src.length()-1 - i]. *)
Fixpoint stringToInt_loop (base : Z) (src : string) (sum : Z) : option Z :=
  match src with
  | EmptyString => Some sum
  | String c0 rest =>
      let c := upper_char c0 in
      if isAlphaNumeric c then
        if (base <=? 10) && negb (isDigit c) then None
        else if (base =? 16) && negb (isHexDigit c) then None
        else
          let digit :=
            if isDigit c then char_val c - char_val "0"
            else char_val c - char_val "A" + 10 in
          stringToInt_loop base rest
            (wrap_int (sum + wrap_int (digit * pow_int base (String.length rest))))
      else None
  end.

(** [stringToInt(src, dst, base)]: [Some v] when it returns true having
    stored [v] in [dst]; [None] when it returns false ([dst] untouched). *)
Definition stringToInt (src : string) (base : Z) : option Z :=
  if is_empty src then None else stringToInt_loop base src 0.

(** The loop of [parseLine]: [token] is the token being built; the
    character after the last one is the terminating NUL. *)
Fixpoint parseLine_loop (delims : string) (line : string) (token : string)
    : list string :=
  match line with
  | EmptyString => []
  | String c rest =>
      let delimFound := findChar delims c in
      let nextDelimFound := findChar delims (char_at rest 0) in
      let at_end := is_empty rest in
      let token' := if delimFound then token else push_back token c in
      if negb (is_empty token')
         && ((negb at_end && negb delimFound && nextDelimFound) || at_end)
      then token' :: parseLine_loop delims rest EmptyString
      else parseLine_loop delims rest token'
  end.

(** [parseLine(dst, line, delims)] on an empty [dst]: the tokens pushed. *)
Definition parseLine (line : string) (delims : string) : list string :=
  parseLine_loop delims line EmptyString.

(** The loop of [isPrefix], entered when [a] is not longer than [b]. *)
Fixpoint isPrefix_loop (a b : string) : bool :=
  match a with
  | EmptyString => true
  | String x a' =>
      if negb (Ascii.eqb x (char_at b 0)) then false
      else isPrefix_loop a' (match b with
                             | EmptyString => EmptyString
                             | String _ b' => b'
                             end)
  end.

Definition isPrefix (a b : string) : bool :=
  if (String.length b <? String.length a)%nat then false
  else isPrefix_loop a b.

End Util.

(** ** dynamic_array.h, as [getColumns] uses it

    [parseLine] pushes the tokens to the back of a fresh [DynamicArray];
    the unused slots hold default-constructed (empty) strings, which
    [pad] overwrites with the empty string again; [forceSize(4)] sets the
    element count to 4, since 4 is below the capacity (16 or more); a
    [push_front] shifts the four elements one slot up.  The array is the
    list of its elements. *)

Module DynamicArray.

Definition pad_forceSize4 (tokens : list string) : list string :=
  firstn 4 (tokens ++ [EmptyString; EmptyString; EmptyString; EmptyString]).

Definition push_front (entry : string) (a : list string) : list string :=
  entry :: a.

Definition at_ (a : list string) (index : nat) : string :=
  nth index a EmptyString.

End DynamicArray.

(** ** Uncaught exceptions *)

Inductive result (A : Type) : Type :=
| Ok (a : A)
| OutOfRange.

Arguments Ok {A} a.
Arguments OutOfRange {A}.

Definition bind {A B : Type} (r : result A) (k : A -> result B) : result B :=
  match r with
  | Ok a => k a
  | OutOfRange => OutOfRange
  end.

Notation "'let!' x ':=' r 'in' k" := (bind r (fun x => k))
  (at level 10, x pattern, r at level 200, k at level 200).

(** ** assembler.h: tables *)

(** [unordered_map::insert]: an existing key keeps its value. *)
Definition umap_insert {V : Type} (k : string) (v : V) (m : gmap string V)
    : gmap string V :=
  match m !! k with
  | Some _ => m
  | None => <[k := v]> m
  end.

Definition umap_of {V : Type} (l : list (string * V)) : gmap string V :=
  fold_left (fun m kv => umap_insert (fst kv) (snd kv) m) l ∅.

(** [createErrorCodes]. *)
Definition errorCodes : gmap string string :=
  umap_of
    [ ("0001", "Invalid Operand");
      ("0002", "Duplicate Symbol");
      ("0003", "Invalid Opcode");
      ("0004", "Invalid Symbol");
      ("0005", "Missing Quotes");
      ("0006", "Odd number of hex digits");
      ("0007", "String too long");
      ("0008", "Hex too long");
      ("0009", "Specifier must be C or X");
      ("0010", "Symbol too long");
      ("0011", "Symbol starts with a non-letter character");
      ("0012", "Symbol contains non-alphanumeric characters");
      ("0013", "Operand contains non-alphanumeric characters");
      ("0014", "Missing START operand");
      ("0015", "Misplaced/Duplicate START");
      ("0016", "Illegal START Operand");
      ("0017", "Illegal END operand") ].

(** [createOpTable]. *)
Definition opcodeTable : gmap string Z :=
  umap_of
    [ ("ADD", 0x18); ("AND", 0x58); ("COMP", 0x28); ("DIV", 0x24);
      ("J", 0x3C); ("JEQ", 0x30); ("JGT", 0x34); ("JLT", 0x38);
      ("JSUB", 0x48); ("LDA", 0x00); ("LDCH", 0x50); ("LDL", 0x08);
      ("LDX", 0x04); ("MUL", 0x20); ("OR", 0x44); ("RD", 0xD8);
      ("RSUB", 0x4C); ("STA", 0x0C); ("STCH", 0x54); ("STL", 0x14);
      ("STX", 0x10); ("SUB", 0x1C); ("TD", 0xE0); ("TIX", 0x2C);
      ("WD", 0xDC) ].

(** Modelled from the spec: [MSIZE] is a macro of [sicengine.h], which is
    not part of the sources; the specification gives its value, 32768
    bytes. *)
Definition MSIZE : Z := 32768.

Definition errorCodeSize : Z := 4.
Definition addressPadding : nat := 4.
Definition objectCodePadding : nat := 8.
Definition basicPadding : nat := 6.
Definition sizePadding : nat := 2.
Definition machineCodePadding : Z := 60.
Definition opcodePadding : nat := 2.
Definition maxProgramSizeBytes : Z := MSIZE.

(** The fields of the class that outlive a call ([errors] is cleared at
    every source line, and is passed explicitly). *)
Record Assembler : Type := mkAssembler {
  locctr : Z;
  startingAddress : Z;
  programLength : Z;
  anyErrors : bool;
  symbolTable : gmap string Z
}.

(** The constructor; it leaves [locctr] uninitialised: [garbage] is the
    value the member happens to hold. *)
Definition Assembler_new (garbage : Z) : Assembler :=
  {| locctr := garbage; startingAddress := 0; programLength := 0;
     anyErrors := false; symbolTable := ∅ |}.

(** ** assembler.h: operand and symbol predicates *)

Definition QUOTE : ascii := "'"%char.

(** The characters [operand[from]] .. [operand[to-1]]. *)
Definition slice (from to : nat) (s : string) : string :=
  String.substring from (to - from) s.

Fixpoint string_forallb (p : ascii -> bool) (s : string) : bool :=
  match s with
  | EmptyString => true
  | String c rest => p c && string_forallb p rest
  end.

(** [getConstantLength]: the value returned and the error buffer. *)
Definition getConstantLength (operand : string) (errors : string) : Z * string :=
  let operlen := String.length operand in
  if (operlen <? 4)%nat then (-1, errors)
  else
    let stringLimit := 30%nat in
    let hexLimit := 32%nat in
    let c := char_at operand 0 in
    if negb (Ascii.eqb c "C") && negb (Ascii.eqb c "X") then (-1, errors ++ "0009")
    else if negb (Ascii.eqb (char_at operand 1) QUOTE)
            || negb (Ascii.eqb (char_at operand (operlen - 1)) QUOTE)
    then (-1, errors ++ "0005")
    else
      let operlen' := (operlen - 3)%nat in
      if Ascii.eqb c "C" then
        if (stringLimit <? operlen')%nat then (-1, errors ++ "0007")
        else (Z.of_nat operlen', errors)
      else if Ascii.eqb c "X" then
        if negb (string_forallb Util.isHexDigit (slice 2 (operlen - 1) operand))
        then (-1, errors)
        else if (hexLimit <? operlen')%nat then (-1, errors ++ "0008")
        else if (operlen' mod 2 =? 1)%nat then (-1, errors ++ "0006")
        else (Z.of_nat (operlen' / 2), errors)
      else (-1, errors).

(** [getColumns]: the upper-cased line (the argument is updated in place)
    and the three columns.  [srcLine.at(0)] throws on an empty line. *)
Definition getColumns (srcLine : string) (delims : string)
    : result (string * string * string * string) :=
  let srcLine := Util.toUpperCase srcLine in
  let parsedLine := DynamicArray.pad_forceSize4 (Util.parseLine srcLine delims) in
  match srcLine with
  | EmptyString => OutOfRange
  | String c0 _ =>
      let parsedLine :=
        if Util.findChar delims c0
        then DynamicArray.push_front EmptyString parsedLine
        else parsedLine in
      Ok (srcLine,
          DynamicArray.at_ parsedLine 0,
          DynamicArray.at_ parsedLine 1,
          DynamicArray.at_ parsedLine 2)
  end.

(** [isValidSymbol]: [src.at(0)] throws on the empty string. *)
Definition isValidSymbol (src : string) (errors : string)
    : result (bool * string) :=
  if (6 <? String.length src)%nat then Ok (false, errors ++ "0010")
  else
    match src with
    | EmptyString => OutOfRange
    | String c0 rest =>
        if negb (Util.isAlpha c0) then Ok (false, errors ++ "0011")
        else if negb (string_forallb Util.isAlphaNumeric rest)
        then Ok (false, errors ++ "0012")
        else Ok (true, errors)
    end.

(** [isHexSymbol]. *)
Definition isHexSymbol (symbol : string) : bool :=
  (0 <? String.length symbol)%nat
  && Util.isDigit (char_at symbol 0)
  && Util.hasHexFormat symbol.

(** [isValidOperand]. *)
Definition isValidOperand (src : string) (errors : string) : bool * string :=
  if is_empty src then (false, errors)
  else if Ascii.eqb (char_at src 0) "0" && negb (isHexSymbol src)
  then (false, errors)
  else
    let size := String.length src in
    if (3 <=? size)%nat
       && Ascii.eqb (char_at src (size - 1)) "X"
       && Ascii.eqb (char_at src (size - 2)) ","
    then
      if string_forallb Util.isAlphaNumeric (slice 0 (size - 2) src)
      then (true, errors)
      else (false, errors ++ "0013")
    else
      if string_forallb Util.isAlphaNumeric src
      then (true, errors)
      else (false, errors ++ "0013").

(** [setMSB]: [address |= 1 << 15]. *)
Definition setMSB (address : Z) : Z := wrap_int (Z.lor address (Z.shiftl 1 15)).

(** [isIndexedOperand]: [end] is [unsigned]; for the empty operand it wraps
    to the largest value and the two reads are outside the string, where
    the embedding reads NUL. *)
Definition isIndexedOperand (operand : string) : bool :=
  match String.length operand with
  | O => false
  | S end_ =>
      (2 <=? end_)%nat
      && Ascii.eqb (char_at operand end_) "X"
      && Ascii.eqb (char_at operand (end_ - 1)) ","
  end.

(** [getOperandFromIndexed]: the characters before the first comma. *)
Fixpoint getOperandFromIndexed (source : string) : string :=
  match source with
  | EmptyString => EmptyString
  | String c rest =>
      if negb (Ascii.eqb c ",") then String c (getOperandFromIndexed rest)
      else EmptyString
  end.

(** [getByteOperand]. *)
Definition getByteOperand (operand : string) : string :=
  if (3 <? String.length operand)%nat
  then slice 2 (String.length operand - 1) operand
  else EmptyString.

(** ** assembler.h: object-code synthesis *)

Definition endl : string := String LF EmptyString.

(** [for(char c : s) stream << std::hex << (int)c]. *)
Fixpoint hex_of_chars (s : string) : string :=
  match s with
  | EmptyString => EmptyString
  | String c rest => print_hex false (char_val c) ++ hex_of_chars rest
  end.

(** The last step of [createObjectCode], taken when [objectCodeGenerated]
    holds: the address is inserted unless it still has its initial value
    -1, in which case the BYTE data is. *)
Definition insert_address (objectCodeStream : string) (addressObjectCode : Z)
    (byteData : string) : string :=
  if negb (addressObjectCode =? -1)
  then objectCodeStream
       ++ pad_right_adjust addressPadding "0" (print_hex false addressObjectCode)
  else objectCodeStream ++ byteData.

(** [createObjectCode(opcode, operand)], reading the symbol table. *)
Definition createObjectCode (a : Assembler) (opcode : string) (operand0 : string)
    : string :=
  if String.eqb opcode "RESB" || String.eqb opcode "RESW" then EmptyString
  else
    let isIndexed := isIndexedOperand operand0 in
    let operand := if isIndexed then getOperandFromIndexed operand0 else operand0 in
    let symItr := symbolTable a !! operand in
    if String.eqb opcode "BYTE" then
      let type := char_at operand 0 in
      let operandValue := getByteOperand operand in
      let byteData :=
        if Ascii.eqb type "C" then hex_of_chars operandValue
        else if Ascii.eqb type "X" then operandValue
        else EmptyString in
      insert_address EmptyString (-1) byteData
    else if String.eqb opcode "WORD" then
      let addressObjectCode :=
        match Util.stringToInt operand 10 with
        | Some v => v
        | None => -1
        end in
      pad_right_adjust basicPadding "0" (print_hex false addressObjectCode)
    else if isHexSymbol operand then
      let addressObjectCode :=
        match Util.stringToInt operand 16 with
        | Some v => v
        | None => -1
        end in
      insert_address (pad_right_adjust opcodePadding "0" opcode)
        addressObjectCode EmptyString
    else
      match symItr with
      | Some second =>
          let addressObjectCode := wrap_int second in
          let addressObjectCode :=
            if isIndexed then setMSB addressObjectCode else addressObjectCode in
          insert_address (pad_right_adjust opcodePadding "0" opcode)
            addressObjectCode EmptyString
      | None =>
          match Util.stringToInt opcode 16, opcodeTable !! "RSUB" with
          | Some iOpcode, Some rsub =>
              if iOpcode =? wrap_int rsub
              then insert_address (pad_left_adjust basicPadding "0" opcode)
                     (-1) EmptyString
              else EmptyString
          | _, _ => EmptyString
          end
      end.

(** ** assembler.h: listing and object records *)

(** The loop of [reportErrors]: [error] collects the characters of one
    code, [counter] counts them from 1. *)
Fixpoint reportErrors_loop (errorList : string) (error : string) (counter : Z)
    : string :=
  match errorList with
  | EmptyString => EmptyString
  | String c rest =>
      let error := push_back error c in
      let counter := counter + 1 in
      if errorCodeSize <? counter then
        (match errorCodes !! error with
         | Some second => second ++ ", "
         | None =>
             "Unknown error reported. Something went wrong in the intermediate file."
             ++ String TAB EmptyString
         end) ++ reportErrors_loop rest EmptyString 1
      else reportErrors_loop rest error counter
  end.

(** [reportErrors]: what is written to the listing file. *)
Definition reportErrors (errorList : string) : string :=
  if (0 <? String.length errorList)%nat
  then String TAB "Errors: " ++ reportErrors_loop errorList EmptyString 1
  else EmptyString.

(** [createHeaderRecord]. *)
Definition createHeaderRecord (progName address : string) (progLen : Z) : string :=
  "H" ++ pad_left_adjust basicPadding " " progName
      ++ pad_right_adjust basicPadding "0" (Util.toUpperCase address)
      ++ pad_right_adjust basicPadding "0" (print_hex true progLen)
      ++ endl.

(** [createEndRecord]. *)
Definition createEndRecord (startingAddress : Z) : string :=
  "E" ++ pad_right_adjust basicPadding "0" (print_hex true startingAddress).

(** [startTextRecord]; the stream is right-adjusting whenever it is
    called: the only change of adjustment is in [createHeaderRecord],
    which ends on [std::right]. *)
Definition startTextRecord (address : string) : string :=
  "T" ++ pad_right_adjust basicPadding "0" (Util.toUpperCase address).

(** The two parts [finishTextRecord] writes: the length byte and the
    machine-code section. *)
Definition textRecordLength (machineBufferSize : Z) : string :=
  pad_right_adjust sizePadding "0" (print_hex true (machineBufferSize / 2)).

Definition textRecordCode (machineCodeStreamBuffer : string) : string :=
  Util.toUpperCase machineCodeStreamBuffer.

(** [finishTextRecord]. *)
Definition finishTextRecord (machineBufferSize : Z)
    (machineCodeStreamBuffer : string) : string :=
  textRecordLength machineBufferSize
  ++ textRecordCode machineCodeStreamBuffer ++ endl.

(** [writeToListingFile]. *)
Definition writeToListingFile (address objectCode sourceLine errorList : string)
    : string :=
  let address := Util.toUpperCase address in
  let objectCode := Util.toUpperCase objectCode in
  let addressFill := if is_empty address then " "%char else "0"%char in
  pad_right_adjust addressPadding addressFill address ++ " "
  ++ pad_right_adjust objectCodePadding " " objectCode ++ " "
  ++ sourceLine ++ reportErrors errorList ++ endl.

(** ** The intermediate file *)

(** One block of the intermediate file: its five lines. *)
Record block : Type := mkBlock {
  sourceLine : string;
  opcodeField : string;
  addressField : string;
  operandField : string;
  errorList : string
}.

(** ** assembler.h: pass 1 *)

Definition set_locctr (v : Z) (a : Assembler) : Assembler :=
  {| locctr := v; startingAddress := startingAddress a;
     programLength := programLength a; anyErrors := anyErrors a;
     symbolTable := symbolTable a |}.

Definition set_startingAddress (v : Z) (a : Assembler) : Assembler :=
  {| locctr := locctr a; startingAddress := v;
     programLength := programLength a; anyErrors := anyErrors a;
     symbolTable := symbolTable a |}.

Definition set_programLength (v : Z) (a : Assembler) : Assembler :=
  {| locctr := locctr a; startingAddress := startingAddress a;
     programLength := v; anyErrors := anyErrors a;
     symbolTable := symbolTable a |}.

Definition set_anyErrors (v : bool) (a : Assembler) : Assembler :=
  {| locctr := locctr a; startingAddress := startingAddress a;
     programLength := programLength a; anyErrors := v;
     symbolTable := symbolTable a |}.

Definition set_symbolTable (m : gmap string Z) (a : Assembler) : Assembler :=
  {| locctr := locctr a; startingAddress := startingAddress a;
     programLength := programLength a; anyErrors := anyErrors a;
     symbolTable := m |}.

(** The state of the loop of [pass1]: the object, the blocks written to
    the intermediate file, whether [std::hex] has been set on that stream
    (it starts in base 10 and the manipulator is sticky), and the local
    [startFound]. *)
Record pass1_state : Type := mkPass1 {
  p1_asm : Assembler;
  intermediate : list block;
  hexSet : bool;
  startFound : bool
}.

Definition delims : string := String TAB " ".

(** [intermediate << locctr] in the current base of the stream. *)
Definition print_locctr (hex : bool) (v : Z) : string :=
  if hex then print_hex false v else print_dec v.

Definition is_directive4 (opcode : string) : bool :=
  String.eqb opcode "BYTE" || String.eqb opcode "WORD"
  || String.eqb opcode "RESW" || String.eqb opcode "RESB".

(** The START branch of the loop body. *)
Definition pass1_START (st : pass1_state) (srcLine label opcode operand : string)
    : result pass1_state :=
  let a := p1_asm st in
  let errors := EmptyString in
  let '(errors, a) :=
    if startFound st then (errors ++ "0015", set_anyErrors true a)
    else (errors, a) in
  let! errors :=
    (if (0 <? String.length label)%nat then
       let! (valid, errors) := isValidSymbol label errors in
       Ok (if negb valid then errors ++ "0004" else errors)
     else Ok errors) in
  let '(a, errors) :=
    match (if is_empty operand then None else Util.stringToInt operand 16) with
    | None => (set_startingAddress 0 (set_locctr 0 a), errors ++ "0001")
    | Some v => (set_startingAddress v (set_locctr v a), errors)
    end in
  Ok {| p1_asm := a;
        intermediate :=
          intermediate st
          ++ [mkBlock srcLine opcode (print_hex false (locctr a)) operand errors];
        hexSet := true;
        startFound := true |}.

(** The END branch: the block is written, the program length saved. *)
Definition pass1_END (st : pass1_state) (srcLine opcode operand errors : string)
    : result pass1_state :=
  let a := p1_asm st in
  let! (valid, errors) := isValidSymbol operand errors in
  let errors :=
    if negb valid && negb (isHexSymbol operand) then errors ++ "0017"
    else errors in
  Ok {| p1_asm := set_programLength (wrap_int (locctr a - startingAddress a)) a;
        intermediate :=
          intermediate st
          ++ [mkBlock srcLine opcode (print_hex false (locctr a)) operand errors];
        hexSet := true;
        startFound := startFound st |}.

(** The label of a line that is neither START nor END. *)
Definition pass1_label (a : Assembler) (label errors : string)
    : result (Assembler * string) :=
  if negb (is_empty label) then
    match symbolTable a !! label with
    | Some _ => Ok (a, errors ++ "0002")
    | None =>
        let! (valid, errors) := isValidSymbol label errors in
        let errors := if negb valid then errors ++ "0004" else errors in
        Ok (set_symbolTable
              (umap_insert label (to_unsigned (locctr a)) (symbolTable a)) a,
            errors)
    end
  else Ok (a, errors).

(** The sizing of a line that is neither START nor END: the increment of
    the location counter, [opFound] and the error buffer. *)
Definition pass1_size (opcode operand errors : string) : Z * bool * string :=
  if String.eqb opcode "WORD" then
    match Util.stringToInt operand 10 with
    | Some _ => (3, false, errors)
    | None => (3, false, errors ++ "0001")
    end
  else if String.eqb opcode "RESW" then
    match Util.stringToInt operand 10 with
    | Some operandValue => (wrap_int (3 * operandValue), false, errors)
    | None => (0, false, errors ++ "0001")
    end
  else if String.eqb opcode "RESB" then
    match Util.stringToInt operand 10 with
    | Some operandValue => (operandValue, false, errors)
    | None => (0, false, errors ++ "0001")
    end
  else if String.eqb opcode "BYTE" then
    let '(length, errors) := getConstantLength operand errors in
    if negb (length =? -1) then (length, false, errors)
    else (0, false, errors ++ "0001")
  else
    match opcodeTable !! opcode with
    | Some _ => (3, true, errors)
    | None => (0, false, errors ++ "0003")
    end.

(** The branch of a line that is neither START nor END. *)
Definition pass1_other (st : pass1_state) (srcLine label opcode operand errors : string)
    : result pass1_state :=
  let! (a, errors) := pass1_label (p1_asm st) label errors in
  let '(increment, opFound, errors) := pass1_size opcode operand errors in
  let opcodeLine :=
    if opFound then
      match opcodeTable !! opcode with
      | Some v => print_hex false v
      | None => opcode
      end
    else opcode in
  let hex := hexSet st || opFound in
  Ok {| p1_asm := set_locctr (wrap_int (locctr a + increment)) a;
        intermediate :=
          intermediate st
          ++ [mkBlock srcLine opcodeLine (print_locctr hex (locctr a)) operand errors];
        hexSet := hex;
        startFound := startFound st |}.

(** No START directive found: the first line that is not a START line
    sets the location counter and the starting address to 0. *)
Definition implicit_start (st : pass1_state) : pass1_state :=
  if negb (startFound st) then
    {| p1_asm := set_startingAddress 0 (set_locctr 0 (p1_asm st));
       intermediate := intermediate st;
       hexSet := hexSet st;
       startFound := true |}
  else st.

(** The operand check of the lines that are not one of the four
    directives BYTE, WORD, RESW, RESB: the error buffer after it. *)
Definition operand_errors (opcode operand : string) : string :=
  let errors := EmptyString in
  if negb (is_directive4 opcode) then
    let '(valid, errors) := isValidOperand operand errors in
    if negb valid then errors ++ "0001" else errors
  else errors.

(** The columns of a line once START has been ruled out. *)
Definition pass1_columns (st : pass1_state) (srcLine label opcode operand : string)
    : result (pass1_state * bool) :=
  let st := implicit_start st in
  let errors := operand_errors opcode operand in
  if String.eqb opcode "END" then
    let! st' := pass1_END st srcLine opcode operand errors in
    Ok (st', true)
  else
    let! st' := pass1_other st srcLine label opcode operand errors in
    Ok (st', false).

(** One iteration of the [while(getline ...)] loop; the boolean says that
    the loop is left ([break] at END). *)
Definition pass1_line (st : pass1_state) (srcLine : string)
    : result (pass1_state * bool) :=
  if is_empty srcLine then Ok (st, false)
  else if Ascii.eqb (char_at srcLine 0) "." then Ok (st, false)
  else
    let! (srcLine, label, opcode, operand) := getColumns srcLine delims in
    if (String.length label + String.length opcode + String.length operand =? 0)%nat
    then Ok (st, false)
    else if String.eqb opcode "START" then
      let! st' := pass1_START st srcLine label opcode operand in
      Ok (st', false)
    else pass1_columns st srcLine label opcode operand.

Fixpoint pass1_loop (st : pass1_state) (lines : list string) : result pass1_state :=
  match lines with
  | [] => Ok st
  | srcLine :: rest =>
      let! (st', stop) := pass1_line st srcLine in
      if stop then Ok st' else pass1_loop st' rest
  end.

(** [pass1(src)]: [source] is the list of the lines of the file, [None]
    when it cannot be opened (the intermediate file has been created, and
    stays empty). *)
Definition pass1 (a : Assembler) (source : option (list string))
    : result (Assembler * list block) :=
  match source with
  | None => Ok (a, [])
  | Some lines =>
      let! st := pass1_loop (mkPass1 a [] false false) lines in
      Ok (p1_asm st, intermediate st)
  end.

(** ** assembler.h: pass 2 *)

(** The state of the loop of [pass2]: the object (only [anyErrors]
    changes), the text-record accumulator, the three local flags, and what
    has been written to the listing and object files. *)
Record pass2_state : Type := mkPass2 {
  p2_asm : Assembler;
  machineCodeStreamBuffer : string;
  startSet : bool;
  endFound : bool;
  makeNewTextRec : bool;
  listingfile : string;
  objectfile : string
}.

(** The program name: the characters of the source line before the first
    space. *)
Fixpoint programName (sourceLine : string) : string :=
  match sourceLine with
  | EmptyString => EmptyString
  | String c rest =>
      if negb (Ascii.eqb c " ") then String c (programName rest)
      else EmptyString
  end.

Definition placeholder : string := "------".

(** The object code of a block that is neither START nor END. *)
Definition block_objectCode (a : Assembler) (b : block) : string :=
  if is_empty (errorList b) then createObjectCode a (opcodeField b) (operandField b)
  else placeholder.

(** The packing of one object code into text records (the part of the
    loop body after the listing row): the object file, [makeNewTextRec]
    and the accumulator, before and after. *)
Definition pack_objectCode (address objectCode : string)
    (objectfile : string) (makeNewTextRec : bool) (buffer : string)
    : string * bool * string :=
  let machineBufferSize := Z.of_nat (String.length buffer) in
  let totalMachineCodeChars :=
    Z.of_nat (String.length objectCode) + machineBufferSize in
  let '(objectfile, makeNewTextRec) :=
    if negb (is_empty objectCode) && makeNewTextRec
    then (objectfile ++ startTextRecord address, false)
    else (objectfile, makeNewTextRec) in
  let '(objectfile, makeNewTextRec, buffer) :=
    if is_empty objectCode || (machineCodePadding <? totalMachineCodeChars) then
      if negb (machineBufferSize =? 0) then
        let objectfile :=
          objectfile ++ finishTextRecord machineBufferSize buffer in
        if negb (is_empty objectCode)
        then (objectfile ++ startTextRecord address, makeNewTextRec, EmptyString)
        else (objectfile, true, EmptyString)
      else (objectfile, makeNewTextRec, buffer)
    else (objectfile, makeNewTextRec, buffer) in
  let buffer :=
    if negb (is_empty objectCode) then buffer ++ objectCode else buffer in
  (objectfile, makeNewTextRec, buffer).

(** The first statement of the loop body: [anyErrors] is set when it is
    not yet and the error list of the block is not empty. *)
Definition note_errors (a : Assembler) (b : block) : Assembler :=
  if negb (anyErrors a) then
    if negb (is_empty (errorList b)) then set_anyErrors true a else a
  else a.

(** One iteration of the [while(true)] loop on a block that was read; the
    boolean says that the loop is left ([break] at END). *)
Definition pass2_block (st : pass2_state) (b : block) : pass2_state * bool :=
  let a := note_errors (p2_asm st) b in
  if String.eqb (opcodeField b) "START" then
    let listing :=
      listingfile st
      ++ writeToListingFile (addressField b) EmptyString (sourceLine b) (errorList b) in
    let object :=
      if negb (startSet st) then
        objectfile st
        ++ createHeaderRecord (programName (sourceLine b)) (addressField b)
             (programLength a)
        ++ startTextRecord (addressField b)
      else objectfile st in
    ({| p2_asm := a;
        machineCodeStreamBuffer := machineCodeStreamBuffer st;
        startSet := true;
        endFound := endFound st;
        makeNewTextRec := makeNewTextRec st;
        listingfile := listing;
        objectfile := object |}, false)
  else
    let object :=
      if negb (startSet st) then
        objectfile st
        ++ createHeaderRecord "NONAME" "00000" (programLength a)
        ++ startTextRecord (addressField b)
      else objectfile st in
    let machineBufferSize := Z.of_nat (String.length (machineCodeStreamBuffer st)) in
    if String.eqb (opcodeField b) "END" then
      let object :=
        if negb (machineBufferSize =? 0)
        then object ++ finishTextRecord machineBufferSize (machineCodeStreamBuffer st)
        else object in
      let listing :=
        listingfile st
        ++ writeToListingFile EmptyString EmptyString (sourceLine b) (errorList b) in
      ({| p2_asm := a;
          machineCodeStreamBuffer := machineCodeStreamBuffer st;
          startSet := true;
          endFound := true;
          makeNewTextRec := makeNewTextRec st;
          listingfile := listing;
          objectfile := object ++ createEndRecord (startingAddress a) |}, true)
    else
      let objectCode := block_objectCode a b in
      let listing :=
        listingfile st
        ++ writeToListingFile (addressField b) objectCode (sourceLine b) (errorList b) in
      let '(object, makeNew, buffer) :=
        pack_objectCode (addressField b) objectCode object
          (makeNewTextRec st) (machineCodeStreamBuffer st) in
      ({| p2_asm := a;
          machineCodeStreamBuffer := buffer;
          startSet := true;
          endFound := endFound st;
          makeNewTextRec := makeNew;
          listingfile := listing;
          objectfile := object |}, false).

Fixpoint pass2_loop (st : pass2_state) (blocks : list block) : pass2_state :=
  match blocks with
  | [] => st
  | b :: rest =>
      let '(st', stop) := pass2_block st b in
      if stop then st' else pass2_loop st' rest
  end.

(** The notice written when the location counter is beyond the memory. *)
Definition fatalNotice (locctr : Z) : string :=
  endl ++ "FATAL ERROR" ++ endl
  ++ "Program exceeds maximum memory capacity of "
  ++ print_dec maxProgramSizeBytes ++ " bytes" ++ endl
  ++ " Last program address is: " ++ print_dec locctr.

Definition missingEndNotice : string := "Error: Missing END directive" ++ endl.

(** What [pass2] leaves: the object, the contents of [listing.txt], what
    was written to [object.txt], and whether that file still exists. *)
Record pass2_result : Type := mkResult {
  r_asm : Assembler;
  listing_txt : string;
  object_written : string;
  object_exists : bool
}.

(** The checks after the loop, and the clean-up. *)
Definition pass2_finish (st : pass2_state) : pass2_result :=
  let a := p2_asm st in
  let '(listing, a) :=
    if maxProgramSizeBytes <? locctr a
    then (listingfile st ++ fatalNotice (locctr a), set_anyErrors true a)
    else (listingfile st, a) in
  let '(listing, a) :=
    if negb (endFound st)
    then (listing ++ missingEndNotice, set_anyErrors true a)
    else (listing, a) in
  {| r_asm := a;
     listing_txt := listing;
     object_written := objectfile st;
     object_exists := negb (anyErrors a) |}.

Definition pass2_init (a : Assembler) : pass2_state :=
  mkPass2 a EmptyString false false false EmptyString EmptyString.

(** [pass2()]: [blocks] is the contents of the intermediate file, [None]
    when it cannot be opened: the function then returns at once, the two
    output files having been created empty. *)
Definition pass2 (a : Assembler) (blocks : option (list block)) : pass2_result :=
  match blocks with
  | None => mkResult a EmptyString EmptyString true
  | Some bs => pass2_finish (pass2_loop (pass2_init a) bs)
  end.

(** The [assemble] command of the shell ([assem] in the main file): a
    fresh object, pass 1 on the source file, pass 2 on the intermediate
    file pass 1 wrote. *)
Definition assemble (garbage : Z) (source : option (list string))
    : result pass2_result :=
  let! (a, blocks) := pass1 (Assembler_new garbage) source in
  Ok (pass2 a (Some blocks)).

(** ** Notions used to state the properties *)

(** The symbol validity predicate as the specification words it: 1 to 6
    characters, the first alphabetic, the others alphanumeric. *)
Definition symbol_validity (s : string) : bool :=
  match s with
  | EmptyString => false
  | String c0 rest =>
      (String.length s <=? 6)%nat
      && Util.isAlpha c0
      && string_forallb Util.isAlphaNumeric rest
  end.

(** The shape the specification requires of a BYTE operand: at least 4
    characters, specifier C or X, a quote in second and in last position,
    at most 30 characters in a C string, an even number, at most 32, of
    valid hex digits in an X constant. *)
Definition byte_shape_ok (operand : string) : bool :=
  let n := String.length operand in
  let content := slice 2 (n - 1) operand in
  (4 <=? n)%nat
  && Ascii.eqb (char_at operand 1) QUOTE
  && Ascii.eqb (char_at operand (n - 1)) QUOTE
  && ((Ascii.eqb (char_at operand 0) "C" && (String.length content <=? 30)%nat)
      || (Ascii.eqb (char_at operand 0) "X"
          && (String.length content <=? 32)%nat
          && Nat.even (String.length content)
          && string_forallb Util.isHexDigit content)).

(** The size the specification gives a well-shaped BYTE operand. *)
Definition byte_size (operand : string) : Z :=
  let n := (String.length operand - 3)%nat in
  if Ascii.eqb (char_at operand 0) "C" then Z.of_nat n else Z.of_nat (n / 2).

(** An operand that ends in [,X]. *)
Definition ends_in_comma_X (operand : string) : Prop :=
  exists p, operand = p ++ ",X".

(** The address field of the object code of an instruction: the 4 hex
    digits after the 2 digits of the opcode, read in base 16. *)
Definition address_of_objectCode (objectCode : string) : option Z :=
  Util.stringToInt (String.substring 2 4 objectCode) 16.

(** The indexed-addressing bit of that field. *)
Definition index_bit_set (objectCode : string) : bool :=
  match address_of_objectCode objectCode with
  | Some v => Z.testbit v 15
  | None => false
  end.

(** The operand the synthesis works on: without the [,X] part. *)
Definition pure_operand (operand : string) : string :=
  if isIndexedOperand operand then getOperandFromIndexed operand else operand.

(** The error codes of an error list, four characters each, as
    [reportErrors] cuts it. *)
Fixpoint error_codes_of (errorList : string) : list string :=
  match errorList with
  | String c1 (String c2 (String c3 (String c4 rest))) =>
      String c1 (String c2 (String c3 (String c4 EmptyString)))
      :: error_codes_of rest
  | _ => []
  end.

Definition byte_error_codes : list string :=
  ["0005"; "0006"; "0007"; "0008"; "0009"].

(** An error list that holds the code [c]. *)
Definition has_code (c : string) (errorList : string) : Prop :=
  exists pre post, errorList = pre ++ c ++ post.

(** The sections of machine code of the T records of an object file: of
    each line that starts with T, what follows the 9 characters of the
    letter, the address and the length byte. *)
Fixpoint lines_of (s : string) (line : string) : list string :=
  match s with
  | EmptyString => if is_empty line then [] else [line]
  | String c rest =>
      if Ascii.eqb c LF then line :: lines_of rest EmptyString
      else lines_of rest (push_back line c)
  end.

Definition machine_code_sections (object : string) : list string :=
  map (fun l => String.substring 9 (String.length l - 9) l)
    (filter (fun l => Ascii.eqb (char_at l 0) "T") (lines_of object EmptyString)).

Definition has_error (b : block) : bool := negb (is_empty (errorList b)).

Definition is_END (b : block) : bool := String.eqb (opcodeField b) "END".

(** The four ways one iteration of the loop of pass 1 can go: the line is
    skipped (empty, comment, no column), or is a START line, or an END
    line, or any other line. *)
Inductive line_step (st : pass1_state) : pass1_state -> bool -> Prop :=
| step_skip : line_step st st false
| step_START (srcLine label operand : string) (st' : pass1_state) :
    pass1_START st srcLine label "START" operand = Ok st' ->
    line_step st st' false
| step_END (srcLine operand : string) (st' : pass1_state) :
    pass1_END (implicit_start st) srcLine "END" operand
      (operand_errors "END" operand) = Ok st' ->
    line_step st st' true
| step_other (srcLine label opcode operand : string) (st' : pass1_state) :
    String.eqb opcode "START" = false ->
    String.eqb opcode "END" = false ->
    pass1_other (implicit_start st) srcLine label opcode operand
      (operand_errors opcode operand) = Ok st' ->
    line_step st st' false.

Definition not_END (b : block) : bool := negb (is_END b).

(** No END block has been written. *)
Definition no_END (st : pass1_state) : Prop :=
  forallb not_END (intermediate st) = true.

(** The loop was left at END: the END block is the last one written and
    the program length has been saved. *)
Definition ended (st : pass1_state) : Prop :=
  (exists (init : list block) (e : block),
      intermediate st = (init ++ [e])%list
      /\ forallb not_END init = true /\ is_END e = true)
  /\ programLength (p1_asm st)
     = wrap_int (locctr (p1_asm st) - startingAddress (p1_asm st)).

(** [anyErrors] is set in pass 1 only together with an error code. *)
Definition errors_recorded (st : pass1_state) : Prop :=
  anyErrors (p1_asm st) = true ->
  existsb has_error (intermediate st) = true.

(** Every symbol is valid or comes from a line that carries 0004. *)
Definition symbols_checked (st : pass1_state) : Prop :=
  forall k : string,
    is_Some (symbolTable (p1_asm st) !! k) ->
    symbol_validity k = true
    \/ exists b, In b (intermediate st) /\ has_code "0004" (errorList b).

(** ** Notions used to state further properties *)

(** The line without the characters of [delims]. *)
Fixpoint strip_chars (delims line : string) : string :=
  match line with
  | EmptyString => EmptyString
  | String c rest =>
      if Util.findChar delims c then strip_chars delims rest
      else String c (strip_chars delims rest)
  end.

(** The strings of a list, one after the other. *)
Fixpoint string_concat (l : list string) : string :=
  match l with
  | [] => EmptyString
  | s :: rest => s ++ string_concat rest
  end.

Definition no_delim (delims : string) (s : string) : bool :=
  string_forallb (fun c => negb (Util.findChar delims c)) s.

Definition only_delims (delims : string) (s : string) : bool :=
  string_forallb (Util.findChar delims) s.

Definition no_lowercase (s : string) : bool :=
  string_forallb (fun c => negb (Util.isLowerCase c)) s.

(** The value of a character as a digit, as [stringToInt] computes it. *)
Definition digit_value (c : ascii) : Z :=
  let u := Util.upper_char c in
  if Util.isDigit u then char_val u - char_val "0"
  else char_val u - char_val "A" + 10.

(** The number a string of digits denotes in positional notation, most
    significant digit first (Horner's rule). *)
Fixpoint horner (base : Z) (acc : Z) (s : string) : Z :=
  match s with
  | EmptyString => acc
  | String c rest => horner base (acc * base + digit_value c) rest
  end.

(** The strings of letters and digits whose digits are below the base. *)
Definition valid_digits (base : Z) (s : string) : bool :=
  string_forallb
    (fun c => Util.isAlphaNumeric (Util.upper_char c)
              && (digit_value c <? base)) s.

(** Every END block whose operand is a hex symbol carries an error. *)
Definition END_hex_flagged (st : pass1_state) : Prop :=
  forall b : block,
    In b (intermediate st) ->
    is_END b = true -> isHexSymbol (operandField b) = true ->
    has_error b = true.

(** What [reportErrors] writes for an error code it does not find. *)
Definition unknownErrorText : string :=
  "Unknown error reported. Something went wrong in the intermediate file."
  ++ String TAB EmptyString.

(** What [reportErrors] writes for one error code. *)
Definition describe_error (code : string) : string :=
  match errorCodes !! code with
  | Some second => second ++ ", "
  | None => unknownErrorText
  end.

(** A code of four characters that is in the error table. *)
Definition known_code (c : string) : bool :=
  (String.length c =? 4)%nat
  && match errorCodes !! c with
     | Some _ => true
     | None => false
     end.

(** An error list made of known codes, one after the other. *)
Definition well_formed_errors (e : string) : Prop :=
  exists l, e = string_concat l /\ forallb known_code l = true.

(** The error buffer [e'] is [e] followed by known codes. *)
Definition codes_after (e e' : string) : Prop :=
  exists suffix, e' = e ++ suffix /\ well_formed_errors suffix.

(** Every block written so far has a well-formed error list. *)
Definition blocks_well_formed (st : pass1_state) : Prop :=
  forall b : block, In b (intermediate st) -> well_formed_errors (errorList b).

(** ** sic.cpp: load and exec

    The SIC engine (sicengine.h) is not part of the sources: its calls
    are recorded with their arguments as the [int] values they have
    before the casts to the types of the engine. *)

Inductive effect : Type :=
| PutMem (i_address i_byte : Z)
| SICRun (i_address : Z)
| Output (text : string).

(** [stringToInt(src, dst, 16)] on a [dst] that holds [old]. *)
Definition stringToInt_into (src : string) (old : Z) : Z :=
  match Util.stringToInt src 16 with
  | Some v => v
  | None => old
  end.

(** The loop of [load] over the data of a text record, two characters
    at a time; the character after the last one is the terminating
    NUL. *)
Fixpoint load_bytes (s_byteData : string) (i_address i_byte : Z)
    : list effect :=
  match s_byteData with
  | EmptyString => []
  | String c1 EmptyString =>
      let s_byte := String c1 (String NUL EmptyString) in
      let i_byte := stringToInt_into s_byte i_byte in
      [PutMem i_address i_byte]
  | String c1 (String c2 rest) =>
      let s_byte := String c1 (String c2 EmptyString) in
      let i_byte := stringToInt_into s_byte i_byte in
      PutMem i_address i_byte
      :: load_bytes rest (wrap_int (i_address + 1)) i_byte
  end.

(** The body of the loop of [load] on a record that is not the end
    record: [substr(9)] throws on a record of less than 9 characters. *)
Definition load_record (s_textRecord : string) : result (list effect) :=
  let s_address := String.substring 1 6 s_textRecord in
  if (String.length s_textRecord <? 9)%nat then OutOfRange
  else
    let s_byteData :=
      String.substring 9 (String.length s_textRecord - 9) s_textRecord in
    let i_address := stringToInt_into s_address 0 in
    Ok (load_bytes s_byteData i_address 0).

(** The loop of [load] over the records after the header: the calls of
    the engine and [s_firstAddress]; [at(0)] throws on an empty record. *)
Fixpoint load_records (records : list string)
    : result (list effect * string) :=
  match records with
  | [] => Ok ([], EmptyString)
  | s_textRecord :: rest =>
      match s_textRecord with
      | EmptyString => OutOfRange
      | String c0 _ =>
          if Ascii.eqb c0 "E"
          then Ok ([], String.substring 1 6 s_textRecord)
          else
            let! effects := load_record s_textRecord in
            let! (effects', s_firstAddress) := load_records rest in
            Ok ((effects ++ effects')%list, s_firstAddress)
      end
  end.

Definition DQUOTE : ascii := ascii_of_N 34.

(** [load(command)]: [objectfile] is the list of the lines of the file
    named by the first parameter, [None] when it cannot be opened. *)
Definition load_file (path : string) (objectfile : option (list string))
    : result (list effect * string) :=
  match objectfile with
  | Some lines => load_records (List.tl lines)
  | None =>
      Ok ([Output ("Error. " ++ String DQUOTE path
                   ++ String DQUOTE " file for source was not found."
                   ++ endl)],
          EmptyString)
  end.

(** [exec(command)], on the [s_firstAddress] that [load] has left. *)
Definition exec_from (s_firstAddress : string) : list effect :=
  if negb (is_empty s_firstAddress)
  then [SICRun (stringToInt_into s_firstAddress 0)]
  else [Output ("No starting address supplied from the object file." ++ endl)].

(** ** command.h, interpreter.h and the command table of sic.cpp *)

(** The functions of sic.cpp that a command can point to. *)
Inductive execution : Type :=
| load | exec | debug | dump | help | assem | dir.

(** What an iteration of the interpreter does that can be seen: a text
    written to [cout], or a call of the function of a command with the
    parsed line. *)
Inductive event : Type :=
| Print (text : string)
| Call (f : execution) (line : list string).

(** [os << v] for an [unsigned] in base 10. *)
Definition print_unsigned (v : Z) : string :=
  digits_loop 10 10 false (to_unsigned v) EmptyString.



Module Command.

Record t : Type := mk {
  name : string;
  parameters : Z;
  nameTolerance : Z;
  execution_ : execution
}.

(** [Command::process(line)]. *)
Definition process (c : t) (line : list string) : list event :=
  if negb (length line =? 0)%nat then
    if to_unsigned (Z.of_nat (length line) - 1) =? parameters c
    then [Call (execution_ c) line]
    else [Print ("Error. " ++ name c ++ " takes "
                 ++ print_unsigned (parameters c) ++ " parameter(s).")]
  else [].

End Command.

Module Interpreter.

(** The loop of [Interpreter::process] over the commands from [i] on:
    whether a command was found, and what it did. *)
Fixpoint process_loop (commands : list Command.t) (first : string)
    (parsedLine : list string) : bool * list event :=
  match commands with
  | [] => (false, [])
  | comm :: rest =>
      if Util.isPrefix first (Command.name comm) then
        if Command.nameTolerance comm <=? Z.of_nat (String.length first)
        then (true, Command.process comm parsedLine)
        else process_loop rest first parsedLine
      else process_loop rest first parsedLine
  end.

Definition process (commands : list Command.t) (parsedLine : list string)
    : bool * list event :=
  process_loop commands (DynamicArray.at_ parsedLine 0) parsedLine.

Definition prompt : string := String LF "command >>> ".

Definition notRecognized : string :=
  "Command not recognized. Enter 'help' for a list of available commands.".

(** One iteration of the loop of [run] on the line read; the boolean
    says that the loop is left ([break]). *)
Definition run_line (commands : list Command.t) (line : string)
    : bool * list event :=
  let parsedLine := Util.parseLine line delims in
  if negb (length parsedLine =? 0)%nat then
    let com := DynamicArray.at_ parsedLine 0 in
    if Util.isPrefix com "exit" && (2 <? String.length com)%nat
    then (true, [Print prompt])
    else
      let '(found, events) := process commands parsedLine in
      (false,
       (Print prompt :: events
        ++ (if negb found then [Print notRecognized] else []))%list)
  else (false, [Print prompt]).



(** [addCommand]: the command is pushed to the back. *)
Definition addCommand (name : string) (params nameTol : Z) (f : execution)
    (commands : list Command.t) : list Command.t :=
  (commands ++ [Command.mk name params nameTol f])%list.

End Interpreter.

(** [loadCommands] of sic.cpp, on an interpreter without commands. *)
Definition loadCommands : list Command.t :=
  Interpreter.addCommand "directory" 0 2 dir
    (Interpreter.addCommand "assemble" 1 1 assem
       (Interpreter.addCommand "help" 0 1 help
          (Interpreter.addCommand "dump" 2 2 dump
             (Interpreter.addCommand "debug" 0 2 debug
                (Interpreter.addCommand "execute" 0 3 exec
                   (Interpreter.addCommand "load" 1 1 load [])))))).

(** The first word of a line selects the command [c]. *)
Definition selects (first : string) (c : Command.t) : bool :=
  Util.isPrefix first (Command.name c)
  && (Command.nameTolerance c <=? Z.of_nat (String.length first)).

(** The prefixes of a string, the shortest first. *)
Fixpoint prefixes (s : string) : list string :=
  EmptyString
  :: match s with
     | EmptyString => []
     | String c rest => map (String c) (prefixes rest)
     end.

(** The first word of a line, if it has one. *)
Definition first_word (line : string) : option string :=
  match Util.parseLine line delims with
  | [] => None
  | w :: _ => Some w
  end.

Definition is_exit_word (w : string) : bool :=
  String.eqb w "exi" || String.eqb w "exit".

(** No line of the input starts with an exit word. *)
Definition no_exit_line (line : string) : bool :=
  match first_word line with
  | Some w => negb (is_exit_word w)
  | None => true
  end.


(** ** dynamic_array.h: the class with its cells

    The array is its element count, its capacity and the cells of
    [container]; [T] is the type of the elements, [fresh] the value of a
    default-constructed [T] (the cells of [new T[n]]) and [eqb] its
    [operator==].  A result [None] is an access outside the allocated
    cells, whose behaviour is undefined.  The counts are [unsigned]; the
    loop counters are [int], which agrees with them below [2^31]. *)

Module Cells.
Section Cells.

Variable T : Type.
Variable fresh : T.
Variable eqb : T -> T -> bool.

Record t : Type := mk {
  numberOfElements : Z;
  capacity : Z;
  container : list T
}.

Definition minCapacity : Z := 16.

(** [new T[n]]. *)
Definition new_array (n : Z) : list T := replicate (Z.to_nat n) fresh.

(** [c[i]] as a value. *)
Definition read (c : list T) (i : Z) : option T :=
  if (0 <=? i) && (i <? Z.of_nat (length c)) then c !! Z.to_nat i else None.

(** [c[i] = x]. *)
Definition write (c : list T) (i : Z) (x : T) : option (list T) :=
  if (0 <=? i) && (i <? Z.of_nat (length c))
  then Some (<[Z.to_nat i := x]> c)
  else None.

(** [DynamicArray()]. *)
Definition new_ : t := mk 0 minCapacity (new_array minCapacity).

(** The copying loop of [resize], from index [i] on, [count] times. *)
Fixpoint resize_loop (old new : list T) (i : Z) (count : nat)
    : option (list T) :=
  match count with
  | O => Some new
  | S k =>
      match read old i with
      | Some x =>
          match write new i x with
          | Some new' => resize_loop old new' (i + 1) k
          | None => None
          end
      | None => None
      end
  end.

Definition resize (d : t) (newSize : Z) : option t :=
  match resize_loop (container d) (new_array newSize) 0
          (Z.to_nat (numberOfElements d)) with
  | Some c => Some (mk (numberOfElements d) newSize c)
  | None => None
  end.

(** [swap(a, b)] on the cells [i] and [j]: [temp] is a reference to
    [a], so that [b = temp] copies the new value of [a]. *)
Definition swap (c : list T) (i j : Z) : option (list T) :=
  match read c j with
  | Some b =>
      match write c i b with
      | Some c1 =>
          match read c1 i with
          | Some temp => write c1 j temp
          | None => None
          end
      | None => None
      end
  | None => None
  end.

(** The shifting loop of [push_front]: [i] goes from [count - 1] down
    to 0. *)
Fixpoint shift_loop (c : list T) (count : nat) : option (list T) :=
  match count with
  | O => Some c
  | S k =>
      match read c (Z.of_nat k) with
      | Some x =>
          match write c (Z.of_nat k + 1) x with
          | Some c' => shift_loop c' k
          | None => None
          end
      | None => None
      end
  end.

(** [if(numberOfElements == capacity) resize(capacity * 2)]. *)
Definition grow (d : t) : option t :=
  if numberOfElements d =? capacity d
  then resize d (to_unsigned (capacity d * 2))
  else Some d.

Definition push_front (entry : T) (d : t) : option t :=
  match shift_loop (container d) (Z.to_nat (numberOfElements d)) with
  | Some c =>
      match write c 0 entry with
      | Some c' =>
          grow (mk (to_unsigned (numberOfElements d + 1)) (capacity d) c')
      | None => None
      end
  | None => None
  end.

Definition push_back (entry : T) (d : t) : option t :=
  match write (container d) (numberOfElements d) entry with
  | Some c => grow (mk (to_unsigned (numberOfElements d + 1)) (capacity d) c)
  | None => None
  end.

(** The body of [remove] once the target is found in cell [i]. *)
Definition remove_at (d : t) (i : Z) : option t :=
  match swap (container d) i (numberOfElements d - 1) with
  | Some c =>
      let n := to_unsigned (numberOfElements d - 1) in
      let d' := mk n (capacity d) c in
      if (minCapacity <? n) && (n <=? capacity d / 4)
      then resize d' (capacity d / 2)
      else Some d'
  | None => None
  end.

(** The loop of [remove], from index [i] on, at most [count] times. *)
Fixpoint remove_loop (d : t) (target : T) (i : Z) (count : nat) : option t :=
  match count with
  | O => Some d
  | S k =>
      match read (container d) i with
      | Some x =>
          if eqb x target then remove_at d i
          else remove_loop d target (i + 1) k
      | None => None
      end
  end.

Definition remove (target : T) (d : t) : option t :=
  remove_loop d target 0 (Z.to_nat (numberOfElements d)).

(** The loop of [pad], from index [i] on, [count] times. *)
Fixpoint pad_loop (c : list T) (entry : T) (i : Z) (count : nat)
    : option (list T) :=
  match count with
  | O => Some c
  | S k =>
      match write c i entry with
      | Some c' => pad_loop c' entry (i + 1) k
      | None => None
      end
  end.

Definition pad (entry : T) (d : t) : option t :=
  match pad_loop (container d) entry (numberOfElements d)
          (Z.to_nat (to_unsigned (capacity d - 1) - numberOfElements d)) with
  | Some c => Some (mk (numberOfElements d) (capacity d) c)
  | None => None
  end.

Definition forceSize (size : Z) (d : t) : t :=
  if (0 <=? size) && (size <? capacity d)
  then mk size (capacity d) (container d)
  else d.

Definition at_ (d : t) (index : Z) : option T := read (container d) index.

Definition size (d : t) : Z := numberOfElements d.

Definition empty (d : t) : bool := numberOfElements d =? 0.

Definition clear (d : t) : t := new_.

(** The elements of the array, in the order of their cells. *)
Definition elements (d : t) : list T :=
  take (Z.to_nat (numberOfElements d)) (container d).

(** The count is below the capacity, which is the number of cells. *)
Definition well_formed (d : t) : Prop :=
  0 <= numberOfElements d < capacity d
  /\ Z.of_nat (length (container d)) = capacity d.

(** The elements pushed to the back one after the other. *)
Fixpoint push_all (entries : list T) (d : t) : option t :=
  match entries with
  | [] => Some d
  | entry :: rest =>
      match push_back entry d with
      | Some d' => push_all rest d'
      | None => None
      end
  end.

End Cells.

Arguments mk {T} _ _ _.
Arguments numberOfElements {T} _.
Arguments capacity {T} _.
Arguments container {T} _.
Arguments read {T} _ _.
Arguments write {T} _ _ _.
Arguments swap {T} _ _ _.
Arguments shift_loop {T} _ _.
Arguments pad_loop {T} _ _ _ _.
Arguments pad {T} _ _.
Arguments forceSize {T} _ _.
Arguments at_ {T} _ _.
Arguments size {T} _.
Arguments empty {T} _.
Arguments elements {T} _.
Arguments well_formed {T} _.
Arguments resize_loop {T} _ _ _ _.
Arguments resize {T} _ _ _.
Arguments grow {T} _ _.
Arguments push_front {T} _ _ _.
Arguments push_back {T} _ _ _.
Arguments remove_at {T} _ _ _.
Arguments remove_loop {T} _ _ _ _ _ _.
Arguments remove {T} _ _ _ _.
Arguments new_array {T} _ _.
Arguments new_ {T} _.
Arguments clear {T} _ _.
Arguments push_all {T} _ _ _.

End Cells.

(** The element [y] is not the one that [remove] looks for. *)
Definition differs {T : Type} (eqb : T -> T -> bool) (target : T) (y : T)
    : bool :=
  negb (eqb y target).

(** What [remove] makes of the elements after the one removed: the last
    one takes the place of the removed one. *)
Definition last_first {T : Type} (l : list T) : list T :=
  match reverse l with
  | [] => []
  | y :: r => y :: reverse r
  end.

(** The columns that [getColumns] reads in the array of the tokens:
    [blank] says that the line starts with a delimiter. *)
Definition columns_of_cells (tokens : list string) (blank : bool)
    : option (option string * option string * option string) :=
  match Cells.push_all EmptyString tokens (Cells.new_ EmptyString) with
  | Some parsedLine =>
      match Cells.pad EmptyString parsedLine with
      | Some parsedLine =>
          let parsedLine := Cells.forceSize 4 parsedLine in
          match (if blank
                 then Cells.push_front EmptyString EmptyString parsedLine
                 else Some parsedLine) with
          | Some parsedLine =>
              Some (Cells.at_ parsedLine 0, Cells.at_ parsedLine 1,
                    Cells.at_ parsedLine 2)
          | None => None
          end
      | None => None
      end
  | None => None
  end.

(** The bytes that a string of hex digits denotes, two digits a byte,
    at the addresses from [address] on. *)
Fixpoint hex_bytes (address : Z) (data : string) : list effect :=
  match data with
  | String c1 (String c2 rest) =>
      PutMem address (16 * digit_value c1 + digit_value c2)
      :: hex_bytes (address + 1) rest
  | _ => []
  end.

(** A text record as pass 2 writes it, without its end of line. *)
Definition text_record (address buffer : string) : string :=
  startTextRecord address
  ++ textRecordLength (Z.of_nat (String.length buffer))
  ++ textRecordCode buffer.

(** An address field and a buffer that a text record can hold: hex
    digits, at most 6 for the address, an even number of at most 510 for
    the buffer. *)
Definition record_fits (r : string * string) : bool :=
  negb (is_empty (fst r))
  && (String.length (fst r) <=? 6)%nat
  && valid_digits 16 (fst r)
  && valid_digits 16 (snd r)
  && Nat.even (String.length (snd r))
  && (String.length (snd r) <=? 510)%nat.

(** The memory writes that a list of records stands for. *)
Fixpoint records_bytes (records : list (string * string)) : list effect :=
  match records with
  | [] => []
  | r :: rest =>
      (hex_bytes (horner 16 0 (fst r)) (snd r) ++ records_bytes rest)%list
  end.

(** A character that [std::hex << (int)c] prints as two digits. *)
Definition two_digit_char (c : ascii) : bool :=
  (16 <=? code c) && (code c <? 128).

(** A source line that pass 1 takes for the END line: not empty, not a
    comment, with END in its opcode column. *)
Definition is_END_line (srcLine : string) : bool :=
  negb (is_empty srcLine)
  && negb (Ascii.eqb (char_at srcLine 0) ".")
  && match getColumns srcLine delims with
     | Ok (_, _, opcode, _) => String.eqb opcode "END"
     | OutOfRange => false
     end.







(** The increment of the location counter on a line that is neither
    START nor END: the first component of what [pass1_size] returns (it
    does not depend on the error buffer). *)
Definition line_increment (opcode operand : string) : Z :=
  fst (fst (pass1_size opcode operand EmptyString)).

(** A line that pass 1 skips or takes for the END line moves the
    location counter by 0, any other line by its increment. *)
Definition line_move (srcLine label opcode operand : string) : Z :=
  if Ascii.eqb (char_at srcLine 0) "."
     || (String.length label + String.length opcode + String.length operand
         =? 0)%nat
     || String.eqb opcode "END"
  then 0
  else line_increment opcode operand.

(** The value a START line gives the location counter. *)
Definition START_address (operand : string) : Z :=
  match (if is_empty operand then None else Util.stringToInt operand 16) with
  | Some v => v
  | None => 0
  end.

(** Whenever a text record is open, the object file ends with its
    header. *)
Definition record_open (s : pass2_state) : Prop :=
  startSet s = true -> makeNewTextRec s = false ->
  exists pre address, objectfile s = pre ++ startTextRecord address.

(** [LL] is the length byte of a text record whose machine-code section
    is [code]: two hex digits that read as half its number of
    characters. *)
Definition length_byte_of (LL code : string) : Prop :=
  String.length LL = 2%nat
  /\ Util.stringToInt LL 16 = Some (Z.of_nat (String.length code) / 2).

(** The placeholder is in the accumulator, after [kept], and the text
    record it belongs to is open. *)
Definition placeholder_pending (s : pass2_state) (kept : string) : Prop :=
  exists more pre address,
    machineCodeStreamBuffer s = kept ++ placeholder ++ more
    /\ objectfile s = pre ++ startTextRecord address
    /\ startSet s = true /\ makeNewTextRec s = false.

(** The object file holds a finished text record with the placeholder
    in its machine-code section, after [kept], and counted in its length
    byte. *)
Definition placeholder_written (object kept : string) : Prop :=
  exists pre address LL more post,
    object = pre ++ startTextRecord address ++ LL
             ++ Util.toUpperCase kept ++ placeholder
             ++ Util.toUpperCase more ++ endl ++ post
    /\ ((String.length (kept ++ placeholder ++ more) <= 510)%nat ->
        length_byte_of LL (kept ++ placeholder ++ more)).

(** What the object file holds when pass 2 comes to the accumulator on
    the block [b]: the default header and the start of a text record
    when nothing was written yet, and the start of a text record after a
    reserve directive. *)
Definition record_opening (st : pass2_state) (b : block) : string :=
  (if negb (startSet st)
   then objectfile st
        ++ createHeaderRecord "NONAME" "00000" (programLength (p2_asm st))
        ++ startTextRecord (addressField b)
   else objectfile st)
  ++ (if makeNewTextRec st then startTextRecord (addressField b)
      else EmptyString).

(** * Properties *)

(** ** Strings *)

Lemma append_nil (t : string) : EmptyString ++ t = t.
Proof. reflexivity. Qed.

Lemma append_cons (c : ascii) (s t : string) :
  String c s ++ t = String c (s ++ t).
Proof. reflexivity. Qed.

Ltac string_induction s :=
  induction s as [|? s ?IH];
  rewrite ?append_nil, ?append_cons; cbn [String.length is_empty];
  [reflexivity | try (rewrite IH; reflexivity)].

Lemma append_empty_r (s : string) : s ++ EmptyString = s.
Proof. string_induction s. Qed.

Lemma append_assoc (s t u : string) : (s ++ t) ++ u = s ++ (t ++ u).
Proof. string_induction s. Qed.

Lemma length_append (s t : string) :
  String.length (s ++ t) = (String.length s + String.length t)%nat.
Proof. string_induction s. Qed.

Lemma is_empty_append (s t : string) :
  is_empty (s ++ t) = is_empty s && is_empty t.
Proof. destruct s; reflexivity. Qed.

Lemma is_empty_false_append (s t : string) :
  is_empty s = false -> is_empty (s ++ t) = false.
Proof. intros H. now rewrite is_empty_append, H. Qed.

Lemma is_empty_true (s : string) : is_empty s = true -> s = EmptyString.
Proof. destruct s; [reflexivity | discriminate]. Qed.

Lemma is_empty_length (s : string) :
  is_empty s = (String.length s =? 0)%nat.
Proof. destruct s; reflexivity. Qed.

Lemma substring_all (s : string) : String.substring 0 (String.length s) s = s.
Proof.
  induction s as [|c s IH]; [reflexivity|].
  cbn [String.length String.substring]. now rewrite IH.
Qed.

Lemma substring_append_skip (x y : string) (m : nat) :
  String.substring (String.length x) m (x ++ y) = String.substring 0 m y.
Proof.
  induction x as [|c x IH]; [reflexivity|].
  rewrite append_cons. cbn [String.length String.substring]. apply IH.
Qed.

Lemma substring_after_prefix (x y : string) (n m : nat) :
  String.length x = n ->
  String.substring n m (x ++ y) = String.substring 0 m y.
Proof. intros <-. apply substring_append_skip. Qed.

Lemma toUpperCase_append (s t : string) :
  Util.toUpperCase (s ++ t) = Util.toUpperCase s ++ Util.toUpperCase t.
Proof.
  induction s as [|c s IH]; [reflexivity|].
  rewrite append_cons. cbn [Util.toUpperCase]. now rewrite IH, append_cons.
Qed.

Lemma toUpperCase_length (s : string) :
  String.length (Util.toUpperCase s) = String.length s.
Proof.
  induction s as [|c s IH]; [reflexivity|].
  cbn [Util.toUpperCase String.length]. now rewrite IH.
Qed.

Lemma has_code_append (c e suffix : string) :
  has_code c e -> has_code c (e ++ suffix).
Proof.
  intros (pre & post & ->). exists pre, (post ++ suffix).
  now rewrite !append_assoc.
Qed.

Lemma has_code_here (c e : string) : has_code c (e ++ c).
Proof. exists e, EmptyString. now rewrite append_empty_r. Qed.

(** ** BYTE constants with unusual characters *)

(** Where the two digits per character hold: the characters of value
    16 to 127. *)
Lemma print_hex_two_digits (v : Z) :
  16 <= v < 256 -> String.length (print_hex false v) = 2%nat.
Proof.
  intros H. unfold print_hex, to_unsigned.
  rewrite (Z.mod_small v) by lia. cbn [digits_loop].
  destruct (Z.eqb_spec (v / 16) 0) as [E|_];
    [Z.div_mod_to_equations; lia|].
  destruct (Z.eqb_spec (v / 16 / 16) 0) as [_|E];
    [reflexivity | Z.div_mod_to_equations; lia].
Qed.

Lemma hex_of_chars_length (s : string) :
  string_forallb (fun c => (16 <=? code c) && (code c <? 128)) s = true ->
  String.length (hex_of_chars s) = (2 * String.length s)%nat.
Proof.
  induction s as [|c s IH]; [reflexivity|].
  cbn [string_forallb hex_of_chars String.length].
  rewrite !andb_true_iff, Z.leb_le, Z.ltb_lt. intros [[Hlo Hhi] Hrest].
  rewrite length_append, (IH Hrest).
  assert (Hval : char_val c = code c).
  { unfold char_val. destruct (Z.ltb_spec (code c) 128); [reflexivity | lia]. }
  rewrite Hval, print_hex_two_digits by lia. lia.
Qed.

(** C5: the claim is that an error-free [BYTE C'...'] line yields two hex
    digits per character, whatever the characters.  On the line
    [A BYTE C'<BEL>'] (one character, of value 7, between the quotes) pass 1
    reports no error and the synthesized object code is the single digit
    [7]: the character is written with [std::hex] and no width. *)
Theorem C5_control_character_single_digit :
  forall garbage : Z,
  exists a b,
    pass1 (Assembler_new garbage)
      (Some ["A BYTE C'" ++ String (char_of 7) "'"]) = Ok (a, [b])
    /\ opcodeField b = "BYTE"
    /\ errorList b = EmptyString
    /\ String.length (getByteOperand (operandField b)) = 1%nat
    /\ block_objectCode a b = "7"
    /\ String.length (block_objectCode a b) <> (2 * 1)%nat.
Proof.
  intros garbage. eexists. eexists.
  split; [vm_compute; reflexivity|].
  repeat split; try (vm_compute; reflexivity).
  vm_compute. discriminate.
Qed.

(** C4: the claim is that no text record carries more than 60 hex
    characters of machine code.  On the error-free source
    [A BYTE C'........'] (eight characters of value 255 between the
    quotes), [END A], each character is written as the eight digits
    [ffffffff] of its sign-extended value, and the object file, which is
    kept, has one text record with 64 hex characters. *)
Theorem C4_high_bytes_overflow_text_record :
  forall garbage : Z,
  exists r,
    assemble garbage
      (Some ["A BYTE C'" ++ fill_string 8 (char_of 255) ++ "'"; " END A"]) = Ok r
    /\ anyErrors (r_asm r) = false
    /\ object_exists r = true
    /\ machine_code_sections (object_written r) = [fill_string 64 "F"]
    /\ (60 < String.length (fill_string 64 "F"))%nat.
Proof.
  intros garbage. eexists.
  split; [vm_compute; reflexivity|].
  repeat split; try (vm_compute; reflexivity).
  vm_compute. lia.
Qed.

(** Where the cap holds: the accumulator stays within 60 characters as
    long as no single object code is longer than that. *)
Lemma pack_objectCode_bound (address objectCode object : string)
    (makeNew : bool) (buffer : string) :
  (String.length buffer <= 60)%nat ->
  (String.length objectCode <= 60)%nat ->
  (String.length
     (snd (pack_objectCode address objectCode object makeNew buffer)) <= 60)%nat.
Proof.
  intros Hbuf Hcode. unfold pack_objectCode, machineCodePadding.
  destruct (negb (is_empty objectCode) && makeNew).
  all: destruct (is_empty objectCode) eqn:Hempty; cbn [negb orb].
  all: destruct (Z.eqb_spec (Z.of_nat (String.length buffer)) 0) as [Hz|Hz];
    cbn [negb].
  all: try (destruct (Z.ltb_spec 60
              (Z.of_nat (String.length objectCode)
               + Z.of_nat (String.length buffer))) as [Hfull|Hfits]).
  all: cbn [snd]; rewrite ?length_append; cbn [String.length]; lia.
Qed.

(** ** Operands that start with a digit *)

(** C6: the claim is that only an operand whose first character is [0] is
    encoded as a hex literal, any other being looked up as a symbol.  The
    operand [1000] passes the operand check of pass 1 and, in pass 2, is
    encoded as the literal address 0x1000 whatever the symbol table holds:
    [isHexSymbol] accepts any leading digit. *)
Theorem C6_digit_operand_is_hex_literal :
  (forall a : Assembler, createObjectCode a "0" "1000" = "001000")
  /\ forall garbage : Z,
     exists a b,
       pass1 (Assembler_new garbage) (Some [" LDA 1000"]) = Ok (a, [b])
       /\ errorList b = EmptyString
       /\ symbolTable a !! "1000" = None
       /\ block_objectCode a b = "001000".
Proof.
  split.
  - intros a. vm_compute. reflexivity.
  - intros garbage. eexists. eexists.
    split; [vm_compute; reflexivity|].
    repeat split; vm_compute; reflexivity.
Qed.

(** ** Counterexamples to the claims as they are stated *)

(** C1, as stated, fails on hex-literal operands.  The line [ LDA 08000]
    has no error; its operand does not end in [,X], and the address field
    of its object code is [8000], bit 15 set. *)
Lemma C1_hex_literal_counterexample :
  exists a b,
    pass1 (Assembler_new 0) (Some [" LDA 08000"]) = Ok (a, [b])
    /\ errorList b = EmptyString
    /\ block_objectCode a b = "008000"
    /\ ~ (index_bit_set (block_objectCode a b) = true
          <-> ends_in_comma_X (operandField b)).
Proof.
  eexists. eexists. split; [vm_compute; reflexivity|].
  split; [reflexivity|]. split; [vm_compute; reflexivity|].
  intros [H _].
  assert (E : index_bit_set
                (block_objectCode
                   {| locctr := 3; startingAddress := 0; programLength := 0;
                      anyErrors := false; symbolTable := ∅ |}
                   (mkBlock " LDA 08000" "0" "0" "08000" EmptyString)) = true)
    by (vm_compute; reflexivity).
  destruct (H E) as [p Hp]. cbn [operandField] in Hp.
  assert (L : String.length "08000" = String.length (p ++ ",X"))
    by now rewrite <- Hp.
  rewrite length_append in L. cbn [String.length] in L.
  assert (Hp3 : String.length p = 3%nat) by lia.
  destruct p as [|c1 [|c2 [|c3 [|c4 p]]]]; cbn in Hp3; try lia.
  discriminate Hp.
Qed.


(** C3, as stated, fails: a program of 3 bytes that starts at 0x8000 has
    no line in error and an END, and gets the fatal notice. *)
Lemma C3_short_program_high_start_reported :
  exists a blocks,
    pass1 (Assembler_new 0)
      (Some ["COPY START 8000"; "FIRST LDA 0"; " END FIRST"]) = Ok (a, blocks)
    /\ programLength a = 3
    /\ programLength a <= MSIZE
    /\ existsb has_error blocks = false
    /\ existsb is_END blocks = true
    /\ listing_txt (pass2 a (Some blocks))
       = listingfile (pass2_loop (pass2_init a) blocks) ++ fatalNotice 32771
    /\ anyErrors (r_asm (pass2 a (Some blocks))) = true
    /\ object_exists (pass2 a (Some blocks)) = false.
Proof.
  eexists. eexists. split; [vm_compute; reflexivity|].
  repeat split; try (vm_compute; reflexivity).
  vm_compute. discriminate.
Qed.

(** C7, as stated, fails: the operand [X'0G'] violates the shape, and the
    only error code of its line is 0001. *)
Lemma C7_nonhex_digit_only_0001 :
  byte_shape_ok "X'0G'" = false
  /\ pass1_size "BYTE" "X'0G'" EmptyString = (0, false, "0001")
  /\ existsb (fun c => existsb (String.eqb c) byte_error_codes)
       (error_codes_of "0001") = false.
Proof. repeat split; vm_compute; reflexivity. Qed.

(** C9, as stated, fails: a second START line sets the location counter
    from its operand, here from 0x1000 down to 0. *)
Lemma C9_second_START_lowers_locctr :
  exists st1 st2,
    pass1_line (mkPass1 (Assembler_new 0) [] false false) "A START 1000"
    = Ok (st1, false)
    /\ pass1_line st1 "B START 0" = Ok (st2, false)
    /\ locctr (p1_asm st1) = 4096
    /\ locctr (p1_asm st2) = 0
    /\ locctr (p1_asm st2) < locctr (p1_asm st1).
Proof.
  eexists. eexists. split; [vm_compute; reflexivity|].
  split; [vm_compute; reflexivity|].
  repeat split; vm_compute; reflexivity.
Qed.

(** ** Pass 2: the error flag *)

Lemma pass2_block_asm (st : pass2_state) (b : block) :
  p2_asm (fst (pass2_block st b)) = note_errors (p2_asm st) b.
Proof.
  unfold pass2_block, note_errors.
  destruct (String.eqb (opcodeField b) "START"); [reflexivity|].
  destruct (String.eqb (opcodeField b) "END"); [reflexivity|].
  destruct (pack_objectCode _ _ _ _ _) as [[object makeNew] buffer].
  reflexivity.
Qed.

Lemma note_errors_anyErrors (a : Assembler) (b : block) :
  anyErrors (note_errors a b) = anyErrors a || has_error b.
Proof.
  unfold note_errors, has_error.
  destruct (anyErrors a) eqn:Ha; cbn [negb orb]; [exact Ha|].
  destruct (is_empty (errorList b)); cbn [negb]; [exact Ha | reflexivity].
Qed.

Lemma note_errors_fields (a : Assembler) (b : block) :
  locctr (note_errors a b) = locctr a
  /\ startingAddress (note_errors a b) = startingAddress a
  /\ programLength (note_errors a b) = programLength a
  /\ symbolTable (note_errors a b) = symbolTable a.
Proof.
  unfold note_errors.
  destruct (negb (anyErrors a)); [|tauto].
  destruct (negb (is_empty (errorList b))); cbn; tauto.
Qed.

Lemma pass2_block_anyErrors (st : pass2_state) (b : block) :
  anyErrors (p2_asm (fst (pass2_block st b)))
  = anyErrors (p2_asm st) || has_error b.
Proof. rewrite pass2_block_asm. apply note_errors_anyErrors. Qed.

Lemma pass2_loop_keeps_anyErrors (blocks : list block) (st : pass2_state) :
  anyErrors (p2_asm st) = true ->
  anyErrors (p2_asm (pass2_loop st blocks)) = true.
Proof.
  revert st. induction blocks as [|b rest IH]; intros st H; [exact H|].
  cbn [pass2_loop].
  pose proof (pass2_block_anyErrors st b) as E.
  destruct (pass2_block st b) as [st' stop]. cbn [fst] in E.
  rewrite H in E. cbn [orb] in E.
  destruct stop; [exact E | now apply IH].
Qed.

Lemma pass2_finish_anyErrors (st : pass2_state) :
  anyErrors (r_asm (pass2_finish st))
  = anyErrors (p2_asm st) || (maxProgramSizeBytes <? locctr (p2_asm st))
    || negb (endFound st).
Proof.
  unfold pass2_finish.
  destruct (maxProgramSizeBytes <? locctr (p2_asm st));
    destruct (negb (endFound st)); cbn;
    rewrite ?orb_true_r, ?orb_false_r; reflexivity.
Qed.

Lemma pass2_finish_object_exists (st : pass2_state) :
  object_exists (pass2_finish st) = negb (anyErrors (r_asm (pass2_finish st))).
Proof.
  unfold pass2_finish.
  destruct (maxProgramSizeBytes <? locctr (p2_asm st));
    destruct (negb (endFound st)); reflexivity.
Qed.

(** ** The placeholder of a line in error *)

Lemma toUpperCase_placeholder : Util.toUpperCase placeholder = placeholder.
Proof. reflexivity. Qed.

(** ** Pass 1: one iteration *)

Lemma pass1_line_step (st : pass1_state) (srcLine : string)
    (st' : pass1_state) (stop : bool) :
  pass1_line st srcLine = Ok (st', stop) -> line_step st st' stop.
Proof.
  unfold pass1_line.
  destruct (is_empty srcLine); [intros [= <- <-]; constructor|].
  destruct (Ascii.eqb (char_at srcLine 0) "."); [intros [= <- <-]; constructor|].
  destruct (getColumns srcLine delims) as [[[[u label] opcode] operand]|];
    cbn [bind]; [|discriminate].
  destruct (_ =? 0)%nat; [intros [= <- <-]; constructor|].
  destruct (String.eqb_spec opcode "START") as [->|Hs].
  - destruct (pass1_START st u label "START" operand) as [st1|] eqn:E;
      cbn [bind]; [|discriminate].
    intros [= <- <-]. eapply step_START; eassumption.
  - apply String.eqb_neq in Hs. unfold pass1_columns.
    destruct (String.eqb_spec opcode "END") as [->|He].
    + destruct (pass1_END _ _ _ _ _) as [st1|] eqn:E; cbn [bind]; [|discriminate].
      intros [= <- <-]. eapply step_END; eassumption.
    + apply String.eqb_neq in He.
      destruct (pass1_other _ _ _ _ _ _) as [st1|] eqn:E; cbn [bind]; [|discriminate].
      intros [= <- <-]. eapply step_other; eassumption.
Qed.

(** The loop keeps an invariant [P] until it is left at END, where [Q]
    holds. *)
Lemma pass1_loop_invariant (P Q : pass1_state -> Prop) :
  (forall st st', P st -> line_step st st' false -> P st') ->
  (forall st st', P st -> line_step st st' true -> Q st') ->
  forall (lines : list string) (st st' : pass1_state),
    P st -> pass1_loop st lines = Ok st' -> P st' \/ Q st'.
Proof.
  intros Hcont Hstop lines.
  induction lines as [|l rest IH]; intros st st' HP.
  - intros [= <-]. now left.
  - cbn [pass1_loop].
    destruct (pass1_line st l) as [[st1 stop]|] eqn:E; cbn [bind]; [|discriminate].
    apply pass1_line_step in E. destruct stop.
    + intros [= <-]. right. eapply Hstop; eassumption.
    + apply IH. eapply Hcont; eassumption.
Qed.

Lemma isValidSymbol_result (s e : string) (v : bool) (e' : string) :
  isValidSymbol s e = Ok (v, e') ->
  v = symbol_validity s /\ exists suffix, e' = e ++ suffix.
Proof.
  unfold isValidSymbol, symbol_validity.
  rewrite (Nat.ltb_antisym (String.length s) 6).
  destruct (String.length s <=? 6)%nat eqn:Hlen; cbn [negb].
  - destruct s as [|c0 rest]; [discriminate|]. cbn [andb].
    destruct (Util.isAlpha c0); cbn [negb andb].
    + destruct (string_forallb Util.isAlphaNumeric rest); cbn [negb];
        intros [= <- <-]; (split; [reflexivity|]).
      * exists EmptyString. now rewrite append_empty_r.
      * now exists "0012".
    + intros [= <- <-]. split; [reflexivity | now exists "0011"].
  - intros [= <- <-]. split; [|now exists "0010"].
    destruct s; reflexivity.
Qed.

Lemma getConstantLength_errors (operand errors : string) :
  exists suffix, snd (getConstantLength operand errors) = errors ++ suffix.
Proof.
  unfold getConstantLength.
  repeat match goal with
         | |- context [if ?c then _ else _] => destruct c
         end; cbn [snd];
    first [ now eexists | exists EmptyString; now rewrite append_empty_r ].
Qed.

Lemma pass1_size_errors (opcode operand errors : string) :
  exists suffix, snd (pass1_size opcode operand errors) = errors ++ suffix.
Proof.
  unfold pass1_size.
  destruct (getConstantLength_errors operand errors) as [suf Hsuf].
  destruct (getConstantLength operand errors) as [len e1]. cbn [snd] in Hsuf. subst e1.
  repeat match goal with
         | |- context [if ?c then _ else _] => destruct c
         | |- context [match ?c with Some _ => _ | None => _ end] => destruct c
         end; cbn [snd]; rewrite ?append_assoc;
    first [ now eexists | exists EmptyString; now rewrite append_empty_r ].
Qed.

Lemma pass1_START_effect (st : pass1_state) (u label operand : string)
    (st' : pass1_state) :
  pass1_START st u label "START" operand = Ok st' ->
  exists addr errors,
    intermediate st'
    = (intermediate st ++ [mkBlock u "START" addr operand errors])%list
    /\ symbolTable (p1_asm st') = symbolTable (p1_asm st)
    /\ programLength (p1_asm st') = programLength (p1_asm st)
    /\ (anyErrors (p1_asm st') = true ->
        anyErrors (p1_asm st) = true \/ is_empty errors = false).
Proof.
  unfold pass1_START.
  set (e0 := if startFound st then EmptyString ++ "0015" else EmptyString).
  set (a0 := if startFound st then set_anyErrors true (p1_asm st) else p1_asm st).
  replace (if startFound st
           then (EmptyString ++ "0015", set_anyErrors true (p1_asm st))
           else (EmptyString, p1_asm st)) with (e0, a0)
    by (unfold e0, a0; now destruct (startFound st)).
  assert (Hflag : anyErrors a0 = true ->
                  anyErrors (p1_asm st) = true \/ is_empty e0 = false).
  { unfold a0, e0. destruct (startFound st); [now right | now left]. }
  assert (Hfields : symbolTable a0 = symbolTable (p1_asm st)
                    /\ programLength a0 = programLength (p1_asm st)).
  { unfold a0. now destruct (startFound st). }
  clearbody e0 a0.
  assert (Hlabel : forall e1,
    (if (0 <? String.length label)%nat
     then let! (valid, errors) := isValidSymbol label e0 in
          Ok (if negb valid then errors ++ "0004" else errors)
     else Ok e0) = Ok e1 -> exists suffix, e1 = e0 ++ suffix).
  { intros e1. destruct (0 <? String.length label)%nat.
    - destruct (isValidSymbol label e0) as [[valid e]|] eqn:E; cbn [bind];
        [|discriminate].
      apply isValidSymbol_result in E. destruct E as [_ [suf ->]].
      destruct valid; cbn [negb]; intros [= <-].
      + now exists suf.
      + exists (suf ++ "0004"). now rewrite append_assoc.
    - intros [= <-]. exists EmptyString. now rewrite append_empty_r. }
  destruct (if (0 <? String.length label)%nat then _ else _) as [e1|];
    cbn [bind]; [|discriminate].
  destruct (Hlabel e1 eq_refl) as [suf ->]. clear Hlabel.
  destruct Hfields as [Hsym Hlen].
  destruct (if is_empty operand then None else Util.stringToInt operand 16);
    intros [= <-]; cbn; do 2 eexists;
    (split; [reflexivity|]); (split; [assumption|]); (split; [assumption|]);
    intros Hany; destruct (Hflag Hany) as [H|H]; [now left| |now left|];
    right; rewrite ?append_assoc; now apply is_empty_false_append.
Qed.

Lemma pass1_END_effect (st : pass1_state) (u operand errors : string)
    (st' : pass1_state) :
  pass1_END st u "END" operand errors = Ok st' ->
  exists addr errors',
    intermediate st'
    = (intermediate st ++ [mkBlock u "END" addr operand errors'])%list
    /\ symbolTable (p1_asm st') = symbolTable (p1_asm st)
    /\ anyErrors (p1_asm st') = anyErrors (p1_asm st)
    /\ programLength (p1_asm st')
       = wrap_int (locctr (p1_asm st') - startingAddress (p1_asm st')).
Proof.
  unfold pass1_END.
  destruct (isValidSymbol operand errors) as [[valid e]|]; cbn [bind];
    [|discriminate].
  intros [= <-]. cbn. do 2 eexists. repeat split; reflexivity.
Qed.

Lemma implicit_start_fields (st : pass1_state) :
  intermediate (implicit_start st) = intermediate st
  /\ symbolTable (p1_asm (implicit_start st)) = symbolTable (p1_asm st)
  /\ anyErrors (p1_asm (implicit_start st)) = anyErrors (p1_asm st)
  /\ programLength (p1_asm (implicit_start st)) = programLength (p1_asm st).
Proof. unfold implicit_start. destruct (startFound st); cbn; tauto. Qed.

Lemma pass1_label_effect (a : Assembler) (label errors : string)
    (a' : Assembler) (errors' : string) :
  pass1_label a label errors = Ok (a', errors') ->
  (exists suffix, errors' = errors ++ suffix)
  /\ locctr a' = locctr a
  /\ startingAddress a' = startingAddress a
  /\ programLength a' = programLength a
  /\ anyErrors a' = anyErrors a
  /\ (symbolTable a' = symbolTable a
      \/ (symbolTable a' = <[label := to_unsigned (locctr a)]> (symbolTable a)
          /\ (symbol_validity label = true \/ has_code "0004" errors'))).
Proof.
  unfold pass1_label.
  destruct (negb (is_empty label)).
  - destruct (symbolTable a !! label) as [v|] eqn:Hfind.
    + intros [= <- <-]. split; [now exists "0002"|]. tauto.
    + destruct (isValidSymbol label errors) as [[valid e]|] eqn:E; cbn [bind];
        [|discriminate].
      apply isValidSymbol_result in E. destruct E as [-> [suf ->]].
      intros [= <- <-]. cbn. unfold umap_insert. rewrite Hfind.
      split.
      { destruct (symbol_validity label); cbn [negb].
        - now exists suf.
        - exists (suf ++ "0004"). now rewrite append_assoc. }
      repeat (split; [reflexivity|]). right. split; [reflexivity|].
      destruct (symbol_validity label); cbn [negb]; [now left|].
      right. apply has_code_here.
  - intros [= <- <-]. split; [|tauto].
    exists EmptyString. now rewrite append_empty_r.
Qed.

Lemma Ok_inj {A : Type} (x y : A) : Ok x = Ok y -> x = y.
Proof. now intros [= ->]. Qed.

Lemma map_forall_values (p : Z -> bool) (m : gmap string Z) :
  forallb (fun kv : string * Z => p (snd kv)) (map_to_list m) = true ->
  forall (k : string) (v : Z), m !! k = Some v -> p v = true.
Proof.
  intros Hall k v H. apply elem_of_map_to_list in H. apply list_elem_of_In in H.
  rewrite forallb_forall in Hall. exact (Hall _ H).
Qed.

(** The opcode line of an instruction is never the word END. *)
Lemma opcode_hex_not_END (opcode : string) (v : Z) :
  opcodeTable !! opcode = Some v ->
  String.eqb (print_hex false v) "END" = false.
Proof.
  intros H. apply negb_true_iff.
  apply (map_forall_values (fun v => negb (String.eqb (print_hex false v) "END"))
           opcodeTable) with (k := opcode); [|exact H].
  vm_compute. reflexivity.
Qed.

Lemma pass1_other_effect (st : pass1_state)
    (u label opcode operand errors : string) (st' : pass1_state) :
  String.eqb opcode "END" = false ->
  pass1_other st u label opcode operand errors = Ok st' ->
  exists opline addr errors',
    intermediate st'
    = (intermediate st ++ [mkBlock u opline addr operand errors'])%list
    /\ String.eqb opline "END" = false
    /\ anyErrors (p1_asm st') = anyErrors (p1_asm st)
    /\ programLength (p1_asm st') = programLength (p1_asm st)
    /\ (symbolTable (p1_asm st') = symbolTable (p1_asm st)
        \/ (symbolTable (p1_asm st')
            = <[label := to_unsigned (locctr (p1_asm st))]> (symbolTable (p1_asm st))
            /\ (symbol_validity label = true \/ has_code "0004" errors'))).
Proof.
  intros Hend. unfold pass1_other.
  destruct (pass1_label (p1_asm st) label errors) as [[a e1]|] eqn:El;
    cbn [bind]; [|discriminate].
  apply pass1_label_effect in El.
  destruct El as ([suf ->] & Hloc & Hsa & Hpl & Hany & Hsym).
  destruct (pass1_size_errors opcode operand (errors ++ suf)) as [suf2 Hsuf2].
  destruct (pass1_size opcode operand (errors ++ suf)) as [[increment opFound] e2] eqn:Es.
  cbn [snd] in Hsuf2. subst e2.
  intros H. apply Ok_inj in H. subst st'.
  cbn [intermediate p1_asm anyErrors programLength symbolTable set_locctr].
  do 3 eexists.
  split; [reflexivity|].
  split.
  { destruct opFound; [|exact Hend].
    destruct (opcodeTable !! opcode) as [v|] eqn:Hv; [|exact Hend].
    now apply (opcode_hex_not_END opcode). }
  repeat (split; [assumption|]).
  destruct Hsym as [Hsym|[Hsym Hvalid]]; [now left|].
  right. split; [exact Hsym|].
  destruct Hvalid as [Hvalid|Hcode]; [now left|].
  right. now apply has_code_append.
Qed.

(** ** Pass 1: invariants of the loop *)

Lemma forallb_snoc {A : Type} (p : A -> bool) (l : list A) (x : A) :
  forallb p (l ++ [x])%list = forallb p l && p x.
Proof. rewrite forallb_app. cbn. now rewrite andb_true_r. Qed.

Lemma existsb_snoc {A : Type} (p : A -> bool) (l : list A) (x : A) :
  existsb p (l ++ [x])%list = existsb p l || p x.
Proof. rewrite existsb_app. cbn. now rewrite orb_false_r. Qed.

Lemma END_position_step (st st' : pass1_state) (stop : bool) :
  no_END st -> line_step st st' stop ->
  if stop then ended st' else no_END st'.
Proof.
  unfold no_END. intros Hinv Hstep.
  destruct Hstep as [|u label operand st' H|u operand st' H
                     |u label opcode operand st' Hs He H].
  - exact Hinv.
  - apply pass1_START_effect in H. destruct H as (addr & errors & -> & _).
    rewrite forallb_snoc, Hinv. reflexivity.
  - apply pass1_END_effect in H.
    destruct H as (addr & errors & Hi & _ & _ & Hpl).
    destruct (implicit_start_fields st) as (Hi0 & _).
    split; [|exact Hpl].
    exists (intermediate st). eexists. rewrite Hi, Hi0.
    split; [reflexivity|]. split; [exact Hinv | reflexivity].
  - apply pass1_other_effect in H; [|exact He].
    destruct H as (opline & addr & errors & Hi & Hop & _).
    destruct (implicit_start_fields st) as (Hi0 & _).
    unfold no_END. rewrite Hi, Hi0, forallb_snoc, Hinv.
    unfold not_END, is_END. cbn. now rewrite Hop.
Qed.

Lemma errors_recorded_step (st st' : pass1_state) (stop : bool) :
  errors_recorded st -> line_step st st' stop -> errors_recorded st'.
Proof.
  unfold errors_recorded. intros Hinv Hstep.
  destruct Hstep as [|u label operand st' H|u operand st' H
                     |u label opcode operand st' Hs He H].
  - exact Hinv.
  - apply pass1_START_effect in H.
    destruct H as (addr & errors & -> & _ & _ & Hany).
    intros Hset. rewrite existsb_snoc.
    destruct (Hany Hset) as [Hold|Hnew].
    + now rewrite (Hinv Hold).
    + unfold has_error. cbn. rewrite Hnew. apply orb_true_r.
  - apply pass1_END_effect in H.
    destruct H as (addr & errors' & -> & _ & Hany & _).
    destruct (implicit_start_fields st) as (-> & _ & Hany0 & _).
    rewrite Hany, Hany0. intros Hset. now rewrite existsb_snoc, (Hinv Hset).
  - apply pass1_other_effect in H; [|exact He].
    destruct H as (opline & addr & errors' & -> & _ & Hany & _).
    destruct (implicit_start_fields st) as (-> & _ & Hany0 & _).
    rewrite Hany, Hany0. intros Hset. now rewrite existsb_snoc, (Hinv Hset).
Qed.

Lemma symbols_checked_step (st st' : pass1_state) (stop : bool) :
  symbols_checked st -> line_step st st' stop -> symbols_checked st'.
Proof.
  unfold symbols_checked. intros Hinv Hstep.
  assert (Hold : forall (blk : block) (k : string),
            is_Some (symbolTable (p1_asm st) !! k) ->
            symbol_validity k = true
            \/ exists b, In b (intermediate st ++ [blk])%list
                         /\ has_code "0004" (errorList b)).
  { intros blk k Hk. destruct (Hinv k Hk) as [Hv|(b & Hb & Hc)]; [now left|].
    right. exists b. split; [|exact Hc]. apply in_or_app. now left. }
  destruct Hstep as [|u label operand st' H|u operand st' H
                     |u label opcode operand st' Hs He H].
  - exact Hinv.
  - apply pass1_START_effect in H.
    destruct H as (addr & errors & -> & -> & _). intros k. apply Hold.
  - apply pass1_END_effect in H.
    destruct H as (addr & errors' & -> & -> & _).
    destruct (implicit_start_fields st) as (-> & -> & _). intros k. apply Hold.
  - apply pass1_other_effect in H; [|exact He].
    destruct H as (opline & addr & errors' & -> & _ & _ & _ & Hsym).
    destruct (implicit_start_fields st) as (-> & Hsym0 & _).
    rewrite Hsym0 in Hsym.
    destruct Hsym as [->|[-> Hvalid]]; [intros k; apply Hold|].
    intros k Hk. rewrite lookup_insert in Hk.
    destruct (decide (label = k)) as [<-|Hne]; [|now apply Hold].
    destruct Hvalid as [Hv|Hc]; [now left|].
    right. exists (mkBlock u opline addr operand errors').
    split; [|exact Hc]. apply in_or_app. right. now left.
Qed.

(** What pass 1 establishes when it returns. *)
Lemma pass1_outcome (garbage : Z) (source : option (list string))
    (a : Assembler) (blocks : list block) :
  pass1 (Assembler_new garbage) source = Ok (a, blocks) ->
  exists st,
    p1_asm st = a /\ intermediate st = blocks
    /\ (no_END st \/ ended st)
    /\ errors_recorded st /\ symbols_checked st.
Proof.
  set (st0 := mkPass1 (Assembler_new garbage) [] false false).
  assert (H0 : no_END st0 /\ errors_recorded st0 /\ symbols_checked st0).
  { split; [reflexivity|].
    split; [unfold errors_recorded, st0; cbn; discriminate|].
    intros k [v Hk]. cbn in Hk. rewrite lookup_empty in Hk. discriminate. }
  destruct source as [lines|]; cbn [pass1].
  - fold st0.
    destruct (pass1_loop st0 lines) as [st|] eqn:E; cbn [bind]; [|discriminate].
    intros H. apply Ok_inj in H. injection H as <- <-. exists st.
    split; [reflexivity|]. split; [reflexivity|].
    pose proof (pass1_loop_invariant
      (fun s => no_END s /\ errors_recorded s /\ symbols_checked s)
      (fun s => ended s /\ errors_recorded s /\ symbols_checked s)) as Hloop.
    destruct (Hloop) with (lines := lines) (st := st0) (st' := st)
      as [(H1 & H2 & H3)|(H1 & H2 & H3)]; try assumption; try tauto.
    + intros s s' (P1 & P2 & P3) Hstep. split; [|split].
      * exact (END_position_step s s' false P1 Hstep).
      * exact (errors_recorded_step s s' false P2 Hstep).
      * exact (symbols_checked_step s s' false P3 Hstep).
    + intros s s' (P1 & P2 & P3) Hstep. split; [|split].
      * exact (END_position_step s s' true P1 Hstep).
      * exact (errors_recorded_step s s' true P2 Hstep).
      * exact (symbols_checked_step s s' true P3 Hstep).
  - intros H. apply Ok_inj in H. injection H as <- <-. exists st0. tauto.
Qed.

(** ** Pass 2: the loop *)

Lemma pass2_block_stop (st : pass2_state) (b : block) :
  snd (pass2_block st b) = is_END b.
Proof.
  unfold pass2_block, is_END.
  destruct (String.eqb_spec (opcodeField b) "START") as [E|_].
  - rewrite E. reflexivity.
  - destruct (String.eqb (opcodeField b) "END"); [reflexivity|].
    now destruct (pack_objectCode _ _ _ _ _) as [[? ?] ?].
Qed.

Lemma pass2_block_endFound (st : pass2_state) (b : block) :
  endFound (fst (pass2_block st b)) = endFound st || is_END b.
Proof.
  unfold pass2_block, is_END.
  destruct (String.eqb_spec (opcodeField b) "START") as [E|_].
  - rewrite E. cbn. now rewrite orb_false_r.
  - destruct (String.eqb (opcodeField b) "END"); cbn [fst endFound].
    + now rewrite orb_true_r.
    + destruct (pack_objectCode _ _ _ _ _) as [[? ?] ?]. cbn.
      now rewrite orb_false_r.
Qed.

Lemma pass2_block_locctr (st : pass2_state) (b : block) :
  locctr (p2_asm (fst (pass2_block st b))) = locctr (p2_asm st).
Proof. rewrite pass2_block_asm. apply note_errors_fields. Qed.

Lemma pass2_loop_no_END (blocks : list block) (st : pass2_state) :
  forallb not_END blocks = true ->
  endFound (pass2_loop st blocks) = endFound st
  /\ anyErrors (p2_asm (pass2_loop st blocks))
     = anyErrors (p2_asm st) || existsb has_error blocks
  /\ locctr (p2_asm (pass2_loop st blocks)) = locctr (p2_asm st).
Proof.
  revert st. induction blocks as [|b rest IH]; intros st Hall.
  - cbn. now rewrite orb_false_r.
  - cbn [forallb] in Hall. apply andb_true_iff in Hall. destruct Hall as [Hb Hrest].
    unfold not_END in Hb. apply negb_true_iff in Hb.
    cbn [pass2_loop existsb].
    pose proof (pass2_block_stop st b) as Hstop.
    pose proof (pass2_block_endFound st b) as Hend.
    pose proof (pass2_block_anyErrors st b) as Hany.
    pose proof (pass2_block_locctr st b) as Hloc.
    destruct (pass2_block st b) as [st1 stop].
    cbn [fst snd] in *. subst stop. rewrite Hb in *.
    destruct (IH st1 Hrest) as (-> & -> & ->).
    rewrite Hend, Hany, Hloc, orb_false_r, orb_assoc. tauto.
Qed.

Lemma pass2_loop_app_no_END (init rest : list block) (st : pass2_state) :
  forallb not_END init = true ->
  pass2_loop st (init ++ rest)%list = pass2_loop (pass2_loop st init) rest.
Proof.
  revert st. induction init as [|b init IH]; intros st Hall; [reflexivity|].
  cbn [forallb] in Hall. apply andb_true_iff in Hall. destruct Hall as [Hb Hrest].
  unfold not_END in Hb. apply negb_true_iff in Hb.
  cbn [pass2_loop app].
  pose proof (pass2_block_stop st b) as Hstop.
  destruct (pass2_block st b) as [st1 stop]. cbn [snd] in Hstop.
  rewrite Hb in Hstop. subst stop. now apply IH.
Qed.

Lemma no_END_existsb (blocks : list block) :
  forallb not_END blocks = true -> existsb is_END blocks = false.
Proof.
  induction blocks as [|b rest IH]; [reflexivity|].
  cbn. intros H. apply andb_true_iff in H. destruct H as [Hb Hrest].
  unfold not_END in Hb. apply negb_true_iff in Hb. now rewrite Hb, IH.
Qed.

(** The flags at the end of the loop of pass 2, on the blocks pass 1
    writes: every block has been read. *)
Lemma pass2_loop_summary (st : pass2_state) (blocks : list block) :
  forallb not_END blocks = true
  \/ (exists (init : list block) (e : block),
        blocks = (init ++ [e])%list
        /\ forallb not_END init = true /\ is_END e = true) ->
  endFound (pass2_loop st blocks) = endFound st || existsb is_END blocks
  /\ anyErrors (p2_asm (pass2_loop st blocks))
     = anyErrors (p2_asm st) || existsb has_error blocks
  /\ locctr (p2_asm (pass2_loop st blocks)) = locctr (p2_asm st).
Proof.
  intros [Hall|(init & e & -> & Hall & He)].
  - destruct (pass2_loop_no_END blocks st Hall) as (-> & -> & ->).
    now rewrite (no_END_existsb blocks Hall), orb_false_r.
  - rewrite (pass2_loop_app_no_END init [e] st Hall).
    destruct (pass2_loop_no_END init (pass2_loop st []) Hall) as (H1 & H2 & H3).
    cbn [pass2_loop] in H1, H2, H3 |- *.
    pose proof (pass2_block_stop (pass2_loop st init) e) as Hstop.
    pose proof (pass2_block_endFound (pass2_loop st init) e) as Hend.
    pose proof (pass2_block_anyErrors (pass2_loop st init) e) as Hany.
    pose proof (pass2_block_locctr (pass2_loop st init) e) as Hloc.
    destruct (pass2_block (pass2_loop st init) e) as [st1 stop].
    cbn [fst snd] in *. subst stop. rewrite He in *.
    rewrite !existsb_snoc, He, Hend, Hany, Hloc, H2, H3.
    rewrite !orb_true_r, orb_assoc. tauto.
Qed.

(** The error flag when pass 2 returns, on the output of pass 1. *)
Lemma assemble_anyErrors (garbage : Z) (source : option (list string))
    (a : Assembler) (blocks : list block) :
  pass1 (Assembler_new garbage) source = Ok (a, blocks) ->
  let st := pass2_loop (pass2_init a) blocks in
  endFound st = existsb is_END blocks
  /\ locctr (p2_asm st) = locctr a
  /\ anyErrors (p2_asm st) = existsb has_error blocks
  /\ anyErrors (r_asm (pass2 a (Some blocks)))
     = existsb has_error blocks || (MSIZE <? locctr a)
       || negb (existsb is_END blocks).
Proof.
  intros H st. apply pass1_outcome in H.
  destruct H as (s & <- & <- & Hend & Hrec & _).
  assert (Hshape :
    forallb not_END (intermediate s) = true
    \/ (exists (init : list block) (e : block),
          intermediate s = (init ++ [e])%list
          /\ forallb not_END init = true /\ is_END e = true)).
  { destruct Hend as [Hno|[Hlast _]]; [now left | now right]. }
  destruct (pass2_loop_summary (pass2_init (p1_asm s)) (intermediate s) Hshape)
    as (H1 & H2 & H3).
  cbn [pass2_init endFound p2_asm orb] in H1, H2, H3.
  assert (Hany : anyErrors (p2_asm st) = existsb has_error (intermediate s)).
  { unfold st. rewrite H2. unfold errors_recorded in Hrec.
    destruct (anyErrors (p1_asm s)); [now rewrite Hrec | reflexivity]. }
  split; [exact H1|]. split; [exact H3|]. split; [exact Hany|].
  unfold st in Hany. cbn [pass2].
  rewrite pass2_finish_anyErrors, Hany, H1, H3. reflexivity.
Qed.

(** ** The object file and the error flag *)

(** C8: when pass 2 returns, [object.txt] does not exist if and only if
    [anyErrors] is true, and it is true exactly when a block has a
    non-empty error list, or the location counter is beyond the memory
    size, or there is no END block; without errors the file is kept. *)
Theorem C8_object_file_removed_iff_anyErrors (garbage : Z)
    (source : option (list string)) (a : Assembler) (blocks : list block) :
  pass1 (Assembler_new garbage) source = Ok (a, blocks) ->
  let r := pass2 a (Some blocks) in
  (object_exists r = false <-> anyErrors (r_asm r) = true)
  /\ (anyErrors (r_asm r) = true <->
      existsb has_error blocks = true
      \/ MSIZE < locctr a
      \/ existsb is_END blocks = false)
  /\ (anyErrors (r_asm r) = false -> object_exists r = true).
Proof.
  intros H r.
  destruct (assemble_anyErrors garbage source a blocks H) as (_ & _ & _ & Hany).
  fold r in Hany.
  assert (Hex : object_exists r = negb (anyErrors (r_asm r)))
    by apply pass2_finish_object_exists.
  split; [rewrite Hex; apply negb_false_iff|].
  split; [|intros E; now rewrite Hex, E].
  rewrite Hany, !orb_true_iff, Z.ltb_lt, negb_true_iff. tauto.
Qed.

Lemma C8_witness :
  exists a blocks,
    pass1 (Assembler_new 0)
      (Some ["COPY START 1000"; "FIRST LDA 0001"; " END FIRST"]) = Ok (a, blocks)
    /\ (object_exists (pass2 a (Some blocks)) = false
        <-> anyErrors (r_asm (pass2 a (Some blocks))) = true).
Proof.
  assert (H : exists a blocks,
             pass1 (Assembler_new 0)
               (Some ["COPY START 1000"; "FIRST LDA 0001"; " END FIRST"])
             = Ok (a, blocks)) by (vm_compute; eauto).
  destruct H as (a & blocks & H). exists a, blocks. split; [exact H|].
  exact (proj1 (C8_object_file_removed_iff_anyErrors 0 _ a blocks H)).
Defined.

(** ** The program length and the memory check *)

(** C3, amended: the program length saved at END is the location counter
    minus the starting address; the fatal notice is appended to the
    listing, and [anyErrors] set, exactly when the location counter (the
    last program address, not the length) exceeds 32768. *)
Theorem C3_fatal_notice_iff_locctr_beyond_memory (garbage : Z)
    (source : option (list string)) (a : Assembler) (blocks : list block) :
  pass1 (Assembler_new garbage) source = Ok (a, blocks) ->
  let st := pass2_loop (pass2_init a) blocks in
  let r := pass2 a (Some blocks) in
  let tail := if endFound st then EmptyString else missingEndNotice in
  (existsb is_END blocks = true ->
   programLength a = wrap_int (locctr a - startingAddress a))
  /\ (MSIZE < locctr a ->
      listing_txt r = (listingfile st ++ fatalNotice (locctr a)) ++ tail
      /\ anyErrors (r_asm r) = true
      /\ object_exists r = false)
  /\ (locctr a <= MSIZE ->
      listing_txt r = listingfile st ++ tail
      /\ anyErrors (r_asm r)
         = existsb has_error blocks || negb (existsb is_END blocks)).
Proof.
  intros H st r tail.
  destruct (assemble_anyErrors garbage source a blocks H) as (Hend & Hloc & _ & Hany).
  fold st in Hend, Hloc. fold r in Hany.
  assert (Hlist :
    listing_txt r
    = (if MSIZE <? locctr a
       then listingfile st ++ fatalNotice (locctr a) else listingfile st)
      ++ tail).
  { unfold r, tail. cbn [pass2]. fold st. unfold pass2_finish.
    rewrite Hloc. unfold maxProgramSizeBytes.
    destruct (MSIZE <? locctr a); destruct (endFound st); cbn [negb listing_txt];
      now rewrite ?append_empty_r. }
  split.
  { intros HE. apply pass1_outcome in H.
    destruct H as (s & <- & <- & [Hno|[_ Hpl]] & _); [|exact Hpl].
    rewrite (no_END_existsb _ Hno) in HE. discriminate. }
  split.
  - intros Hbig. apply Z.ltb_lt in Hbig. rewrite Hbig in Hlist, Hany.
    rewrite orb_true_r in Hany. cbn [orb] in Hany.
    split; [exact Hlist|]. split; [exact Hany|].
    unfold r. cbn [pass2]. rewrite pass2_finish_object_exists.
    fold (pass2 a (Some blocks)). fold r. now rewrite Hany.
  - intros Hsmall. apply Z.ltb_ge in Hsmall. rewrite Hsmall in Hlist, Hany.
    rewrite orb_false_r in Hany. now split.
Qed.

Lemma C3_witness :
  exists a blocks,
    pass1 (Assembler_new 0)
      (Some ["COPY START 8000"; "FIRST LDA 0"; " END FIRST"]) = Ok (a, blocks)
    /\ (existsb is_END blocks = true ->
        programLength a = wrap_int (locctr a - startingAddress a)).
Proof.
  assert (H : exists a blocks,
             pass1 (Assembler_new 0)
               (Some ["COPY START 8000"; "FIRST LDA 0"; " END FIRST"])
             = Ok (a, blocks)) by (vm_compute; eauto).
  destruct H as (a & blocks & H). exists a, blocks. split; [exact H|].
  exact (proj1 (C3_fatal_notice_iff_locctr_beyond_memory 0 _ a blocks H)).
Defined.

(** ** The symbol table *)


(** ** BYTE operands *)

Lemma substring_length (s : string) (a m : nat) :
  (a + m <= String.length s)%nat ->
  String.length (String.substring a m s) = m.
Proof.
  revert a m. induction s as [|c s IH]; intros a m H.
  - cbn [String.length] in H. destruct a, m; cbn; lia.
  - cbn [String.length] in H. destruct a as [|a].
    + destruct m as [|m]; [reflexivity|].
      cbn [String.substring String.length]. rewrite IH; lia.
    + cbn [String.substring]. apply IH. lia.
Qed.

Lemma byte_content_length (operand : string) :
  (3 <= String.length operand)%nat ->
  String.length (slice 2 (String.length operand - 1) operand)
  = (String.length operand - 3)%nat.
Proof. intros H. unfold slice. rewrite substring_length; lia. Qed.

Lemma odd_test (k : nat) : (k mod 2 =? 1)%nat = negb (Nat.even k).
Proof.
  destruct (Nat.even k) eqn:E; cbn [negb].
  - apply Nat.even_spec in E. destruct E as [m ->].
    now rewrite Nat.mul_comm, Nat.Div0.mod_mul.
  - apply (f_equal negb) in E. rewrite Nat.negb_even in E. cbn in E.
    apply Nat.odd_spec in E. destruct E as [m ->].
    now rewrite Nat.add_comm, Nat.mul_comm, Nat.Div0.mod_add.
Qed.

Lemma length_not_minus_one (k : nat) : negb (Z.of_nat k =? -1) = true.
Proof. apply negb_true_iff, Z.eqb_neq. lia. Qed.

Lemma pass1_size_BYTE (operand errors : string) :
  pass1_size "BYTE" operand errors
  = (let '(length, errors) := getConstantLength operand errors in
     if negb (length =? -1) then (length, false, errors)
     else (0, false, errors ++ "0001")).
Proof. reflexivity. Qed.

(** A well-shaped operand is sized as the specification says, without
    error. *)
Lemma byte_shape_ok_size (operand errors : string) :
  byte_shape_ok operand = true ->
  pass1_size "BYTE" operand errors = (byte_size operand, false, errors).
Proof.
  rewrite pass1_size_BYTE. unfold byte_shape_ok, getConstantLength, byte_size.
  set (n := String.length operand).
  rewrite !andb_true_iff, orb_true_iff, !andb_true_iff.
  intros [[[Hn Hq1] Hq2] Hkind].
  apply Nat.leb_le in Hn.
  assert (Hlen : String.length (slice 2 (n - 1) operand) = (n - 3)%nat)
    by (apply byte_content_length; unfold n in *; lia).
  rewrite Hlen in Hkind.
  destruct (Nat.ltb_spec n 4) as [|_]; [lia|].
  rewrite Hq1, Hq2. cbn [negb orb].
  destruct Hkind as [[Hc Hl]|[[[Hx Hl] Heven] Hhex]].
  - rewrite Hc. cbn [negb andb]. apply Nat.leb_le in Hl.
    destruct (Nat.ltb_spec 30 (n - 3)) as [|_]; [lia|].
    now rewrite length_not_minus_one.
  - rewrite Hx. apply Ascii.eqb_eq in Hx.
    destruct (Ascii.eqb (char_at operand 0) "C") eqn:Hc.
    { apply Ascii.eqb_eq in Hc. congruence. }
    cbn [negb andb]. rewrite Hhex. cbn [negb]. apply Nat.leb_le in Hl.
    destruct (Nat.ltb_spec 32 (n - 3)) as [|_]; [lia|].
    rewrite odd_test, Heven. cbn [negb].
    now rewrite length_not_minus_one.
Qed.

(** C7, amended: a BYTE operand that violates the required shape gets the
    increment 0 and the error 0001; one of the codes 0005 to 0009 comes
    before it except in two cases, which have no code of their own: an
    operand shorter than 4 characters, and a quoted X constant with a
    character that is not a hex digit. *)
Theorem C7_byte_shape_violation_errors (operand errors : string) :
  byte_shape_ok operand = false ->
  let n := String.length operand in
  let quoted :=
    Ascii.eqb (char_at operand 1) QUOTE
    && Ascii.eqb (char_at operand (n - 1)) QUOTE in
  exists code,
    pass1_size "BYTE" operand errors = (0, false, errors ++ code ++ "0001")
    /\ (code = EmptyString \/ In code byte_error_codes)
    /\ (code = EmptyString <->
        (n < 4)%nat
        \/ (Ascii.eqb (char_at operand 0) "X" = true
            /\ quoted = true
            /\ string_forallb Util.isHexDigit (slice 2 (n - 1) operand) = false)).
Proof.
  intros Hbad n quoted. rewrite pass1_size_BYTE.
  unfold getConstantLength. fold n.
  unfold byte_shape_ok in Hbad. fold n in Hbad.
  destruct (Nat.ltb_spec n 4) as [Hshort|Hlong].
  { exists EmptyString. split; [reflexivity|]. split; [now left|].
    split; [now left | reflexivity]. }
  assert (Hlen : String.length (slice 2 (n - 1) operand) = (n - 3)%nat)
    by (apply byte_content_length; unfold n in *; lia).
  rewrite Hlen in Hbad.
  destruct (Nat.leb_spec 4 n) as [_|]; [|lia]. cbn [andb] in Hbad.
  destruct (Ascii.eqb (char_at operand 0) "C") eqn:Hc;
    destruct (Ascii.eqb (char_at operand 0) "X") eqn:Hx; cbn [negb andb orb].
  - apply Ascii.eqb_eq in Hc, Hx. rewrite Hc in Hx. discriminate.
  - (* a C string *)
    unfold quoted.
    destruct (Ascii.eqb (char_at operand 1) QUOTE);
      destruct (Ascii.eqb (char_at operand (n - 1)) QUOTE);
      cbn [negb andb orb] in Hbad |- *;
      try (exists "0005"; rewrite append_assoc;
           split; [reflexivity|]; split; [right; cbn; tauto|];
           split; [discriminate | intros [?|(? & ? & _)]; [lia|discriminate]]).
    rewrite orb_false_r in Hbad. apply Nat.leb_gt in Hbad.
    destruct (Nat.ltb_spec 30 (n - 3)) as [_|]; [|lia].
    exists "0007". rewrite append_assoc.
    split; [reflexivity|]. split; [right; cbn; tauto|].
    split; [discriminate | intros [?|(? & _)]; [lia|discriminate]].
  - (* an X constant *)
    unfold quoted.
    destruct (Ascii.eqb (char_at operand 1) QUOTE);
      destruct (Ascii.eqb (char_at operand (n - 1)) QUOTE);
      cbn [negb andb orb] in Hbad |- *;
      try (exists "0005"; rewrite append_assoc;
           split; [reflexivity|]; split; [right; cbn; tauto|];
           split; [discriminate | intros [?|(_ & ? & _)]; [lia|discriminate]]).
    destruct (string_forallb Util.isHexDigit (slice 2 (n - 1) operand)) eqn:Hhex;
      cbn [negb].
    + rewrite andb_true_r in Hbad.
      destruct (Nat.ltb_spec 32 (n - 3)) as [Hmany|Hfew].
      * exists "0008". rewrite append_assoc.
        split; [reflexivity|]. split; [right; cbn; tauto|].
        split; [discriminate | intros [?|(_ & _ & ?)]; [lia|discriminate]].
      * destruct (Nat.leb_spec (n - 3) 32) as [_|]; [|lia].
        cbn [andb] in Hbad. rewrite odd_test, Hbad. cbn [negb].
        exists "0006". rewrite append_assoc.
        split; [reflexivity|]. split; [right; cbn; tauto|].
        split; [discriminate | intros [?|(_ & _ & ?)]; [lia|discriminate]].
    + exists EmptyString. split; [reflexivity|]. split; [now left|].
      split; [intros _; right; tauto | reflexivity].
  - exists "0009". rewrite append_assoc.
    split; [reflexivity|]. split; [right; cbn; tauto|].
    split; [discriminate | intros [?|(? & _)]; [lia|discriminate]].
Qed.

Lemma C7_witness :
  exists code,
    pass1_size "BYTE" "X'F'" EmptyString
    = (0, false, EmptyString ++ code ++ "0001")
    /\ (code = EmptyString \/ In code byte_error_codes).
Proof.
  destruct (C7_byte_shape_violation_errors "X'F'" EmptyString eq_refl)
    as (code & H1 & H2 & _).
  exists code. split; [exact H1 | exact H2].
Defined.

(** ** The location counter *)

Lemma wrap_int_small (z : Z) : INT_MIN <= z <= INT_MAX -> wrap_int z = z.
Proof.
  unfold INT_MIN, INT_MAX, wrap_int. intros H.
  rewrite Z.mod_small; lia.
Qed.

Lemma isDigit_value (c : ascii) :
  Util.isDigit c = true -> 0 <= char_val c - char_val "0" <= 9.
Proof.
  unfold Util.isDigit. rewrite andb_true_iff, !Z.leb_le.
  change (char_val "0") with 48. change (char_val "9") with 57. lia.
Qed.

Lemma pow10_succ (k : nat) : 10 ^ Z.of_nat (S k) = 10 * 10 ^ Z.of_nat k.
Proof. rewrite Nat2Z.inj_succ, Z.pow_succ_r; lia. Qed.

(** A decimal operand of at most 8 characters is read without overflow. *)
Lemma stringToInt_loop_decimal (s : string) (sum v : Z) :
  Util.stringToInt_loop 10 s sum = Some v ->
  0 <= sum ->
  sum + 10 ^ Z.of_nat (String.length s) <= 100000000 ->
  sum <= v <= sum + 10 ^ Z.of_nat (String.length s) - 1.
Proof.
  revert sum. induction s as [|c rest IH]; intros sum.
  - cbn. intros [= <-]. lia.
  - cbn [Util.stringToInt_loop String.length]. rewrite pow10_succ.
    set (p := 10 ^ Z.of_nat (String.length rest)).
    assert (Hp : 0 < p) by (apply Z.pow_pos_nonneg; lia).
    destruct (Util.isAlphaNumeric (Util.upper_char c)); [|discriminate].
    change (10 <=? 10) with true. change (10 =? 16) with false.
    cbn [andb].
    destruct (Util.isDigit (Util.upper_char c)) eqn:Hd; cbn [negb]; [|discriminate].
    apply isDigit_value in Hd.
    set (d := char_val (Util.upper_char c) - char_val "0") in *.
    intros Hrun Hsum Hfit.
    assert (Hpow : pow_int 10 (String.length rest) = p).
    { unfold pow_int. fold p.
      destruct (Z.leb_spec p INT_MAX) as [_|Hbig]; [reflexivity|].
      unfold INT_MAX in Hbig. lia. }
    rewrite Hpow in Hrun.
    rewrite (wrap_int_small (d * p)) in Hrun by (unfold INT_MIN, INT_MAX; nia).
    rewrite (wrap_int_small (sum + d * p)) in Hrun
      by (unfold INT_MIN, INT_MAX; nia).
    apply IH in Hrun; fold p in Hrun |- *; nia.
Qed.

Lemma stringToInt_decimal (s : string) (v : Z) :
  Util.stringToInt s 10 = Some v ->
  (String.length s <= 8)%nat ->
  0 <= v < 100000000.
Proof.
  unfold Util.stringToInt. destruct (is_empty s); [discriminate|].
  intros Hrun Hlen.
  assert (Hpow : 10 ^ Z.of_nat (String.length s) <= 10 ^ 8)
    by (apply Z.pow_le_mono_r; lia).
  change (10 ^ 8) with 100000000 in Hpow.
  apply stringToInt_loop_decimal in Hrun; lia.
Qed.

Lemma getConstantLength_value (operand errors : string) :
  fst (getConstantLength operand errors) = -1
  \/ 0 <= fst (getConstantLength operand errors) <= 32.
Proof.
  unfold getConstantLength.
  set (n := String.length operand).
  destruct (n <? 4)%nat; [now left|].
  destruct (negb _ && negb _); [now left|].
  destruct (negb _ || negb _); [now left|].
  destruct (Ascii.eqb (char_at operand 0) "C").
  - destruct (Nat.ltb_spec 30 (n - 3)); [now left|]. right. cbn [fst]. lia.
  - destruct (Ascii.eqb (char_at operand 0) "X"); [|now left].
    destruct (negb _); [now left|].
    destruct (Nat.ltb_spec 32 (n - 3)); [now left|].
    destruct (_ =? 1)%nat; [now left|]. right. cbn [fst].
    assert ((n - 3) / 2 <= n - 3)%nat by (apply Nat.Div0.div_le_upper_bound; lia).
    lia.
Qed.

(** The increment of a line is not negative (and is small) when the
    operand of a reserve directive has at most 8 characters. *)
Lemma pass1_size_increment (opcode operand errors : string) :
  (String.eqb opcode "RESW" || String.eqb opcode "RESB" = true ->
   (String.length operand <= 8)%nat) ->
  0 <= fst (fst (pass1_size opcode operand errors)) <= 300000000.
Proof.
  unfold pass1_size. intros Hres.
  destruct (String.eqb opcode "WORD").
  { destruct (Util.stringToInt operand 10); cbn; lia. }
  destruct (String.eqb opcode "RESW").
  { destruct (Util.stringToInt operand 10) as [v|] eqn:E; cbn [fst]; [|lia].
    apply stringToInt_decimal in E; [|now apply Hres].
    rewrite wrap_int_small; unfold INT_MIN, INT_MAX; lia. }
  destruct (String.eqb opcode "RESB").
  { destruct (Util.stringToInt operand 10) as [v|] eqn:E; cbn [fst]; [|lia].
    apply stringToInt_decimal in E; [|now apply Hres]. lia. }
  destruct (String.eqb opcode "BYTE").
  { pose proof (getConstantLength_value operand errors) as Hv.
    destruct (getConstantLength operand errors) as [len e]. cbn [fst] in Hv.
    destruct (Z.eqb_spec len (-1)); cbn [negb fst]; lia. }
  destruct (opcodeTable !! opcode); cbn [fst]; lia.
Qed.

Lemma pass1_other_locctr (st : pass1_state)
    (u label opcode operand errors : string) (st' : pass1_state) :
  pass1_other st u label opcode operand errors = Ok st' ->
  exists errors',
    locctr (p1_asm st')
    = wrap_int (locctr (p1_asm st)
                + fst (fst (pass1_size opcode operand errors'))).
Proof.
  unfold pass1_other.
  destruct (pass1_label (p1_asm st) label errors) as [[a e1]|] eqn:El;
    cbn [bind]; [|discriminate].
  apply pass1_label_effect in El. destruct El as (_ & Hloc & _).
  intros Hok. exists e1.
  destruct (pass1_size opcode operand e1) as [[increment opFound] e2].
  apply Ok_inj in Hok. subst st'.
  cbn [p1_asm locctr set_locctr fst]. now rewrite Hloc.
Qed.

Lemma pass1_END_locctr (st : pass1_state) (u opcode operand errors : string)
    (st' : pass1_state) :
  pass1_END st u opcode operand errors = Ok st' ->
  locctr (p1_asm st') = locctr (p1_asm st).
Proof.
  unfold pass1_END.
  destruct (isValidSymbol operand errors) as [[valid e]|]; cbn [bind];
    [|discriminate].
  intros H. apply Ok_inj in H. now subst st'.
Qed.

(** A START line sets the location counter to the value of its operand
    in base 16, or to 0, whatever the counter was. *)
Lemma pass1_START_locctr (st : pass1_state) (u label operand : string)
    (st' : pass1_state) :
  pass1_START st u label "START" operand = Ok st' ->
  locctr (p1_asm st')
  = match (if is_empty operand then None else Util.stringToInt operand 16) with
    | Some v => v
    | None => 0
    end.
Proof.
  unfold pass1_START.
  destruct (startFound st);
    (destruct (if (0 <? String.length label)%nat then _ else _) as [e1|];
     cbn [bind]; [|discriminate]);
    destruct (if is_empty operand then None else Util.stringToInt operand 16);
    intros H; apply Ok_inj in H; subst st'; reflexivity.
Qed.

(** ** The address field *)

Lemma hex_digit_char (d : Z) :
  0 <= d < 16 ->
  let c := Util.upper_char (digit_char false d) in
  Util.isAlphaNumeric c = true
  /\ Util.isHexDigit c = true
  /\ (if Util.isDigit c then char_val c - char_val "0"
      else char_val c - char_val "A" + 10) = d.
Proof.
  intros H.
  assert (E : d = 0 \/ d = 1 \/ d = 2 \/ d = 3 \/ d = 4 \/ d = 5 \/ d = 6
              \/ d = 7 \/ d = 8 \/ d = 9 \/ d = 10 \/ d = 11 \/ d = 12
              \/ d = 13 \/ d = 14 \/ d = 15) by lia.
  repeat (destruct E as [->|E]; [vm_compute; auto|]).
  subst d. vm_compute. auto.
Qed.

Lemma stringToInt_loop_hex_step (d : Z) (rest : string) (sum : Z) :
  0 <= d < 16 ->
  Util.stringToInt_loop 16 (String (digit_char false d) rest) sum
  = Util.stringToInt_loop 16 rest
      (wrap_int (sum + wrap_int (d * pow_int 16 (String.length rest)))).
Proof.
  intros H. destruct (hex_digit_char d H) as (H1 & H2 & H3).
  cbn [Util.stringToInt_loop]. cbv zeta in H1, H2, H3.
  rewrite H1, H2, H3. reflexivity.
Qed.

(** The four hex digits of a 16-bit value. *)
Lemma print_hex_16bit (v : Z) :
  0 <= v < 65536 ->
  pad_right_adjust addressPadding "0" (print_hex false v)
  = String (digit_char false (v / 16 / 16 / 16 mod 16))
      (String (digit_char false (v / 16 / 16 mod 16))
         (String (digit_char false (v / 16 mod 16))
            (String (digit_char false (v mod 16)) EmptyString))).
Proof.
  intros H. unfold print_hex, to_unsigned.
  rewrite (Z.mod_small v) by lia.
  cbn [digits_loop].
  assert (E4 : v / 16 / 16 / 16 / 16 = 0) by (Z.div_mod_to_equations; lia).
  destruct (Z.eqb_spec (v / 16) 0) as [E1|_].
  { rewrite E1. reflexivity. }
  destruct (Z.eqb_spec (v / 16 / 16) 0) as [E2|_].
  { rewrite E2. reflexivity. }
  destruct (Z.eqb_spec (v / 16 / 16 / 16) 0) as [E3|_].
  { rewrite E3. reflexivity. }
  rewrite E4. reflexivity.
Qed.

(** The address field of a 16-bit value has 4 characters, and reads back
    as the value. *)
Lemma address_field_roundtrip (v : Z) :
  0 <= v < 65536 ->
  let field := pad_right_adjust addressPadding "0" (print_hex false v) in
  String.length field = 4%nat /\ Util.stringToInt field 16 = Some v.
Proof.
  intros H field. unfold field. rewrite (print_hex_16bit v H).
  split; [reflexivity|].
  unfold Util.stringToInt. cbn [is_empty].
  assert (H0 : 0 <= v mod 16 < 16) by (apply Z.mod_pos_bound; lia).
  assert (H1 : 0 <= v / 16 mod 16 < 16) by (apply Z.mod_pos_bound; lia).
  assert (H2 : 0 <= v / 16 / 16 mod 16 < 16) by (apply Z.mod_pos_bound; lia).
  assert (H3 : 0 <= v / 16 / 16 / 16 mod 16 < 16) by (apply Z.mod_pos_bound; lia).
  rewrite !stringToInt_loop_hex_step by assumption.
  cbn [String.length Util.stringToInt_loop].
  change (pow_int 16 3) with 4096. change (pow_int 16 2) with 256.
  change (pow_int 16 1) with 16. change (pow_int 16 0) with 1.
  assert (Hv : v = v / 16 / 16 / 16 mod 16 * 4096 + v / 16 / 16 mod 16 * 256
                   + v / 16 mod 16 * 16 + v mod 16 * 1)
    by (Z.div_mod_to_equations; lia).
  set (d3 := v / 16 / 16 / 16 mod 16) in *.
  set (d2 := v / 16 / 16 mod 16) in *.
  set (d1 := v / 16 mod 16) in *.
  set (d0 := v mod 16) in *.
  rewrite (wrap_int_small (d3 * 4096)) by (unfold INT_MIN, INT_MAX; lia).
  rewrite (wrap_int_small (d2 * 256)) by (unfold INT_MIN, INT_MAX; lia).
  rewrite (wrap_int_small (d1 * 16)) by (unfold INT_MIN, INT_MAX; lia).
  rewrite (wrap_int_small (d0 * 1)) by (unfold INT_MIN, INT_MAX; lia).
  rewrite (wrap_int_small (0 + d3 * 4096)) by (unfold INT_MIN, INT_MAX; lia).
  rewrite (wrap_int_small (0 + d3 * 4096 + d2 * 256))
    by (unfold INT_MIN, INT_MAX; lia).
  rewrite (wrap_int_small (0 + d3 * 4096 + d2 * 256 + d1 * 16))
    by (unfold INT_MIN, INT_MAX; lia).
  rewrite (wrap_int_small (0 + d3 * 4096 + d2 * 256 + d1 * 16 + d0 * 1))
    by (unfold INT_MIN, INT_MAX; lia).
  f_equal. lia.
Qed.

Lemma fill_string_length (n : nat) (c : ascii) :
  String.length (fill_string n c) = n.
Proof. induction n as [|n IH]; cbn; [reflexivity | now rewrite IH]. Qed.

Lemma pad_right_adjust_length (w : nat) (c : ascii) (s : string) :
  (String.length s <= w)%nat ->
  String.length (pad_right_adjust w c s) = w.
Proof.
  intros H. unfold pad_right_adjust.
  rewrite length_append, fill_string_length. lia.
Qed.

Lemma char_at_append_skip (p s : string) (k : nat) :
  char_at (p ++ s) (String.length p + k) = char_at s k.
Proof.
  induction p as [|c p IH]; [reflexivity|].
  rewrite append_cons. cbn [String.length Nat.add].
  unfold char_at in *. cbn [String.get]. exact IH.
Qed.

(** A string of at least two characters is a prefix and its last two
    characters. *)
Lemma string_split_last2 (s : string) :
  (2 <= String.length s)%nat ->
  exists (p : string) (x y : ascii),
    s = p ++ String x (String y EmptyString)
    /\ String.length s = (String.length p + 2)%nat.
Proof.
  induction s as [|c s IH]; cbn [String.length]; [lia|].
  intros H. destruct s as [|c1 s]; [cbn in H; lia|].
  destruct s as [|c2 s].
  - exists EmptyString, c, c1. split; reflexivity.
  - destruct IH as (p & x & y & E & L); [cbn [String.length]; lia|].
    exists (String c p), x, y. rewrite append_cons, <- E.
    split; [reflexivity|]. cbn [String.length] in L |- *. lia.
Qed.

(** [isIndexedOperand] holds of the operands that end in [,X] after at
    least one character. *)
Lemma isIndexedOperand_iff (operand : string) :
  isIndexedOperand operand = true
  <-> exists p, p <> EmptyString /\ operand = p ++ ",X".
Proof.
  unfold isIndexedOperand. split.
  - destruct (String.length operand) as [|end_] eqn:L; [discriminate|].
    rewrite !andb_true_iff, Nat.leb_le.
    intros [[Hlen Hx] Hc].
    destruct (string_split_last2 operand) as (p & x & y & E & L2); [lia|].
    assert (Hend : end_ = (String.length p + 1)%nat) by lia.
    rewrite Hend, E in Hx. rewrite char_at_append_skip in Hx.
    assert (Hprev : (end_ - 1)%nat = (String.length p + 0)%nat) by lia.
    rewrite Hprev, E in Hc. rewrite char_at_append_skip in Hc.
    apply Ascii.eqb_eq in Hx, Hc. cbn in Hx, Hc. subst x y.
    exists p. split; [|exact E].
    intros ->. cbn in L2. lia.
  - intros (p & Hp & ->). rewrite length_append.
    replace (String.length p + String.length ",X")%nat
      with (S (String.length p + 1)) by (cbn; lia).
    assert (Hlen : (1 <= String.length p)%nat)
      by (destruct p; [congruence | cbn; lia]).
    rewrite char_at_append_skip.
    replace (String.length p + 1 - 1)%nat with (String.length p + 0)%nat by lia.
    rewrite char_at_append_skip.
    destruct (Nat.leb_spec 2 (String.length p + 1)) as [_|]; [reflexivity|lia].
Qed.

Lemma lor_bit15 (v : Z) :
  0 <= v < 32768 ->
  Z.lor v (Z.shiftl 1 15) = v + 32768
  /\ Z.testbit v 15 = false
  /\ Z.testbit (v + 32768) 15 = true.
Proof.
  intros H. change (Z.shiftl 1 15) with (2 ^ 15).
  assert (Hbit : Z.testbit v 15 = false).
  { destruct (Z.eq_dec v 0) as [->|Hne]; [reflexivity|].
    apply Z.bits_above_log2; [lia|].
    apply Z.log2_lt_pow2; [lia|]. change (2 ^ 15) with 32768. lia. }
  assert (Hland : Z.land v (2 ^ 15) = 0).
  { apply Z.bits_inj'. intros n Hn.
    rewrite Z.land_spec, Z.bits_0, Z.pow2_bits_eqb by lia.
    destruct (Z.eqb_spec 15 n) as [<-|_];
      [now rewrite Hbit | apply andb_false_r]. }
  assert (Hlor : Z.lor v (2 ^ 15) = v + 32768).
  { rewrite <- Z.add_nocarry_lor by exact Hland. reflexivity. }
  split; [exact Hlor|]. split; [exact Hbit|].
  rewrite <- Hlor, Z.lor_spec, Z.pow2_bits_eqb by lia.
  apply orb_true_r.
Qed.

Lemma hasHexFormat_suffix (p s : string) :
  Util.hasHexFormat (p ++ s) = true -> Util.hasHexFormat s = true.
Proof.
  induction p as [|c p IH]; [trivial|].
  rewrite append_cons. cbn [Util.hasHexFormat].
  destruct (Util.isAlphaNumeric c); [|discriminate].
  destruct (_ && _); [discriminate|]. exact IH.
Qed.

Lemma hex_literal_not_indexed (h : string) :
  isHexSymbol h = true -> isIndexedOperand h = false.
Proof.
  unfold isHexSymbol. rewrite !andb_true_iff. intros [_ Hfmt].
  destruct (isIndexedOperand h) eqn:E; [|reflexivity].
  apply isIndexedOperand_iff in E. destruct E as (p & _ & ->).
  apply hasHexFormat_suffix in Hfmt. discriminate.
Qed.

(** The object code of an operand found in the symbol table. *)
Lemma createObjectCode_symbol (a : Assembler) (opcode operand : string) (v : Z) :
  String.eqb opcode "RESB" || String.eqb opcode "RESW"
  || String.eqb opcode "BYTE" || String.eqb opcode "WORD" = false ->
  isHexSymbol (pure_operand operand) = false ->
  symbolTable a !! pure_operand operand = Some v ->
  0 <= v < 32768 ->
  createObjectCode a opcode operand
  = pad_right_adjust opcodePadding "0" opcode
    ++ pad_right_adjust addressPadding "0"
         (print_hex false (if isIndexedOperand operand then v + 32768 else v)).
Proof.
  intros Hop Hhex Hsym Hv.
  apply orb_false_iff in Hop. destruct Hop as [Hop Hword].
  apply orb_false_iff in Hop. destruct Hop as [Hop Hbyte].
  unfold createObjectCode. fold (pure_operand operand).
  rewrite Hop, Hbyte, Hword, Hhex, Hsym.
  rewrite (wrap_int_small v) by (unfold INT_MIN, INT_MAX; lia).
  destruct (lor_bit15 v Hv) as (Hlor & _).
  unfold insert_address, setMSB. rewrite Hlor.
  rewrite (wrap_int_small (v + 32768)) by (unfold INT_MIN, INT_MAX; lia).
  destruct (isIndexedOperand operand).
  - destruct (Z.eqb_spec (v + 32768) (-1)); [lia | reflexivity].
  - destruct (Z.eqb_spec v (-1)); [lia | reflexivity].
Qed.

(** A hex literal does not end in [,X]. *)
Lemma hex_literal_no_comma_X (h : string) :
  isHexSymbol h = true -> ~ ends_in_comma_X h.
Proof.
  unfold isHexSymbol. rewrite !andb_true_iff. intros [_ Hfmt] [p ->].
  apply hasHexFormat_suffix in Hfmt. discriminate.
Qed.

(** The object code of a hex-literal operand. *)
Lemma createObjectCode_literal (a : Assembler) (opcode h : string) (v : Z) :
  String.eqb opcode "RESB" || String.eqb opcode "RESW"
  || String.eqb opcode "BYTE" || String.eqb opcode "WORD" = false ->
  isHexSymbol h = true ->
  Util.stringToInt h 16 = Some v ->
  0 <= v ->
  createObjectCode a opcode h
  = pad_right_adjust opcodePadding "0" opcode
    ++ pad_right_adjust addressPadding "0" (print_hex false v).
Proof.
  intros Hop Hhex Hval Hv.
  apply orb_false_iff in Hop. destruct Hop as [Hop Hword].
  apply orb_false_iff in Hop. destruct Hop as [Hop Hbyte].
  assert (Hidx : isIndexedOperand h = false)
    by now apply hex_literal_not_indexed.
  unfold createObjectCode. rewrite Hop, Hbyte, Hword, Hidx, Hhex, Hval.
  unfold insert_address.
  destruct (Z.eqb_spec v (-1)); [lia | reflexivity].
Qed.

Lemma bit15_of_16 (v : Z) :
  0 <= v < 65536 -> (Z.testbit v 15 = true <-> 32768 <= v).
Proof.
  intros H. rewrite Z.testbit_true by lia. change (2 ^ 15) with 32768.
  split; intros H1.
  - destruct (Z.lt_ge_cases v 32768) as [Hlt|Hge]; [|exact Hge].
    rewrite Z.div_small in H1 by lia. discriminate.
  - replace (v / 32768) with 1; [reflexivity|].
    apply Z.div_unique with (r := v - 32768); lia.
Qed.

(** C1, amended: for an operand resolved by symbol-table lookup, with a
    symbol address below 0x8000 (15 bits), the bit 0x8000 of the 4-digit
    address field is set if and only if the operand ends in [,X] (after
    at least one character), and the other 15 bits are the address of the
    symbol.  A hex-literal operand does not end in [,X]; when its value
    is below 0x10000 the address field is that value, so that the bit is
    set if and only if the value is 0x8000 or more. *)
Theorem C1_index_bit_on_symbol_lookup (a : Assembler) (opcode operand : string)
    (v : Z) :
  String.eqb opcode "RESB" || String.eqb opcode "RESW"
  || String.eqb opcode "BYTE" || String.eqb opcode "WORD" = false ->
  (String.length opcode <= 2)%nat ->
  let objectCode := createObjectCode a opcode operand in
  (isHexSymbol (pure_operand operand) = false ->
   symbolTable a !! pure_operand operand = Some v ->
   0 <= v < 32768 ->
   (index_bit_set objectCode = true
    <-> exists p, p <> EmptyString /\ operand = p ++ ",X")
   /\ address_of_objectCode objectCode
      = Some (if isIndexedOperand operand then v + 32768 else v))
  /\ (isHexSymbol operand = true ->
      Util.stringToInt operand 16 = Some v ->
      0 <= v < 65536 ->
      ~ ends_in_comma_X operand
      /\ address_of_objectCode objectCode = Some v
      /\ (index_bit_set objectCode = true <-> 32768 <= v)).
Proof.
  intros Hop Hlen objectCode.
  assert (Hfield : forall address, 0 <= address < 65536 ->
            objectCode
            = pad_right_adjust opcodePadding "0" opcode
              ++ pad_right_adjust addressPadding "0" (print_hex false address) ->
            address_of_objectCode objectCode = Some address).
  { intros address Hrange Hcode.
    destruct (address_field_roundtrip address Hrange) as [Hfield Hread].
    cbv zeta in Hfield, Hread.
    unfold address_of_objectCode. rewrite Hcode.
    rewrite (substring_after_prefix _ _ 2 4)
      by (now apply pad_right_adjust_length).
    rewrite <- Hfield at 1. rewrite substring_all. exact Hread. }
  split.
  - intros Hhex Hsym Hv.
    set (address := if isIndexedOperand operand then v + 32768 else v).
    assert (Hrange : 0 <= address < 65536)
      by (unfold address; destruct (isIndexedOperand operand); lia).
    assert (Haddr : address_of_objectCode objectCode = Some address).
    { apply Hfield; [exact Hrange|].
      apply createObjectCode_symbol; assumption. }
    split; [|exact Haddr].
    unfold index_bit_set. rewrite Haddr, <- isIndexedOperand_iff.
    destruct (lor_bit15 v Hv) as (_ & Hclear & Hset).
    unfold address. destruct (isIndexedOperand operand).
    + now rewrite Hset.
    + now rewrite Hclear.
  - intros Hhex Hval Hv.
    assert (Haddr : address_of_objectCode objectCode = Some v).
    { apply Hfield; [exact Hv|].
      apply createObjectCode_literal; [assumption..|lia]. }
    split; [now apply hex_literal_no_comma_X|]. split; [exact Haddr|].
    unfold index_bit_set. rewrite Haddr. now apply bit15_of_16.
Qed.

Lemma C1_witness :
  let a := set_symbolTable (<["BUFFER" := 54]> ∅) (Assembler_new 0) in
  (index_bit_set (createObjectCode a "0" "BUFFER,X") = true
   <-> exists p, p <> EmptyString /\ "BUFFER,X" = p ++ ",X")
  /\ address_of_objectCode (createObjectCode a "0" "08000") = Some 32768.
Proof.
  intros a. split.
  - refine (proj1 (proj1 (C1_index_bit_on_symbol_lookup a "0" "BUFFER,X" 54
                            _ _) _ _ _)).
    + reflexivity.
    + vm_compute. lia.
    + reflexivity.
    + vm_compute. reflexivity.
    + lia.
  - refine (proj1 (proj2 (proj2 (C1_index_bit_on_symbol_lookup a "0" "08000"
                                   32768 _ _) _ _ _))).
    + reflexivity.
    + vm_compute. lia.
    + reflexivity.
    + vm_compute. reflexivity.
    + lia.
Defined.

(** * Further properties of the code *)

(** ** The tokenizer *)

Lemma string_forallb_append (p : ascii -> bool) (s t : string) :
  string_forallb p (s ++ t) = string_forallb p s && string_forallb p t.
Proof.
  induction s as [|c s IH]; [reflexivity|].
  rewrite append_cons. cbn [string_forallb]. now rewrite IH, andb_assoc.
Qed.

Lemma push_back_not_empty (s : string) (c : ascii) :
  is_empty (push_back s c) = false.
Proof. unfold push_back. rewrite is_empty_append. apply andb_false_r. Qed.

Lemma parseLine_loop_tokens (delims line token t : string) :
  no_delim delims token = true ->
  In t (Util.parseLine_loop delims line token) ->
  is_empty t = false /\ no_delim delims t = true.
Proof.
  revert token. induction line as [|c rest IH]; intros token Htok; [intros []|].
  cbn [Util.parseLine_loop].
  set (token' := if Util.findChar delims c then token else push_back token c).
  assert (Htok' : no_delim delims token' = true).
  { unfold token'. destruct (Util.findChar delims c) eqn:Hc; [exact Htok|].
    unfold no_delim, push_back in *. rewrite string_forallb_append, Htok.
    cbn [string_forallb]. now rewrite Hc. }
  destruct (negb (is_empty token') && _) eqn:Hpush.
  - intros [<-|Hin].
    + apply andb_true_iff in Hpush. destruct Hpush as [Hne _].
      now apply negb_true_iff in Hne.
    + now apply (IH EmptyString).
  - now apply IH.
Qed.

(** X1: every token [parseLine] returns is non-empty and holds no
    delimiter. *)
Theorem X1_parseLine_tokens_clean (line delims t : string) :
  In t (Util.parseLine line delims) ->
  is_empty t = false /\ no_delim delims t = true.
Proof. apply parseLine_loop_tokens. reflexivity. Qed.

Lemma X1_witness :
  is_empty "START" = false /\ no_delim delims "START" = true.
Proof.
  apply (X1_parseLine_tokens_clean "COPY  START 1000" delims "START").
  vm_compute. tauto.
Defined.

Lemma parseLine_loop_concat (delims line token : string) :
  string_concat (Util.parseLine_loop delims line token)
  = if is_empty line then EmptyString else token ++ strip_chars delims line.
Proof.
  revert token. induction line as [|c rest IH]; intros token; [reflexivity|].
  cbn [Util.parseLine_loop is_empty strip_chars].
  set (token' := if Util.findChar delims c then token else push_back token c).
  assert (Hstrip : token ++ (if Util.findChar delims c
                             then strip_chars delims rest
                             else String c (strip_chars delims rest))
                   = token' ++ strip_chars delims rest).
  { unfold token', push_back. destruct (Util.findChar delims c); [reflexivity|].
    now rewrite append_assoc. }
  rewrite Hstrip.
  destruct (negb (is_empty token') && _) eqn:Hpush.
  - cbn [string_concat]. rewrite IH.
    destruct rest; [reflexivity|]. reflexivity.
  - rewrite IH. destruct rest as [|c1 rest]; [|reflexivity].
    cbn [is_empty strip_chars]. rewrite append_empty_r.
    cbn [is_empty negb andb orb] in Hpush. rewrite andb_true_r in Hpush.
    apply negb_false_iff in Hpush. symmetry. now apply is_empty_true.
Qed.

(** X2: the tokens of a line, put end to end, are the line without its
    delimiters: the tokenizer loses or invents no character. *)
Theorem X2_parseLine_concat (line delims : string) :
  string_concat (Util.parseLine line delims) = strip_chars delims line.
Proof.
  unfold Util.parseLine. rewrite parseLine_loop_concat.
  destruct line; reflexivity.
Qed.

Lemma delim_cases (c : ascii) :
  Util.findChar delims c = true -> c = TAB \/ c = " "%char.
Proof.
  unfold delims. cbn [Util.findChar].
  destruct (Ascii.eqb_spec TAB c) as [<-|_]; [now left|].
  destruct (Ascii.eqb_spec " " c) as [<-|_]; [now right | discriminate].
Qed.

Lemma toUpperCase_only_delims (line : string) :
  only_delims delims line = true -> Util.toUpperCase line = line.
Proof.
  induction line as [|c rest IH]; [reflexivity|].
  unfold only_delims in *. cbn [string_forallb Util.toUpperCase].
  intros H. apply andb_true_iff in H. destruct H as [Hc Hrest].
  rewrite (IH Hrest). f_equal.
  destruct (delim_cases c Hc) as [->| ->]; reflexivity.
Qed.

Lemma strip_only_delims (ds line : string) :
  only_delims ds line = true -> strip_chars ds line = EmptyString.
Proof.
  induction line as [|c rest IH]; [reflexivity|].
  unfold only_delims in *. cbn [string_forallb strip_chars].
  intros H. apply andb_true_iff in H. destruct H as [Hc Hrest].
  rewrite Hc. now apply IH.
Qed.

Lemma parseLine_only_delims (ds line : string) :
  only_delims ds line = true -> Util.parseLine line ds = [].
Proof.
  intros H.
  pose proof (Hcat := parseLine_loop_concat ds line EmptyString).
  fold (Util.parseLine line ds) in Hcat.
  destruct (Util.parseLine line ds) as [|t rest] eqn:E; [reflexivity|].
  exfalso.
  assert (Ht : is_empty t = false).
  { apply (parseLine_loop_tokens ds line EmptyString t); [reflexivity|].
    fold (Util.parseLine line ds). rewrite E. now left. }
  cbn [string_concat] in Hcat.
  rewrite (strip_only_delims ds line H) in Hcat.
  destruct (is_empty line), t; cbn in *; discriminate.
Qed.

(** X3: an empty line, a line that starts with a dot, and a line made of
    blanks and tabs only are skipped by pass 1: the state is unchanged and
    no block is written. *)
Theorem X3_blank_and_comment_lines_skipped (st : pass1_state) (srcLine : string) :
  is_empty srcLine
  || Ascii.eqb (char_at srcLine 0) "."
  || only_delims delims srcLine = true ->
  pass1_line st srcLine = Ok (st, false).
Proof.
  intros H. unfold pass1_line.
  destruct (is_empty srcLine) eqn:He; [reflexivity|].
  destruct (Ascii.eqb (char_at srcLine 0) "."); [reflexivity|].
  cbn [orb] in H. unfold getColumns.
  rewrite (toUpperCase_only_delims srcLine H), (parseLine_only_delims delims srcLine H).
  destruct srcLine as [|c0 rest]; [discriminate|].
  unfold only_delims in H. cbn [string_forallb] in H.
  apply andb_true_iff in H. destruct H as [Hc _]. rewrite Hc. reflexivity.
Qed.

Lemma X3_witness :
  pass1_line (mkPass1 (Assembler_new 0) [] false false) (String TAB "   ")
  = Ok (mkPass1 (Assembler_new 0) [] false false, false).
Proof.
  apply (X3_blank_and_comment_lines_skipped _ (String TAB "   ")).
  vm_compute. reflexivity.
Defined.

(** ** Case folding and the columns of a line *)

Lemma upper_char_facts (c : ascii) :
  Util.upper_char (Util.upper_char c) = Util.upper_char c
  /\ Util.isLowerCase (Util.upper_char c) = false
  /\ Util.findChar delims (Util.upper_char c) = Util.findChar delims c.
Proof.
  destruct c as [b0 b1 b2 b3 b4 b5 b6 b7].
  destruct b0, b1, b2, b3, b4, b5, b6, b7; vm_compute; auto.
Qed.

Lemma toUpperCase_no_lowercase (s : string) :
  no_lowercase (Util.toUpperCase s) = true.
Proof.
  induction s as [|c s IH]; [reflexivity|].
  unfold no_lowercase in *. cbn [Util.toUpperCase string_forallb].
  rewrite IH. now destruct (upper_char_facts c) as (_ & -> & _).
Qed.

(** X4: [toUpperCase] is idempotent, keeps the length, and leaves no
    lower-case letter. *)
Theorem X4_toUpperCase_idempotent (s : string) :
  Util.toUpperCase (Util.toUpperCase s) = Util.toUpperCase s
  /\ String.length (Util.toUpperCase s) = String.length s
  /\ no_lowercase (Util.toUpperCase s) = true.
Proof.
  split; [|split; [apply toUpperCase_length|]].
  - induction s as [|c s IH]; [reflexivity|].
    cbn [Util.toUpperCase]. rewrite IH.
    now destruct (upper_char_facts c) as (-> & _).
  - apply toUpperCase_no_lowercase.
Qed.

Lemma parseLine_loop_forall (p : ascii -> bool) (ds line token t : string) :
  string_forallb p line = true ->
  string_forallb p token = true ->
  In t (Util.parseLine_loop ds line token) ->
  string_forallb p t = true.
Proof.
  revert token. induction line as [|c rest IH]; intros token Hline Htok; [intros []|].
  cbn [Util.parseLine_loop string_forallb] in *.
  apply andb_true_iff in Hline. destruct Hline as [Hc Hrest].
  set (token' := if Util.findChar ds c then token else push_back token c).
  assert (Htok' : string_forallb p token' = true).
  { unfold token', push_back. destruct (Util.findChar ds c); [exact Htok|].
    rewrite string_forallb_append, Htok. cbn [string_forallb]. now rewrite Hc. }
  destruct (negb (is_empty token') && _).
  - intros [<-|Hin]; [exact Htok'|]. now apply (IH EmptyString).
  - now apply IH.
Qed.

Lemma parseLine_loop_not_nil (ds line token : string) :
  is_empty line = false ->
  is_empty token = false \/ Util.findChar ds (char_at line 0) = false ->
  Util.parseLine_loop ds line token <> [].
Proof.
  revert token. induction line as [|c rest IH]; intros token Hline Hstart;
    [discriminate|].
  cbn [Util.parseLine_loop].
  set (token' := if Util.findChar ds c then token else push_back token c).
  assert (Htok' : is_empty token' = false).
  { unfold token'. destruct Hstart as [Ht|Hc].
    - destruct (Util.findChar ds c); [exact Ht | apply push_back_not_empty].
    - change (char_at (String c rest) 0) with c in Hc. rewrite Hc.
      apply push_back_not_empty. }
  rewrite Htok'. cbn [negb andb].
  destruct rest as [|c1 rest].
  - cbn [is_empty negb andb orb]. rewrite ?orb_true_r. discriminate.
  - destruct (_ || _); [discriminate|]. apply IH; [reflexivity | now left].
Qed.

Lemma in_firstn {A : Type} (n : nat) (l : list A) (x : A) :
  In x (firstn n l) -> In x l.
Proof.
  revert l. induction n as [|n IH]; intros l; [intros []|].
  destruct l as [|y l]; [intros []|].
  cbn [firstn]. intros [->|H]; [now left | right; now apply IH].
Qed.

Lemma column_of_tokens (tokens : list string) (i : nat) :
  DynamicArray.at_ (DynamicArray.pad_forceSize4 tokens) i = EmptyString
  \/ In (DynamicArray.at_ (DynamicArray.pad_forceSize4 tokens) i) tokens.
Proof.
  unfold DynamicArray.at_, DynamicArray.pad_forceSize4.
  destruct (nth_in_or_default i
              (firstn 4 (tokens ++ [EmptyString; EmptyString; EmptyString; EmptyString]))
              EmptyString) as [Hin|Hd]; [|now left].
  apply in_firstn in Hin. apply in_app_or in Hin.
  destruct Hin as [Hin|Hin]; [now right|].
  left. cbn in Hin. intuition congruence.
Qed.

(** X5: the columns [getColumns] gives hold no delimiter and no lower-case
    letter, and the label is empty exactly when the line starts with a
    delimiter. *)
Theorem X5_getColumns_columns (srcLine u label opcode operand : string) :
  getColumns srcLine delims = Ok (u, label, opcode, operand) ->
  u = Util.toUpperCase srcLine
  /\ Forall (fun col => no_delim delims col = true /\ no_lowercase col = true)
       [label; opcode; operand]
  /\ is_empty label = Util.findChar delims (char_at srcLine 0).
Proof.
  unfold getColumns.
  set (up := Util.toUpperCase srcLine).
  set (tokens := Util.parseLine up delims).
  assert (Hclean : forall t, In t tokens ->
            is_empty t = false /\ no_delim delims t = true /\ no_lowercase t = true).
  { intros t Hin.
    destruct (parseLine_loop_tokens delims up EmptyString t eq_refl Hin) as [H1 H2].
    repeat split; try assumption.
    apply (parseLine_loop_forall _ delims up EmptyString t); [|reflexivity|exact Hin].
    apply toUpperCase_no_lowercase. }
  assert (Hcol : forall i,
            let col := DynamicArray.at_ (DynamicArray.pad_forceSize4 tokens) i in
            no_delim delims col = true /\ no_lowercase col = true).
  { intros i col. destruct (column_of_tokens tokens i) as [E|Hin].
    - unfold col. rewrite E. split; reflexivity.
    - apply Hclean in Hin. tauto. }
  destruct up as [|c0 rest] eqn:Eup; [discriminate|].
  assert (Hfirst : Util.findChar delims c0
                   = Util.findChar delims (char_at srcLine 0)).
  { destruct srcLine as [|s0 srest]; [discriminate|].
    unfold up in Eup. cbn [Util.toUpperCase] in Eup. injection Eup as <- _.
    now destruct (upper_char_facts s0) as (_ & _ & ->). }
  rewrite <- Hfirst.
  destruct (Util.findChar delims c0) eqn:Hc0; intros H; apply Ok_inj in H;
    injection H as <- <- <- <-; (split; [reflexivity|]).
  - split; [|reflexivity].
    repeat constructor; first [reflexivity | apply (Hcol 0%nat) | apply (Hcol 1%nat)].
  - split.
    + repeat constructor;
        first [apply (Hcol 0%nat) | apply (Hcol 1%nat) | apply (Hcol 2%nat)].
    + assert (Hne : tokens <> []).
      { unfold tokens, Util.parseLine. apply parseLine_loop_not_nil;
          [reflexivity | right; exact Hc0]. }
      destruct tokens as [|t ts] eqn:Et; [congruence|].
      change (DynamicArray.at_ (DynamicArray.pad_forceSize4 (t :: ts)) 0) with t.
      apply (Hclean t). now left.
Qed.

Lemma X5_witness :
  is_empty EmptyString = Util.findChar delims (char_at "  lda buffer,x" 0).
Proof.
  refine (proj2 (proj2 (X5_getColumns_columns "  lda buffer,x"
            "  LDA BUFFER,X" EmptyString "LDA" "BUFFER,X" _))).
  vm_compute. reflexivity.
Defined.

(** ** String to integer *)

Lemma digit_value_cases (c : ascii) :
  Util.isAlphaNumeric (Util.upper_char c) = true ->
  0 <= digit_value c <= 35
  /\ Util.isDigit (Util.upper_char c) = (digit_value c <? 10)
  /\ Util.isHexDigit (Util.upper_char c) = (digit_value c <? 16).
Proof.
  assert (H : (if Util.isAlphaNumeric (Util.upper_char c)
               then (0 <=? digit_value c) && (digit_value c <=? 35)
                    && Bool.eqb (Util.isDigit (Util.upper_char c))
                         (digit_value c <? 10)
                    && Bool.eqb (Util.isHexDigit (Util.upper_char c))
                         (digit_value c <? 16)
               else true) = true).
  { destruct c as [b0 b1 b2 b3 b4 b5 b6 b7].
    destruct b0, b1, b2, b3, b4, b5, b6, b7; vm_compute; reflexivity. }
  intros Ha. rewrite Ha in H.
  rewrite !andb_true_iff, !Bool.eqb_true_iff, Z.leb_le, Z.leb_le in H.
  tauto.
Qed.

Lemma horner_acc (base acc : Z) (s : string) :
  horner base acc s
  = acc * base ^ Z.of_nat (String.length s) + horner base 0 s.
Proof.
  revert acc. induction s as [|c rest IH]; intros acc.
  - cbn. lia.
  - cbn [horner String.length]. rewrite (IH (acc * base + digit_value c)).
    rewrite (IH (0 * base + digit_value c)).
    rewrite Nat2Z.inj_succ, Z.pow_succ_r by lia. ring.
Qed.

Lemma horner_bound (base : Z) (s : string) :
  2 <= base -> valid_digits base s = true ->
  0 <= horner base 0 s < base ^ Z.of_nat (String.length s).
Proof.
  intros Hb. induction s as [|c rest IH]; [cbn; lia|].
  unfold valid_digits in *. cbn [string_forallb horner String.length].
  rewrite !andb_true_iff, Z.ltb_lt. intros [[Ha Hd] Hrest].
  destruct (digit_value_cases c Ha) as (Hv & _).
  specialize (IH Hrest). rewrite horner_acc.
  rewrite Nat2Z.inj_succ, Z.pow_succ_r by lia.
  set (p := base ^ Z.of_nat (String.length rest)) in *. nia.
Qed.

Lemma stringToInt_loop_value (base : Z) (s : string) (sum : Z) :
  2 <= base ->
  valid_digits base s = true ->
  0 <= sum ->
  sum + base ^ Z.of_nat (String.length s) <= 2147483648 ->
  Util.stringToInt_loop base s sum = Some (sum + horner base 0 s).
Proof.
  intros Hb. revert sum. induction s as [|c rest IH]; intros sum Hvalid Hsum Hfit.
  - cbn. f_equal. lia.
  - pose proof (horner_bound base (String c rest) Hb Hvalid) as Hall.
    unfold valid_digits in Hvalid. cbn [string_forallb] in Hvalid.
    apply andb_true_iff in Hvalid. destruct Hvalid as [Hc Hrest].
    apply andb_true_iff in Hc. destruct Hc as [Ha Hd]. apply Z.ltb_lt in Hd.
    destruct (digit_value_cases c Ha) as (Hv & Hdig & Hhex).
    pose proof (horner_bound base rest Hb Hrest) as Hr.
    cbn [String.length] in Hfit. rewrite Nat2Z.inj_succ, Z.pow_succ_r in Hfit by lia.
    cbn [Util.stringToInt_loop horner].
    change (if Util.isDigit (Util.upper_char c)
            then char_val (Util.upper_char c) - char_val "0"
            else char_val (Util.upper_char c) - char_val "A" + 10)
      with (digit_value c).
    rewrite Ha, Hdig, Hhex.
    set (p := base ^ Z.of_nat (String.length rest)) in *.
    assert (Hp : 0 < p) by (apply Z.pow_pos_nonneg; lia).
    assert (E1 : (base <=? 10) && negb (digit_value c <? 10) = false).
    { destruct (Z.leb_spec base 10); [|reflexivity].
      destruct (Z.ltb_spec (digit_value c) 10); [reflexivity | lia]. }
    assert (E2 : (base =? 16) && negb (digit_value c <? 16) = false).
    { destruct (Z.eqb_spec base 16); [|reflexivity].
      destruct (Z.ltb_spec (digit_value c) 16); [reflexivity | lia]. }
    rewrite E1, E2.
    assert (Hpow : pow_int base (String.length rest) = p).
    { unfold pow_int. fold p.
      destruct (Z.leb_spec p INT_MAX) as [_|Hbig]; [reflexivity|].
      unfold INT_MAX in Hbig. nia. }
    rewrite Hpow.
    rewrite (wrap_int_small (digit_value c * p))
      by (unfold INT_MIN, INT_MAX; nia).
    rewrite (wrap_int_small (sum + digit_value c * p))
      by (unfold INT_MIN, INT_MAX; nia).
    rewrite IH; [|exact Hrest|nia|fold p; nia].
    f_equal. rewrite (horner_acc base (0 * base + digit_value c) rest).
    fold p. ring.
Qed.

(** X6: on a non-empty string of digits below the base, short enough for
    the result to fit an [int], [stringToInt] succeeds and gives the number
    the string denotes in positional notation. *)
Theorem X6_stringToInt_positional_value (base : Z) (s : string) :
  2 <= base ->
  is_empty s = false ->
  valid_digits base s = true ->
  base ^ Z.of_nat (String.length s) <= 2147483648 ->
  Util.stringToInt s base = Some (horner base 0 s)
  /\ 0 <= horner base 0 s < base ^ Z.of_nat (String.length s).
Proof.
  intros Hb Hne Hvalid Hfit. split; [|now apply horner_bound].
  unfold Util.stringToInt. rewrite Hne.
  rewrite stringToInt_loop_value by first [assumption | lia]. reflexivity.
Qed.

Lemma X6_witness :
  Util.stringToInt "1aF0" 16 = Some (horner 16 0 "1aF0").
Proof.
  refine (proj1 (X6_stringToInt_positional_value 16 "1aF0" _ _ _ _)).
  - lia.
  - reflexivity.
  - vm_compute. reflexivity.
  - vm_compute. discriminate.
Defined.

Lemma stringToInt_loop_accepts (base : Z) (s : string) (sum v : Z) :
  Util.stringToInt_loop base s sum = Some v ->
  string_forallb (fun c => Util.isAlphaNumeric (Util.upper_char c)) s = true
  /\ (base <= 10 ->
      string_forallb (fun c => Util.isDigit (Util.upper_char c)) s = true)
  /\ (base = 16 ->
      string_forallb (fun c => Util.isHexDigit (Util.upper_char c)) s = true).
Proof.
  revert sum. induction s as [|c rest IH]; intros sum; [intros _; repeat split|].
  cbn [Util.stringToInt_loop string_forallb].
  destruct (Util.isAlphaNumeric (Util.upper_char c)); [|discriminate].
  destruct ((base <=? 10) && negb (Util.isDigit (Util.upper_char c))) eqn:E1;
    [discriminate|].
  destruct ((base =? 16) && negb (Util.isHexDigit (Util.upper_char c))) eqn:E2;
    [discriminate|].
  intros H. apply IH in H. destruct H as (H1 & H2 & H3).
  split; [now rewrite H1|]. split.
  - intros Hb. rewrite (H2 Hb), andb_true_r.
    apply Z.leb_le in Hb. rewrite Hb in E1. cbn [andb] in E1.
    now apply negb_false_iff in E1.
  - intros Hb. rewrite (H3 Hb), andb_true_r.
    apply Z.eqb_eq in Hb. rewrite Hb in E2. cbn [andb] in E2.
    now apply negb_false_iff in E2.
Qed.

(** X7: [stringToInt] succeeds only on a non-empty string of letters and
    digits (no sign, no blank), all decimal digits for a base up to 10,
    all hex digits for base 16. *)
Theorem X7_stringToInt_accepts_only_digits (base : Z) (s : string) (v : Z) :
  Util.stringToInt s base = Some v ->
  is_empty s = false
  /\ string_forallb (fun c => Util.isAlphaNumeric (Util.upper_char c)) s = true
  /\ (base <= 10 ->
      string_forallb (fun c => Util.isDigit (Util.upper_char c)) s = true)
  /\ (base = 16 ->
      string_forallb (fun c => Util.isHexDigit (Util.upper_char c)) s = true).
Proof.
  unfold Util.stringToInt. destruct (is_empty s); [discriminate|].
  intros H. split; [reflexivity|]. now apply stringToInt_loop_accepts in H.
Qed.

Lemma X7_witness :
  string_forallb (fun c => Util.isAlphaNumeric (Util.upper_char c)) "4096" = true.
Proof.
  refine (proj1 (proj2 (X7_stringToInt_accepts_only_digits 10 "4096" 4096 _))).
  vm_compute. reflexivity.
Defined.

Lemma hex_format_char (c : ascii) :
  Util.isAlphaNumeric c = true ->
  Util.isAlpha c && ((char_val c <? char_val "A") || (char_val "F" <? char_val c))
  = false ->
  Util.isAlphaNumeric (Util.upper_char c) && (digit_value c <? 16) = true.
Proof.
  assert (H : (if Util.isAlphaNumeric c
               then if Util.isAlpha c
                       && ((char_val c <? char_val "A")
                           || (char_val "F" <? char_val c))
                    then true
                    else Util.isAlphaNumeric (Util.upper_char c)
                         && (digit_value c <? 16)
               else true) = true).
  { destruct c as [b0 b1 b2 b3 b4 b5 b6 b7].
    destruct b0, b1, b2, b3, b4, b5, b6, b7; vm_compute; reflexivity. }
  intros H1 H2. now rewrite H1, H2 in H.
Qed.

Lemma hasHexFormat_valid_digits (s : string) :
  Util.hasHexFormat s = true -> valid_digits 16 s = true.
Proof.
  induction s as [|c rest IH]; [reflexivity|].
  unfold valid_digits in *. cbn [Util.hasHexFormat string_forallb].
  destruct (Util.isAlphaNumeric c) eqn:Ha; [|discriminate].
  destruct (Util.isAlpha c && _) eqn:Hb; [discriminate|].
  intros H. now rewrite (hex_format_char c Ha Hb), IH.
Qed.

Lemma stringToInt_loop_total (base : Z) (s : string) (sum : Z) :
  valid_digits base s = true ->
  exists v, Util.stringToInt_loop base s sum = Some v.
Proof.
  revert sum. induction s as [|c rest IH]; intros sum; [now eexists|].
  unfold valid_digits in *. cbn [string_forallb Util.stringToInt_loop].
  rewrite !andb_true_iff, Z.ltb_lt. intros [[Ha Hd] Hrest].
  destruct (digit_value_cases c Ha) as (Hv & Hdig & Hhex).
  rewrite Ha, Hdig, Hhex.
  assert (E1 : (base <=? 10) && negb (digit_value c <? 10) = false).
  { destruct (Z.leb_spec base 10); [|reflexivity].
    destruct (Z.ltb_spec (digit_value c) 10); [reflexivity | lia]. }
  assert (E2 : (base =? 16) && negb (digit_value c <? 16) = false).
  { destruct (Z.eqb_spec base 16); [|reflexivity].
    destruct (Z.ltb_spec (digit_value c) 16); [reflexivity | lia]. }
  rewrite E1, E2. now apply IH.
Qed.

(** X8: what [isHexSymbol] accepts, [stringToInt] reads in base 16: the
    conversion never fails on a hex symbol, and gives its positional value
    when the symbol has at most 7 digits. *)
Theorem X8_hex_symbol_is_read (s : string) :
  isHexSymbol s = true ->
  (exists v, Util.stringToInt s 16 = Some v)
  /\ ((String.length s <= 7)%nat ->
      Util.stringToInt s 16 = Some (horner 16 0 s)
      /\ 0 <= horner 16 0 s < 268435456).
Proof.
  unfold isHexSymbol. rewrite !andb_true_iff. intros [[Hlen _] Hfmt].
  apply hasHexFormat_valid_digits in Hfmt.
  assert (Hne : is_empty s = false) by (destruct s; [discriminate | reflexivity]).
  split.
  - unfold Util.stringToInt. rewrite Hne. now apply stringToInt_loop_total.
  - intros Hshort.
    assert (Hpow : 16 ^ Z.of_nat (String.length s) <= 16 ^ 7)
      by (apply Z.pow_le_mono_r; lia).
    change (16 ^ 7) with 268435456 in Hpow.
    assert (Hval : Util.stringToInt s 16 = Some (horner 16 0 s)).
    { unfold Util.stringToInt. rewrite Hne.
      rewrite stringToInt_loop_value by first [assumption | lia]. reflexivity. }
    split; [exact Hval|].
    pose proof (horner_bound 16 s ltac:(lia) Hfmt). lia.
Qed.

Lemma X8_witness : exists v, Util.stringToInt "08000" 16 = Some v.
Proof.
  refine (proj1 (X8_hex_symbol_is_read "08000" _)).
  vm_compute. reflexivity.
Defined.

(** ** Symbols and operands *)

Lemma isValidSymbol_cases (s errors : string) :
  (is_empty s = true -> isValidSymbol s errors = OutOfRange)
  /\ (is_empty s = false ->
      exists code,
        isValidSymbol s errors = Ok (symbol_validity s, errors ++ code)
        /\ (symbol_validity s = true -> code = EmptyString)
        /\ (symbol_validity s = false ->
            code = (if (6 <? String.length s)%nat then "0010"
                    else if negb (Util.isAlpha (char_at s 0)) then "0011"
                    else "0012"))).
Proof.
  split.
  - intros H. apply is_empty_true in H. now subst s.
  - destruct s as [|c0 rest]; [discriminate|]. intros _.
    unfold isValidSymbol, symbol_validity.
    rewrite (Nat.leb_antisym 6 (String.length (String c0 rest))).
    change (char_at (String c0 rest) 0) with c0.
    destruct (6 <? String.length (String c0 rest))%nat; cbn [negb andb].
    + exists "0010". repeat split; first [reflexivity | discriminate | (intros _; reflexivity)].
    + destruct (Util.isAlpha c0); cbn [negb andb].
      * destruct (string_forallb Util.isAlphaNumeric rest); cbn [negb].
        -- exists EmptyString. rewrite append_empty_r.
           repeat split; first [reflexivity | discriminate | (intros _; reflexivity)].
        -- exists "0012". repeat split; first [reflexivity | discriminate | (intros _; reflexivity)].
      * exists "0011". repeat split; first [reflexivity | discriminate | (intros _; reflexivity)].
Qed.

(** X9: [isValidSymbol] throws on the empty string; on any other string it
    gives the validity of the symbol, and adds exactly one code when the
    symbol is not valid: 0010 for more than 6 characters, else 0011 for a
    first character that is no letter, else 0012. *)
Theorem X9_isValidSymbol_characterised (s errors : string) :
  (is_empty s = true -> isValidSymbol s errors = OutOfRange)
  /\ (is_empty s = false ->
      exists code,
        isValidSymbol s errors = Ok (symbol_validity s, errors ++ code)
        /\ (symbol_validity s = true -> code = EmptyString)
        /\ (symbol_validity s = false ->
            code = (if (6 <? String.length s)%nat then "0010"
                    else if negb (Util.isAlpha (char_at s 0)) then "0011"
                    else "0012"))).
Proof. apply isValidSymbol_cases. Qed.

Lemma X9_witness :
  exists code,
    isValidSymbol "1ABC" EmptyString = Ok (symbol_validity "1ABC", EmptyString ++ code).
Proof.
  destruct (proj2 (X9_isValidSymbol_characterised "1ABC" EmptyString) eq_refl)
    as (code & H & _).
  exists code. exact H.
Defined.

Lemma hasHexFormat_comma_X (p : string) :
  Util.hasHexFormat (p ++ ",X") = false.
Proof.
  destruct (Util.hasHexFormat (p ++ ",X")) eqn:E; [|reflexivity].
  apply hasHexFormat_suffix in E. discriminate.
Qed.

(** X10: an operand that starts with [0] and ends in [,X] is refused by
    [isValidOperand] without a code of its own, so pass 1 gives its line
    the error 0001: indexed addressing cannot be asked for on a hex
    literal. *)
Theorem X10_hex_literal_with_index_refused (rest errors opcode : string) :
  isValidOperand (String "0" rest ++ ",X") errors = (false, errors)
  /\ (is_directive4 opcode = false ->
      operand_errors opcode (String "0" rest ++ ",X") = "0001").
Proof.
  assert (H : forall e, isValidOperand (String "0" rest ++ ",X") e = (false, e)).
  { intros e. unfold isValidOperand, isHexSymbol.
    rewrite hasHexFormat_comma_X, andb_false_r. reflexivity. }
  split; [apply H|].
  intros Hd. unfold operand_errors. now rewrite Hd, H.
Qed.

Lemma X10_witness : operand_errors "0" (String "0" "036" ++ ",X") = "0001".
Proof.
  exact (proj2 (X10_hex_literal_with_index_refused "036" EmptyString "0") eq_refl).
Defined.

Lemma alnum_not_comma (c : ascii) :
  Util.isAlphaNumeric c = true -> Ascii.eqb c "," = false.
Proof. destruct (Ascii.eqb_spec c ",") as [->|_]; [discriminate | reflexivity]. Qed.

Lemma getOperandFromIndexed_alnum (p rest : string) :
  string_forallb Util.isAlphaNumeric p = true ->
  getOperandFromIndexed (p ++ String "," rest) = p.
Proof.
  induction p as [|c p IH]; [reflexivity|].
  cbn [string_forallb]. rewrite append_cons. cbn [getOperandFromIndexed].
  intros H. apply andb_true_iff in H. destruct H as [Hc Hp].
  rewrite (alnum_not_comma c Hc). cbn [negb]. now rewrite IH.
Qed.

Lemma substring_prefix (p t : string) :
  String.substring 0 (String.length p) (p ++ t) = p.
Proof.
  induction p as [|c p IH]; [destruct t; reflexivity|].
  rewrite append_cons. cbn [String.length String.substring]. now rewrite IH.
Qed.

Lemma indexed_test (src : string) :
  (3 <=? String.length src)%nat
  && Ascii.eqb (char_at src (String.length src - 1)) "X"
  && Ascii.eqb (char_at src (String.length src - 2)) ","
  = isIndexedOperand src.
Proof.
  unfold isIndexedOperand. destruct (String.length src) as [|end_]; [reflexivity|].
  replace (S end_ - 1)%nat with end_ by lia.
  replace (S end_ - 2)%nat with (end_ - 1)%nat by lia.
  reflexivity.
Qed.

(** X11: an operand [isValidOperand] accepts is not empty, adds no error,
    and is the operand pass 2 works on, made of letters and digits,
    followed by [,X] exactly when it is indexed; one that starts with [0]
    is a hex symbol and is not indexed. *)
Theorem X11_accepted_operand_shape (src errors errors' : string) :
  isValidOperand src errors = (true, errors') ->
  errors' = errors
  /\ is_empty src = false
  /\ string_forallb Util.isAlphaNumeric (pure_operand src) = true
  /\ src = pure_operand src ++ (if isIndexedOperand src then ",X" else EmptyString)
  /\ (Ascii.eqb (char_at src 0) "0" = true ->
      isHexSymbol (pure_operand src) = true /\ isIndexedOperand src = false).
Proof.
  unfold isValidOperand.
  destruct (is_empty src) eqn:Hne; [discriminate|].
  destruct (Ascii.eqb (char_at src 0) "0" && negb (isHexSymbol src)) eqn:Hzero;
    [discriminate|].
  rewrite indexed_test. unfold pure_operand.
  destruct (isIndexedOperand src) eqn:Hidx.
  - pose proof Hidx as Hsplit. apply isIndexedOperand_iff in Hsplit.
    destruct Hsplit as (p & Hp & ->).
    assert (Hslice : slice 0 (String.length (p ++ ",X") - 2) (p ++ ",X") = p).
    { unfold slice. rewrite length_append. cbn [String.length].
      replace (String.length p + 2 - 2 - 0)%nat with (String.length p) by lia.
      apply substring_prefix. }
    rewrite Hslice.
    destruct (string_forallb Util.isAlphaNumeric p) eqn:Hal; [|discriminate].
    intros [= <-]. rewrite (getOperandFromIndexed_alnum p "X" Hal).
    repeat split; try reflexivity; try assumption.
    all: exfalso.
    all: match goal with
         | H0 : Ascii.eqb _ _ = true |- _ => rewrite H0 in Hzero
         end.
    all: cbn [andb] in Hzero; apply negb_false_iff in Hzero.
    all: unfold isHexSymbol in Hzero.
    all: now rewrite hasHexFormat_comma_X, andb_false_r in Hzero.
  - destruct (string_forallb Util.isAlphaNumeric src) eqn:Hal; [|discriminate].
    intros [= <-]. rewrite append_empty_r.
    repeat split; try reflexivity; try assumption.
    match goal with
    | H0 : Ascii.eqb _ _ = true |- _ => rewrite H0 in Hzero
    end.
    cbn [andb] in Hzero. now apply negb_false_iff in Hzero.
Qed.

Lemma X11_witness :
  "BUFFER,X" = pure_operand "BUFFER,X"
               ++ (if isIndexedOperand "BUFFER,X" then ",X" else EmptyString).
Proof.
  refine (proj1 (proj2 (proj2 (proj2
            (X11_accepted_operand_shape "BUFFER,X" EmptyString EmptyString _))))).
  vm_compute. reflexivity.
Defined.

(** ** The END line *)

Lemma isValidSymbol_empty (errors : string) :
  isValidSymbol EmptyString errors = OutOfRange.
Proof. reflexivity. Qed.

(** X12: an END line without operand makes pass 1 call [isValidSymbol] on
    the empty string: it ends in an uncaught [std::out_of_range], whatever
    the lines before and after. *)
Theorem X12_END_without_operand_throws (st : pass1_state)
    (srcLine u label : string) (rest : list string) :
  getColumns srcLine delims = Ok (u, label, "END", EmptyString) ->
  Ascii.eqb (char_at srcLine 0) "." = false ->
  pass1_line st srcLine = OutOfRange
  /\ pass1_loop st (srcLine :: rest) = OutOfRange.
Proof.
  intros Hcols Hdot.
  assert (Hline : pass1_line st srcLine = OutOfRange).
  { unfold pass1_line.
    destruct srcLine as [|c0 srest]; [discriminate Hcols|].
    cbn [is_empty]. rewrite Hdot, Hcols. cbn [bind].
    destruct (Nat.eqb_spec
                (String.length label + String.length "END"
                 + String.length EmptyString) 0) as [E|_];
      [cbn [String.length] in E; lia|].
    change (String.eqb "END" "START") with false. cbv iota.
    unfold pass1_columns. change (String.eqb "END" "END") with true. cbv iota.
    unfold pass1_END. rewrite isValidSymbol_empty. reflexivity. }
  split; [exact Hline|].
  cbn [pass1_loop]. now rewrite Hline.
Qed.

Lemma X12_witness :
  pass1_line (mkPass1 (Assembler_new 0) [] false false) " END" = OutOfRange.
Proof.
  refine (proj1 (X12_END_without_operand_throws _ " END" " END" EmptyString [] _ _)).
  - vm_compute. reflexivity.
  - reflexivity.
Defined.

Lemma digit_not_alpha (c : ascii) :
  Util.isDigit c = true -> Util.isAlpha c = false.
Proof.
  destruct c as [b0 b1 b2 b3 b4 b5 b6 b7].
  destruct b0, b1, b2, b3, b4, b5, b6, b7; vm_compute; auto.
Qed.

Lemma pass1_END_hex_operand (st : pass1_state) (u operand errors : string)
    (st' : pass1_state) :
  isHexSymbol operand = true ->
  pass1_END st u "END" operand errors = Ok st' ->
  exists addr code,
    intermediate st'
    = (intermediate st ++ [mkBlock u "END" addr operand (errors ++ code)])%list
    /\ (code = "0010" \/ code = "0011").
Proof.
  intros Hhex. unfold pass1_END.
  assert (Hne : is_empty operand = false)
    by (destruct operand; [discriminate Hhex | reflexivity]).
  destruct (proj2 (isValidSymbol_cases operand errors) Hne) as (code & E & _ & Hcode).
  rewrite E. cbn [bind].
  assert (Hinvalid : symbol_validity operand = false).
  { destruct operand as [|c0 rest]; [discriminate|].
    unfold isHexSymbol in Hhex. rewrite !andb_true_iff in Hhex.
    destruct Hhex as [[_ Hd] _]. change (char_at (String c0 rest) 0) with c0 in Hd.
    unfold symbol_validity. rewrite (digit_not_alpha c0 Hd).
    now rewrite andb_false_r. }
  rewrite Hinvalid, Hhex. cbn [negb andb].
  specialize (Hcode Hinvalid).
  intros H. apply Ok_inj in H. subst st'. cbn [intermediate].
  exists (print_hex false (locctr (p1_asm st))), code.
  split; [reflexivity|].
  destruct (6 <? String.length operand)%nat; [now left|].
  destruct operand as [|c0 rest]; [discriminate|].
  unfold isHexSymbol in Hhex. rewrite !andb_true_iff in Hhex.
  destruct Hhex as [[_ Hd] _]. change (char_at (String c0 rest) 0) with c0 in *.
  rewrite (digit_not_alpha c0 Hd) in Hcode. now right.
Qed.

Lemma END_hex_flagged_step (st st' : pass1_state) (stop : bool) :
  END_hex_flagged st -> line_step st st' stop -> END_hex_flagged st'.
Proof.
  unfold END_hex_flagged. intros Hinv Hstep.
  assert (Hsnoc : forall blk,
            (is_END blk = true -> isHexSymbol (operandField blk) = true ->
             has_error blk = true) ->
            forall b, In b (intermediate st ++ [blk])%list ->
                      is_END b = true -> isHexSymbol (operandField b) = true ->
                      has_error b = true).
  { intros blk Hblk b Hin. apply in_app_or in Hin.
    destruct Hin as [Hin|[<-|[]]]; [now apply Hinv | exact Hblk]. }
  destruct Hstep as [|u label operand st' H|u operand st' H
                     |u label opcode operand st' Hs He H].
  - exact Hinv.
  - apply pass1_START_effect in H. destruct H as (addr & errors & -> & _).
    apply Hsnoc. discriminate.
  - pose proof H as H2. apply pass1_END_effect in H.
    destruct H as (addr & errors' & Hi & _).
    destruct (implicit_start_fields st) as (Hi0 & _).
    rewrite Hi, Hi0. apply Hsnoc. cbn [operandField]. intros _ Hhex.
    apply (pass1_END_hex_operand _ _ _ _ _ Hhex) in H2.
    destruct H2 as (addr2 & code & Hi2 & Hcode).
    rewrite Hi in Hi2. apply app_inj_tail in Hi2. destruct Hi2 as [_ Hblk].
    injection Hblk as _ ->.
    unfold has_error. cbn [errorList]. rewrite is_empty_append.
    destruct Hcode as [-> | ->]; now rewrite andb_false_r.
  - apply pass1_other_effect in H; [|exact He].
    destruct H as (opline & addr & errors' & -> & Hop & _).
    destruct (implicit_start_fields st) as (-> & _).
    apply Hsnoc. unfold is_END. cbn [opcodeField]. rewrite Hop. discriminate.
Qed.

(** X13: an END line whose operand is a hex address is always given an
    error (0010 or 0011, from the symbol check that runs first), so a
    source that ends that way never keeps its object file. *)
Theorem X13_END_hex_operand_always_in_error (garbage : Z)
    (source : option (list string)) (a : Assembler) (blocks : list block)
    (b : block) :
  pass1 (Assembler_new garbage) source = Ok (a, blocks) ->
  In b blocks ->
  is_END b = true ->
  isHexSymbol (operandField b) = true ->
  has_error b = true
  /\ anyErrors (r_asm (pass2 a (Some blocks))) = true
  /\ object_exists (pass2 a (Some blocks)) = false.
Proof.
  intros Hrun Hin Hend Hhex.
  assert (Hflag : has_error b = true).
  { destruct source as [lines|]; cbn [pass1] in Hrun.
    - destruct (pass1_loop (mkPass1 (Assembler_new garbage) [] false false) lines)
        as [st|] eqn:E; cbn [bind] in Hrun; [|discriminate].
      apply Ok_inj in Hrun. injection Hrun as <- <-.
      destruct (pass1_loop_invariant END_hex_flagged END_hex_flagged) with
        (lines := lines)
        (st := mkPass1 (Assembler_new garbage) [] false false) (st' := st)
        as [Hinv|Hinv]; try assumption.
      + intros s s'. apply END_hex_flagged_step.
      + intros s s'. apply END_hex_flagged_step.
      + intros x [].
      + now apply Hinv.
      + now apply Hinv.
    - apply Ok_inj in Hrun. injection Hrun as <- <-. destruct Hin. }
  split; [exact Hflag|].
  destruct (assemble_anyErrors garbage source a blocks Hrun) as (_ & _ & _ & Hany).
  assert (Hsome : existsb has_error blocks = true)
    by (apply existsb_exists; now exists b).
  rewrite Hsome in Hany. cbn [orb] in Hany.
  split; [exact Hany|].
  cbn [pass2]. rewrite pass2_finish_object_exists.
  fold (pass2 a (Some blocks)). now rewrite Hany.
Qed.

Lemma X13_witness :
  exists a blocks b,
    pass1 (Assembler_new 0) (Some ["FIRST LDA 0"; " END 0"]) = Ok (a, blocks)
    /\ In b blocks
    /\ object_exists (pass2 a (Some blocks)) = false.
Proof.
  assert (H : exists a b1 b2,
             pass1 (Assembler_new 0) (Some ["FIRST LDA 0"; " END 0"])
             = Ok (a, [b1; b2])
             /\ is_END b2 = true /\ isHexSymbol (operandField b2) = true)
    by (do 3 eexists; split; [vm_compute; reflexivity|];
        split; vm_compute; reflexivity).
  destruct H as (a & b1 & b2 & Hrun & Hend & Hhex).
  exists a, [b1; b2], b2. split; [exact Hrun|]. split; [right; now left|].
  exact (proj2 (proj2 (X13_END_hex_operand_always_in_error 0 _ a [b1; b2] b2
                         Hrun (or_intror (or_introl eq_refl)) Hend Hhex))).
Defined.

(** ** Labels and operands of ordinary lines *)

Lemma pass1_other_unfold (st : pass1_state)
    (u label opcode operand errors : string) (st' : pass1_state) :
  pass1_other st u label opcode operand errors = Ok st' ->
  exists a' e1 opline addr suffix,
    pass1_label (p1_asm st) label errors = Ok (a', e1)
    /\ symbolTable (p1_asm st') = symbolTable a'
    /\ intermediate st'
       = (intermediate st ++ [mkBlock u opline addr operand (e1 ++ suffix)])%list.
Proof.
  unfold pass1_other.
  destruct (pass1_label (p1_asm st) label errors) as [[a' e1]|]; cbn [bind];
    [|discriminate].
  destruct (pass1_size_errors opcode operand e1) as [suffix Hsuf].
  destruct (pass1_size opcode operand e1) as [[increment opFound] e2].
  cbn [snd] in Hsuf. subst e2.
  intros H. apply Ok_inj in H. subst st'.
  cbn [p1_asm intermediate symbolTable set_locctr].
  exists a', e1. do 3 eexists. repeat split; reflexivity.
Qed.

(** X14: a line with an opcode, no operand, that is not a START or END
    line nor one of the four directives (RSUB written alone, for one) gets
    the error 0001, and the placeholder as object code. *)
Theorem X14_missing_operand_flagged (st st' : pass1_state)
    (srcLine u label opcode : string) (stop : bool) :
  getColumns srcLine delims = Ok (u, label, opcode, EmptyString) ->
  Ascii.eqb (char_at srcLine 0) "." = false ->
  is_empty opcode = false ->
  String.eqb opcode "START" = false ->
  String.eqb opcode "END" = false ->
  is_directive4 opcode = false ->
  pass1_line st srcLine = Ok (st', stop) ->
  exists b,
    intermediate st' = (intermediate st ++ [b])%list
    /\ has_code "0001" (errorList b)
    /\ forall a, block_objectCode a b = placeholder.
Proof.
  intros Hcols Hdot Hop Hstart Hend Hdir Hrun.
  unfold pass1_line in Hrun.
  destruct srcLine as [|c0 srest]; [discriminate Hcols|].
  cbn [is_empty] in Hrun. rewrite Hdot, Hcols in Hrun. cbn [bind] in Hrun.
  destruct (Nat.eqb_spec
              (String.length label + String.length opcode
               + String.length EmptyString) 0) as [E|_].
  { destruct opcode; [discriminate Hop | cbn [String.length] in E; lia]. }
  rewrite Hstart in Hrun. unfold pass1_columns in Hrun. rewrite Hend in Hrun.
  destruct (pass1_other _ _ _ _ _ _) as [st1|] eqn:E; cbn [bind] in Hrun;
    [|discriminate].
  apply Ok_inj in Hrun. injection Hrun as <- _.
  apply pass1_other_unfold in E.
  destruct E as (a' & e1 & opline & addr & suffix & Hlabel & _ & Hi).
  apply pass1_label_effect in Hlabel. destruct Hlabel as ([suf1 ->] & _).
  destruct (implicit_start_fields st) as (Hi0 & _). rewrite Hi0 in Hi.
  eexists. split; [exact Hi|].
  assert (Herr : operand_errors opcode EmptyString = "0001").
  { unfold operand_errors. now rewrite Hdir. }
  rewrite Herr. cbn [errorList]. split.
  - exists EmptyString, (suf1 ++ suffix). now rewrite append_assoc.
  - intros a. unfold block_objectCode. cbn [errorList].
    now rewrite !append_assoc.
Qed.

Lemma X14_witness :
  exists b,
    intermediate (match pass1_line (mkPass1 (Assembler_new 0) [] false true) " RSUB"
                  with Ok (st', _) => st' | OutOfRange => mkPass1 (Assembler_new 0) [] false true end)
    = ([] ++ [b])%list
    /\ has_code "0001" (errorList b).
Proof.
  assert (H : exists st' stop,
             pass1_line (mkPass1 (Assembler_new 0) [] false true) " RSUB"
             = Ok (st', stop)) by (vm_compute; eauto).
  destruct H as (st' & stop & H). rewrite H.
  destruct (X14_missing_operand_flagged _ st' " RSUB" " RSUB" EmptyString "RSUB"
              stop eq_refl eq_refl eq_refl eq_refl eq_refl eq_refl H)
    as (b & H1 & H2 & _).
  exists b. split; [exact H1 | exact H2].
Defined.

Lemma pass1_label_keeps (a : Assembler) (label errors : string)
    (a' : Assembler) (errors' : string) (k : string) (v : Z) :
  pass1_label a label errors = Ok (a', errors') ->
  symbolTable a !! k = Some v -> symbolTable a' !! k = Some v.
Proof.
  unfold pass1_label.
  destruct (negb (is_empty label)); [|now intros [= <- _]].
  destruct (symbolTable a !! label) as [w|] eqn:Hfind; [now intros [= <- _]|].
  destruct (isValidSymbol label errors) as [[valid e]|]; cbn [bind]; [|discriminate].
  intros H Hk. apply Ok_inj in H. injection H as <- _.
  cbn [symbolTable set_symbolTable]. unfold umap_insert. rewrite Hfind.
  rewrite lookup_insert_ne; [exact Hk|]. intros ->. congruence.
Qed.

Lemma line_step_keeps_symbol (st st' : pass1_state) (stop : bool)
    (k : string) (v : Z) :
  symbolTable (p1_asm st) !! k = Some v ->
  line_step st st' stop ->
  symbolTable (p1_asm st') !! k = Some v.
Proof.
  intros Hk Hstep.
  destruct Hstep as [|u label operand st' H|u operand st' H
                     |u label opcode operand st' Hs He H].
  - exact Hk.
  - apply pass1_START_effect in H. destruct H as (_ & _ & _ & -> & _). exact Hk.
  - apply pass1_END_effect in H. destruct H as (_ & _ & _ & -> & _).
    destruct (implicit_start_fields st) as (_ & -> & _). exact Hk.
  - apply pass1_other_unfold in H.
    destruct H as (a' & e1 & _ & _ & _ & Hlabel & -> & _).
    apply (pass1_label_keeps _ _ _ _ _ k v Hlabel).
    destruct (implicit_start_fields st) as (_ & -> & _). exact Hk.
Qed.

(** X15: once a symbol is in the table, no later line of pass 1 changes
    its address or removes it: the first definition wins. *)
Theorem X15_first_definition_wins (st st' : pass1_state) (lines : list string)
    (k : string) (v : Z) :
  pass1_loop st lines = Ok st' ->
  symbolTable (p1_asm st) !! k = Some v ->
  symbolTable (p1_asm st') !! k = Some v.
Proof.
  intros Hrun Hk.
  destruct (pass1_loop_invariant
              (fun s => symbolTable (p1_asm s) !! k = Some v)
              (fun s => symbolTable (p1_asm s) !! k = Some v))
    with (lines := lines) (st := st) (st' := st') as [H|H]; try assumption.
  - intros s s' Hs Hstep. exact (line_step_keeps_symbol s s' false k v Hs Hstep).
  - intros s s' Hs Hstep. exact (line_step_keeps_symbol s s' true k v Hs Hstep).
Qed.

Lemma X15_witness :
  let st := mkPass1 (set_symbolTable (<["X" := 7]> ∅) (Assembler_new 0)) [] true true in
  symbolTable
    (p1_asm (match pass1_loop st ["X WORD 5"; "X WORD 6"] with
             | Ok st' => st'
             | OutOfRange => st
             end)) !! "X" = Some 7.
Proof.
  intros st.
  assert (H : exists st', pass1_loop st ["X WORD 5"; "X WORD 6"] = Ok st')
    by (vm_compute; eauto).
  destruct H as (st' & H). rewrite H.
  apply (X15_first_definition_wins st st' _ "X" 7 H).
  vm_compute. reflexivity.
Defined.

(** X16: after an ordinary line with a label, the label is in the symbol
    table, with the address it had if it was defined before, and with the
    location counter of the line otherwise (valid symbol or not). *)
Theorem X16_label_defined_after_its_line (st st' : pass1_state)
    (u label opcode operand errors : string) :
  pass1_other st u label opcode operand errors = Ok st' ->
  is_empty label = false ->
  symbolTable (p1_asm st') !! label
  = Some (match symbolTable (p1_asm st) !! label with
          | Some v => v
          | None => to_unsigned (locctr (p1_asm st))
          end).
Proof.
  intros H Hne. apply pass1_other_unfold in H.
  destruct H as (a' & e1 & _ & _ & _ & Hlabel & -> & _).
  unfold pass1_label in Hlabel. rewrite Hne in Hlabel. cbn [negb] in Hlabel.
  destruct (symbolTable (p1_asm st) !! label) as [w|] eqn:Hfind.
  - apply Ok_inj in Hlabel. injection Hlabel as <- _. exact Hfind.
  - destruct (isValidSymbol label errors) as [[valid e]|]; cbn [bind] in Hlabel;
      [|discriminate].
    apply Ok_inj in Hlabel. injection Hlabel as <- _.
    cbn [symbolTable set_symbolTable]. unfold umap_insert. rewrite Hfind.
    apply lookup_insert_eq.
Qed.

Lemma X16_witness :
  let st := mkPass1 (set_locctr 4096 (Assembler_new 0)) [] true true in
  symbolTable
    (p1_asm (match pass1_other st "FIRST LDA 0" "FIRST" "LDA" "0" EmptyString with
             | Ok st' => st'
             | OutOfRange => st
             end)) !! "FIRST" = Some 4096.
Proof.
  intros st.
  assert (H : exists st',
             pass1_other st "FIRST LDA 0" "FIRST" "LDA" "0" EmptyString = Ok st')
    by (vm_compute; eauto).
  destruct H as (st' & H). rewrite H.
  exact (X16_label_defined_after_its_line st st' _ _ _ _ _ H eq_refl).
Defined.
(** ** Error lists and their report *)

Lemma reportErrors_loop_collect (c : ascii) (rest error : string) (counter : Z) :
  (errorCodeSize <? counter + 1) = false ->
  reportErrors_loop (String c rest) error counter
  = reportErrors_loop rest (push_back error c) (counter + 1).
Proof. intros H. cbn [reportErrors_loop]. now rewrite H. Qed.

Lemma reportErrors_loop_emit (c : ascii) (rest error : string) (counter : Z) :
  (errorCodeSize <? counter + 1) = true ->
  reportErrors_loop (String c rest) error counter
  = describe_error (push_back error c)
    ++ reportErrors_loop rest EmptyString 1.
Proof.
  intros H. cbn [reportErrors_loop]. rewrite H.
  unfold describe_error, unknownErrorText. reflexivity.
Qed.

Lemma reportErrors_loop_four (c1 c2 c3 c4 : ascii) (rest : string) :
  reportErrors_loop (String c1 (String c2 (String c3 (String c4 rest))))
    EmptyString 1
  = describe_error (String c1 (String c2 (String c3 (String c4 EmptyString))))
    ++ reportErrors_loop rest EmptyString 1.
Proof.
  rewrite !reportErrors_loop_collect by reflexivity.
  rewrite reportErrors_loop_emit by reflexivity. reflexivity.
Qed.

Lemma reportErrors_loop_chunks (n : nat) (errorList : string) :
  (String.length errorList <= n)%nat ->
  reportErrors_loop errorList EmptyString 1
  = string_concat (map describe_error (error_codes_of errorList)).
Proof.
  revert errorList. induction n as [|n IH]; intros e Hlen.
  - destruct e; [reflexivity | cbn in Hlen; lia].
  - destruct e as [|c1 [|c2 [|c3 [|c4 rest]]]].
    + reflexivity.
    + rewrite reportErrors_loop_collect by reflexivity. reflexivity.
    + rewrite !reportErrors_loop_collect by reflexivity. reflexivity.
    + rewrite !reportErrors_loop_collect by reflexivity. reflexivity.
    + rewrite reportErrors_loop_four. cbn [error_codes_of map string_concat].
      rewrite IH; [reflexivity|]. cbn [String.length] in Hlen. lia.
Qed.

(** X17: [reportErrors] cuts the error list in codes of four characters,
    from the left, and writes for each its text from the error table (the
    "Unknown error" text when it has none); what is left after the last
    whole code is dropped. *)
Theorem X17_reportErrors_by_codes (errorList : string) :
  reportErrors errorList
  = if is_empty errorList then EmptyString
    else String TAB "Errors: "
         ++ string_concat (map describe_error (error_codes_of errorList)).
Proof.
  unfold reportErrors.
  rewrite (reportErrors_loop_chunks (String.length errorList) errorList)
    by reflexivity.
  destruct errorList; reflexivity.
Qed.

Lemma string_concat_app (l1 l2 : list string) :
  string_concat (l1 ++ l2)%list = string_concat l1 ++ string_concat l2.
Proof.
  induction l1 as [|s l1 IH]; [reflexivity|].
  cbn [app string_concat]. now rewrite IH, append_assoc.
Qed.

Lemma well_formed_nil : well_formed_errors EmptyString.
Proof. exists []. split; reflexivity. Qed.

Lemma well_formed_code (c : string) :
  known_code c = true -> well_formed_errors c.
Proof.
  intros H. exists [c]. cbn [string_concat forallb].
  now rewrite append_empty_r, H.
Qed.

Lemma well_formed_append (s t : string) :
  well_formed_errors s -> well_formed_errors t -> well_formed_errors (s ++ t).
Proof.
  intros (l1 & -> & H1) (l2 & -> & H2). exists (l1 ++ l2)%list.
  split; [now rewrite string_concat_app|]. now rewrite forallb_app, H1, H2.
Qed.

Lemma codes_after_refl (e : string) : codes_after e e.
Proof. exists EmptyString. split; [now rewrite append_empty_r | apply well_formed_nil]. Qed.

Lemma codes_after_code (e c : string) :
  known_code c = true -> codes_after e (e ++ c).
Proof. intros H. exists c. split; [reflexivity | now apply well_formed_code]. Qed.

Lemma codes_after_trans (e1 e2 e3 : string) :
  codes_after e1 e2 -> codes_after e2 e3 -> codes_after e1 e3.
Proof.
  intros (s1 & -> & H1) (s2 & -> & H2). exists (s1 ++ s2).
  split; [now rewrite append_assoc | now apply well_formed_append].
Qed.

Lemma codes_after_well_formed (e e' : string) :
  well_formed_errors e -> codes_after e e' -> well_formed_errors e'.
Proof. intros H (s & -> & Hs). now apply well_formed_append. Qed.

Ltac known_codes :=
  first [ apply codes_after_refl
        | apply codes_after_code; vm_compute; reflexivity
        | eapply codes_after_trans; [eassumption|]; known_codes ].

Lemma isValidSymbol_codes (s e : string) (v : bool) (e' : string) :
  isValidSymbol s e = Ok (v, e') -> codes_after e e'.
Proof.
  unfold isValidSymbol.
  destruct (6 <? String.length s)%nat; [intros [= _ <-]; known_codes|].
  destruct s as [|c0 rest]; [discriminate|].
  destruct (negb (Util.isAlpha c0)); [intros [= _ <-]; known_codes|].
  destruct (negb (string_forallb Util.isAlphaNumeric rest));
    intros [= _ <-]; known_codes.
Qed.

Lemma isValidOperand_codes (src e : string) :
  codes_after e (snd (isValidOperand src e)).
Proof.
  unfold isValidOperand.
  repeat match goal with
         | |- context [if ?c then _ else _] => destruct c
         end; cbn [snd]; known_codes.
Qed.

Lemma operand_errors_well_formed (opcode operand : string) :
  well_formed_errors (operand_errors opcode operand).
Proof.
  unfold operand_errors.
  destruct (negb (is_directive4 opcode)); [|apply well_formed_nil].
  pose proof (isValidOperand_codes operand EmptyString) as H.
  destruct (isValidOperand operand EmptyString) as [valid e]. cbn [snd] in H.
  apply (codes_after_well_formed EmptyString); [apply well_formed_nil|].
  destruct (negb valid); known_codes.
Qed.

Lemma getConstantLength_codes (operand e : string) :
  codes_after e (snd (getConstantLength operand e)).
Proof.
  unfold getConstantLength.
  repeat match goal with
         | |- context [if ?c then _ else _] => destruct c
         end; cbn [snd]; known_codes.
Qed.

Lemma pass1_size_codes (opcode operand e : string) :
  codes_after e (snd (pass1_size opcode operand e)).
Proof.
  unfold pass1_size.
  pose proof (getConstantLength_codes operand e) as Hb.
  destruct (getConstantLength operand e) as [len e1]. cbn [snd] in Hb.
  destruct (String.eqb opcode "WORD").
  { destruct (Util.stringToInt operand 10); cbn [snd]; known_codes. }
  destruct (String.eqb opcode "RESW").
  { destruct (Util.stringToInt operand 10); cbn [snd]; known_codes. }
  destruct (String.eqb opcode "RESB").
  { destruct (Util.stringToInt operand 10); cbn [snd]; known_codes. }
  destruct (String.eqb opcode "BYTE").
  { destruct (negb (len =? -1)); cbn [snd]; known_codes. }
  generalize (opcodeTable !! opcode). intros [v|]; cbn [snd]; known_codes.
Qed.

Lemma pass1_label_codes (a : Assembler) (label e : string)
    (a' : Assembler) (e' : string) :
  pass1_label a label e = Ok (a', e') -> codes_after e e'.
Proof.
  unfold pass1_label.
  destruct (negb (is_empty label)); [|intros [= _ <-]; known_codes].
  destruct (symbolTable a !! label); [intros [= _ <-]; known_codes|].
  destruct (isValidSymbol label e) as [[valid e1]|] eqn:E; cbn [bind];
    [|discriminate].
  apply isValidSymbol_codes in E.
  intros H. apply Ok_inj in H. injection H as _ <-.
  destruct (negb valid); known_codes.
Qed.

(** ** The error lists written by pass 1 *)

Lemma error_codes_of_concat (l : list string) :
  forallb known_code l = true -> error_codes_of (string_concat l) = l.
Proof.
  induction l as [|c l IH]; [reflexivity|].
  cbn [forallb string_concat]. intros H.
  apply andb_prop in H. destruct H as [Hc Hl].
  unfold known_code in Hc. apply andb_prop in Hc. destruct Hc as [Hlen _].
  apply Nat.eqb_eq in Hlen.
  destruct c as [|c1 [|c2 [|c3 [|c4 [|c5 r]]]]]; try discriminate.
  rewrite !append_cons, append_nil. cbn [error_codes_of].
  now rewrite (IH Hl).
Qed.

Lemma pass1_START_errors (st : pass1_state) (u label operand : string)
    (st' : pass1_state) :
  pass1_START st u label "START" operand = Ok st' ->
  exists addr errors,
    intermediate st'
    = (intermediate st ++ [mkBlock u "START" addr operand errors])%list
    /\ well_formed_errors errors.
Proof.
  unfold pass1_START.
  set (e0 := if startFound st then EmptyString ++ "0015" else EmptyString).
  set (a0 := if startFound st then set_anyErrors true (p1_asm st) else p1_asm st).
  replace (if startFound st
           then (EmptyString ++ "0015", set_anyErrors true (p1_asm st))
           else (EmptyString, p1_asm st)) with (e0, a0)
    by (unfold e0, a0; now destruct (startFound st)).
  assert (H0 : codes_after EmptyString e0).
  { unfold e0. destruct (startFound st); known_codes. }
  clearbody e0 a0.
  assert (H1 : forall e1,
             (if (0 <? String.length label)%nat
              then let! (valid, errors) := isValidSymbol label e0 in
                   Ok (if negb valid then errors ++ "0004" else errors)
              else Ok e0) = Ok e1 -> codes_after EmptyString e1).
  { intros e1. destruct (0 <? String.length label)%nat.
    - destruct (isValidSymbol label e0) as [[valid e]|] eqn:E; cbn [bind];
        [|discriminate].
      apply isValidSymbol_codes in E. intros H. apply Ok_inj in H. subst e1.
      destruct (negb valid); known_codes.
    - intros H. apply Ok_inj in H. now subst e1. }
  destruct (if (0 <? String.length label)%nat then _ else _) as [e1|];
    cbn [bind]; [|discriminate].
  specialize (H1 e1 eq_refl).
  destruct (if is_empty operand then None else Util.stringToInt operand 16) as [v|];
    intros H; apply Ok_inj in H; subst st'; cbn [intermediate];
    do 2 eexists; (split; [reflexivity|]);
    apply (codes_after_well_formed EmptyString); try apply well_formed_nil;
    known_codes.
Qed.

Lemma pass1_END_errors (st : pass1_state) (u operand errors : string)
    (st' : pass1_state) :
  well_formed_errors errors ->
  pass1_END st u "END" operand errors = Ok st' ->
  exists addr errors',
    intermediate st'
    = (intermediate st ++ [mkBlock u "END" addr operand errors'])%list
    /\ well_formed_errors errors'.
Proof.
  intros Hwf. unfold pass1_END.
  destruct (isValidSymbol operand errors) as [[valid e]|] eqn:E; cbn [bind];
    [|discriminate].
  apply isValidSymbol_codes in E.
  intros H. apply Ok_inj in H. subst st'. cbn [intermediate].
  do 2 eexists. split; [reflexivity|].
  apply (codes_after_well_formed errors); [exact Hwf|].
  destruct (negb valid && negb (isHexSymbol operand)); known_codes.
Qed.

Lemma pass1_other_errors (st : pass1_state)
    (u label opcode operand errors : string) (st' : pass1_state) :
  well_formed_errors errors ->
  pass1_other st u label opcode operand errors = Ok st' ->
  exists opline addr errors',
    intermediate st'
    = (intermediate st ++ [mkBlock u opline addr operand errors'])%list
    /\ well_formed_errors errors'.
Proof.
  intros Hwf. unfold pass1_other.
  destruct (pass1_label (p1_asm st) label errors) as [[a e1]|] eqn:El;
    cbn [bind]; [|discriminate].
  apply pass1_label_codes in El.
  pose proof (pass1_size_codes opcode operand e1) as Hs.
  destruct (pass1_size opcode operand e1) as [[increment opFound] e2].
  cbn [snd] in Hs.
  intros H. apply Ok_inj in H. subst st'. cbn [intermediate].
  do 3 eexists. split; [reflexivity|].
  apply (codes_after_well_formed errors); [exact Hwf|]. known_codes.
Qed.

Lemma blocks_well_formed_snoc (st st' : pass1_state) (b : block) :
  blocks_well_formed st ->
  intermediate st' = (intermediate st ++ [b])%list ->
  well_formed_errors (errorList b) ->
  blocks_well_formed st'.
Proof.
  unfold blocks_well_formed. intros Hinv Hi Hb b' Hin.
  rewrite Hi in Hin. apply in_app_or in Hin. destruct Hin as [Hin|[<-|[]]].
  - now apply Hinv.
  - exact Hb.
Qed.

Lemma blocks_well_formed_step (st st' : pass1_state) (stop : bool) :
  blocks_well_formed st -> line_step st st' stop -> blocks_well_formed st'.
Proof.
  intros Hinv Hstep.
  assert (Himp : blocks_well_formed (implicit_start st)).
  { unfold blocks_well_formed.
    now rewrite (proj1 (implicit_start_fields st)). }
  destruct Hstep as [|u label operand st' H|u operand st' H
                    |u label opcode operand st' Hs He H].
  - exact Hinv.
  - apply pass1_START_errors in H. destruct H as (addr & e & Hi & Hwf).
    eapply blocks_well_formed_snoc; [exact Hinv | exact Hi | exact Hwf].
  - apply pass1_END_errors in H; [|apply operand_errors_well_formed].
    destruct H as (addr & e & Hi & Hwf).
    eapply blocks_well_formed_snoc; [exact Himp | exact Hi | exact Hwf].
  - apply pass1_other_errors in H; [|apply operand_errors_well_formed].
    destruct H as (opline & addr & e & Hi & Hwf).
    eapply blocks_well_formed_snoc; [exact Himp | exact Hi | exact Hwf].
Qed.

(** X18: Every error list that pass 1 writes to the intermediate file is
    a sequence of four-character codes of the error table, with nothing
    left over: cut into groups of four characters it gives back the
    list, and every group is a key of [errorCodes] (so [reportErrors]
    never has to print its notice for an unknown code). *)
Theorem X18_pass1_error_lists_known (a : Assembler) (lines : list string)
    (a' : Assembler) (blocks : list block) (b : block) :
  pass1 a (Some lines) = Ok (a', blocks) ->
  In b blocks ->
  string_concat (error_codes_of (errorList b)) = errorList b
  /\ forallb known_code (error_codes_of (errorList b)) = true.
Proof.
  unfold pass1.
  destruct (pass1_loop _ lines) as [st|] eqn:Hloop; cbn [bind]; [|discriminate].
  intros H Hin. apply Ok_inj in H. injection H as _ <-.
  assert (Hwf : blocks_well_formed st).
  { destruct (pass1_loop_invariant blocks_well_formed blocks_well_formed)
      with (lines := lines) (st := mkPass1 a [] false false) (st' := st)
      as [Hp|Hp]; try assumption.
    - intros s s' Hs Hstep. exact (blocks_well_formed_step s s' false Hs Hstep).
    - intros s s' Hs Hstep. exact (blocks_well_formed_step s s' true Hs Hstep).
    - intros b' []. }
  destruct (Hwf b Hin) as (l & Hl & Hk).
  rewrite Hl, (error_codes_of_concat l Hk). now split.
Qed.

Lemma X18_witness :
  let r := pass1 (Assembler_new 0) (Some ["P START 1000"; "AB$ LDA 7,X"; " END P"]) in
  exists a' blocks b,
    r = Ok (a', blocks) /\ In b blocks
    /\ errorList b = "00120004"
    /\ string_concat (error_codes_of (errorList b)) = errorList b
    /\ forallb known_code (error_codes_of (errorList b)) = true.
Proof.
  cbv zeta.
  destruct (pass1 (Assembler_new 0)
              (Some ["P START 1000"; "AB$ LDA 7,X"; " END P"]))
    as [[a' blocks]|] eqn:E; [|vm_compute in E; discriminate].
  exists a', blocks.
  assert (Hb : exists b, In b blocks /\ errorList b = "00120004").
  { vm_compute in E. apply Ok_inj in E. injection E as _ <-.
    eexists. split; [right; left; reflexivity | reflexivity]. }
  destruct Hb as (b & Hin & He). exists b.
  split; [reflexivity|]. split; [exact Hin|]. split; [exact He|].
  exact (X18_pass1_error_lists_known _ _ _ _ b E Hin).
Defined.

(** ** util.h: isPrefix *)

Lemma isPrefix_loop_append (a s : string) :
  Util.isPrefix_loop a (a ++ s) = true.
Proof.
  induction a as [|x a IH]; [reflexivity|].
  rewrite append_cons. cbn [Util.isPrefix_loop char_at String.get].
  now rewrite Ascii.eqb_refl.
Qed.

Lemma isPrefix_loop_split (a b : string) :
  (String.length a <= String.length b)%nat ->
  Util.isPrefix_loop a b = true -> exists s, b = a ++ s.
Proof.
  revert b. induction a as [|x a IH]; intros b Hlen H.
  - now exists b.
  - destruct b as [|y b]; [cbn in Hlen; lia|].
    cbn [Util.isPrefix_loop char_at String.get] in H.
    destruct (Ascii.eqb_spec x y) as [->|]; [|discriminate].
    cbn [negb] in H. cbn [String.length] in Hlen.
    destruct (IH b ltac:(lia) H) as [s ->]. now exists s.
Qed.

Lemma isPrefix_iff (a b : string) :
  Util.isPrefix a b = true <-> exists s, b = a ++ s.
Proof.
  unfold Util.isPrefix. split.
  - destruct (Nat.ltb_spec (String.length b) (String.length a)); [discriminate|].
    now apply isPrefix_loop_split.
  - intros [s ->]. rewrite length_append.
    destruct (Nat.ltb_spec (String.length a + String.length s) (String.length a));
      [lia|]. apply isPrefix_loop_append.
Qed.

(** X19: [isPrefix(a, b)] is true exactly when [b] is [a] followed by
    some string; so every string is a prefix of itself, the empty string
    is a prefix of every string, and two strings that are prefixes of
    each other are equal. *)
Theorem X19_isPrefix_characterised (a b : string) :
  (Util.isPrefix a b = true <-> exists s, b = a ++ s)
  /\ Util.isPrefix a a = true
  /\ Util.isPrefix EmptyString b = true
  /\ (Util.isPrefix a b = true -> Util.isPrefix b a = true -> a = b).
Proof.
  split; [apply isPrefix_iff|]. split; [|split].
  - apply isPrefix_iff. exists EmptyString. now rewrite append_empty_r.
  - apply isPrefix_iff. now exists b.
  - intros H1 H2. apply isPrefix_iff in H1. apply isPrefix_iff in H2.
    destruct H1 as [s ->]. destruct H2 as [t H].
    assert (Hl : String.length a
                 = (String.length a + String.length s + String.length t)%nat).
    { rewrite H at 1. now rewrite !length_append. }
    destruct s; [now rewrite append_empty_r|]. cbn [String.length] in Hl. lia.
Qed.

(** ** The interpreter *)

Lemma isPrefix_prefixes (a b : string) :
  Util.isPrefix a b = true -> In a (prefixes b).
Proof.
  intros H. apply isPrefix_iff in H. destruct H as [s ->].
  induction a as [|x a IH]; [destruct s; now left|].
  rewrite append_cons. cbn [prefixes]. right.
  apply in_map_iff. now exists a.
Qed.

Lemma process_loop_selects (commands : list Command.t) (first : string)
    (line : list string) (c : Command.t) :
  In c commands ->
  selects first c = true ->
  (forall c', In c' commands -> selects first c' = true -> c' = c) ->
  Interpreter.process_loop commands first line
  = (true, Command.process c line).
Proof.
  induction commands as [|c0 rest IH]; intros Hin Hsel Huniq; [destruct Hin|].
  cbn [Interpreter.process_loop].
  destruct (selects first c0) eqn:E0.
  - rewrite (Huniq c0 (or_introl eq_refl) E0) in *.
    unfold selects in Hsel. apply andb_prop in Hsel. destruct Hsel as [-> ->].
    reflexivity.
  - assert (Hrest : In c rest).
    { destruct Hin as [->|Hin]; [congruence | exact Hin]. }
    unfold selects in E0.
    destruct (Util.isPrefix first (Command.name c0));
      [cbn [andb] in E0; rewrite E0|];
      (apply IH; [exact Hrest | exact Hsel
                 | intros c' Hc'; apply Huniq; now right]).
Qed.

Lemma loadCommands_unambiguous (first : string) (c1 c2 : Command.t) :
  In c1 loadCommands -> In c2 loadCommands ->
  selects first c1 = true -> selects first c2 = true -> c1 = c2.
Proof.
  intros H1 H2 S1 S2.
  assert (Hp : In first (prefixes (Command.name c1))).
  { unfold selects in S1. apply andb_prop in S1. now apply isPrefix_prefixes. }
  cbv in H1, H2.
  repeat match goal with
         | H : _ \/ _ |- _ => destruct H as [H|H]
         | H : False |- _ => destruct H
         end; subst c1 c2; try reflexivity;
    cbv in Hp;
    repeat match goal with
           | H : _ \/ _ |- _ => destruct H as [H|H]
           | H : False |- _ => destruct H
           end; subst first; vm_compute in S1, S2; discriminate.
Qed.

(** X20: With the commands of [loadCommands], the first word of a line
    selects at most one command: a word that is a prefix of the name of
    a command and at least as long as its tolerance runs that command
    (or prints its parameter error), whatever the other commands and the
    order in which they were added. *)
Theorem X20_command_dispatch_unambiguous (first : string)
    (params : list string) (c : Command.t) :
  In c loadCommands ->
  Util.isPrefix first (Command.name c) = true ->
  Command.nameTolerance c <= Z.of_nat (String.length first) ->
  Interpreter.process loadCommands (first :: params)
  = (true, Command.process c (first :: params))
  /\ forall c', In c' loadCommands -> selects first c' = true -> c' = c.
Proof.
  intros Hin Hp Htol.
  assert (Hsel : selects first c = true).
  { unfold selects. rewrite Hp. cbn [andb]. now apply Z.leb_le. }
  assert (Huniq : forall c', In c' loadCommands -> selects first c' = true -> c' = c).
  { intros c' Hc' Hs'. exact (loadCommands_unambiguous first c' c Hc' Hin Hs' Hsel). }
  split; [|exact Huniq].
  unfold Interpreter.process. cbn [DynamicArray.at_ nth].
  now apply process_loop_selects.
Qed.

Lemma X20_witness :
  Interpreter.process loadCommands ["du"; "0"; "ff"]
  = (true, [Call dump ["du"; "0"; "ff"]])
  /\ forall c', In c' loadCommands -> selects "du" c' = true
                -> c' = Command.mk "dump" 2 2 dump.
Proof.
  apply (X20_command_dispatch_unambiguous "du" ["0"; "ff"]
           (Command.mk "dump" 2 2 dump)).
  - vm_compute. tauto.
  - reflexivity.
  - vm_compute. discriminate.
Defined.

Lemma exit_test (com : string) :
  Util.isPrefix com "exit" && (2 <? String.length com)%nat = is_exit_word com.
Proof.
  destruct (Util.isPrefix com "exit") eqn:E.
  - apply isPrefix_prefixes in E. cbv in E.
    repeat match goal with
           | H : _ \/ _ |- _ => destruct H as [H|H]
           | H : False |- _ => destruct H
           end; subst com; reflexivity.
  - cbn [andb]. symmetry. unfold is_exit_word.
    apply orb_false_intro; apply String.eqb_neq; intros ->; discriminate.
Qed.

Lemma run_line_stop (commands : list Command.t) (line : string) :
  fst (Interpreter.run_line commands line) = negb (no_exit_line line).
Proof.
  unfold Interpreter.run_line, no_exit_line, first_word.
  destruct (Util.parseLine line delims) as [|w rest]; [reflexivity|].
  cbn [length Nat.eqb negb DynamicArray.at_ nth].
  rewrite exit_test.
  destruct (is_exit_word w); [reflexivity|].
  now destruct (Interpreter.process commands (w :: rest)).
Qed.

(** X21: The loop of the interpreter is left exactly on a line whose
    first word is [exi] or [exit], whatever the commands that were
    added (a command of that name would never run) and whatever follows
    the word on the line. *)
Theorem X21_exit_words (commands : list Command.t) (line : string) :
  fst (Interpreter.run_line commands line) = true
  <-> exists w, first_word line = Some w /\ (w = "exi" \/ w = "exit").
Proof.
  rewrite run_line_stop. unfold no_exit_line, is_exit_word.
  destruct (first_word line) as [w|].
  - rewrite negb_involutive. split.
    + intros H. exists w. split; [reflexivity|].
      apply orb_prop in H. destruct H as [H|H]; apply String.eqb_eq in H; tauto.
    + intros (w' & [= <-] & [->| ->]); reflexivity.
  - split; [discriminate|]. intros (w & H & _). discriminate.
Qed.












(** ** dynamic_array.h: the cells *)

Section CellsProperties.

Context {T : Type} (fresh : T).

Lemma read_nat (c : list T) (k : nat) :
  (k < length c)%nat -> Cells.read c (Z.of_nat k) = c !! k.
Proof.
  intros H. unfold Cells.read.
  destruct (Z.leb_spec 0 (Z.of_nat k)); [|lia].
  destruct (Z.ltb_spec (Z.of_nat k) (Z.of_nat (length c))); [|lia].
  cbn [andb]. now rewrite Nat2Z.id.
Qed.

Lemma write_nat (c : list T) (k : nat) (x : T) :
  (k < length c)%nat -> Cells.write c (Z.of_nat k) x = Some (<[k := x]> c).
Proof.
  intros H. unfold Cells.write.
  destruct (Z.leb_spec 0 (Z.of_nat k)); [|lia].
  destruct (Z.ltb_spec (Z.of_nat k) (Z.of_nat (length c))); [|lia].
  cbn [andb]. now rewrite Nat2Z.id.
Qed.

Lemma resize_loop_spec (old : list T) (count : nat) :
  forall (new : list T) (i : nat),
    (i + count <= length old)%nat -> (i + count <= length new)%nat ->
    Cells.resize_loop old new (Z.of_nat i) count
    = Some (take i new ++ take count (drop i old) ++ drop (i + count) new)%list.
Proof.
  induction count as [|k IH]; intros new i Ho Hn.
  - rewrite Nat.add_0_r, take_0, app_nil_l, take_drop. reflexivity.
  - cbn [Cells.resize_loop].
    rewrite read_nat by lia.
    destruct (lookup_lt_is_Some_2 old i ltac:(lia)) as [x Hx]. rewrite Hx.
    rewrite write_nat by lia.
    replace (Z.of_nat i + 1) with (Z.of_nat (S i)) by lia.
    rewrite IH by (rewrite ?length_insert; lia).
    f_equal.
    rewrite take_S_r with (x := x) by (apply list_lookup_insert_eq; lia).
    rewrite take_insert_ge by lia.
    rewrite drop_insert_lt by lia.
    rewrite (drop_S old x i Hx). cbn [take].
    rewrite <- !app_assoc. cbn [app].
    now replace (S i + k)%nat with (i + S k)%nat by lia.
Qed.

Lemma Cells_resize_spec (d : Cells.t T) (newSize : Z) :
  0 <= Cells.numberOfElements d <= Z.of_nat (length (Cells.container d)) ->
  Cells.numberOfElements d <= newSize ->
  exists c,
    Cells.resize fresh d newSize = Some (Cells.mk (Cells.numberOfElements d) newSize c)
    /\ Z.of_nat (length c) = newSize
    /\ take (Z.to_nat (Cells.numberOfElements d)) c
       = take (Z.to_nat (Cells.numberOfElements d)) (Cells.container d).
Proof.
  intros Hn Hs. unfold Cells.resize.
  change 0 with (Z.of_nat 0).
  rewrite resize_loop_spec
    by (unfold Cells.new_array; rewrite ?length_replicate; lia).
  eexists. split; [reflexivity|].
  rewrite take_0, drop_0, app_nil_l. cbn [Nat.add]. unfold Cells.new_array.
  split.
  - rewrite length_app, length_take, length_drop, length_replicate. lia.
  - rewrite take_app_length'; [reflexivity|]. rewrite length_take. lia.
Qed.

Lemma shift_loop_spec (count : nat) :
  forall c : list T,
    (count < length c)%nat ->
    Cells.shift_loop c count
    = Some (take 1 c ++ take count c ++ drop (S count) c)%list.
Proof.
  induction count as [|k IH]; intros c Hc.
  - rewrite take_0, app_nil_l, take_drop. reflexivity.
  - cbn [Cells.shift_loop].
    rewrite read_nat by lia.
    destruct (lookup_lt_is_Some_2 c k ltac:(lia)) as [x Hx]. rewrite Hx.
    replace (Z.of_nat k + 1) with (Z.of_nat (S k)) by lia.
    rewrite write_nat by lia.
    rewrite IH by (rewrite length_insert; lia).
    f_equal.
    rewrite !take_insert_ge by lia.
    rewrite (take_S_r c k x Hx).
    rewrite (drop_S (<[S k := x]> c) x (S k))
      by (apply list_lookup_insert_eq; lia).
    rewrite drop_insert_lt by lia.
    now rewrite <- !app_assoc.
Qed.

Lemma pad_loop_spec (entry : T) (count : nat) :
  forall (c : list T) (i : nat),
    (i + count <= length c)%nat ->
    Cells.pad_loop c entry (Z.of_nat i) count
    = Some (take i c ++ replicate count entry ++ drop (i + count) c)%list.
Proof.
  induction count as [|k IH]; intros c i Hc.
  - rewrite Nat.add_0_r. cbn [replicate app Cells.pad_loop].
    now rewrite take_drop.
  - cbn [Cells.pad_loop]. rewrite write_nat by lia.
    replace (Z.of_nat i + 1) with (Z.of_nat (S i)) by lia.
    rewrite IH by (rewrite length_insert; lia).
    f_equal.
    rewrite take_S_r with (x := entry) by (apply list_lookup_insert_eq; lia).
    rewrite take_insert_ge by lia.
    rewrite drop_insert_lt by lia.
    rewrite <- !app_assoc. cbn [app replicate].
    now replace (S i + k)%nat with (i + S k)%nat by lia.
Qed.

End CellsProperties.

Section CellsOperations.

Context {T : Type} (fresh : T).

Lemma to_unsigned_small (z : Z) :
  0 <= z < 4294967296 -> to_unsigned z = z.
Proof. intros H. unfold to_unsigned. now apply Z.mod_small. Qed.

Lemma grow_spec (k : nat) (cap : Z) (c : list T) :
  Z.of_nat k <= cap -> 0 < cap < 2147483648 -> Z.of_nat (length c) = cap ->
  exists cap' c',
    Cells.grow fresh (Cells.mk (Z.of_nat k) cap c)
    = Some (Cells.mk (Z.of_nat k) cap' c')
    /\ Z.of_nat k < cap'
    /\ Z.of_nat (length c') = cap'
    /\ take k c' = take k c
    /\ (cap' = cap \/ (cap' = 2 * cap /\ Z.of_nat k = cap)).
Proof.
  intros Hk Hcap Hlen. unfold Cells.grow.
  cbn [Cells.numberOfElements Cells.capacity].
  destruct (Z.eqb_spec (Z.of_nat k) cap) as [E|E].
  - rewrite to_unsigned_small by lia.
    destruct (Cells_resize_spec fresh (Cells.mk (Z.of_nat k) cap c) (cap * 2))
      as (c' & Hr & Hl & Ht); cbn [Cells.numberOfElements Cells.container]; try lia.
    cbn [Cells.numberOfElements Cells.container] in Hr, Ht.
    rewrite Nat2Z.id in Ht.
    exists (cap * 2), c'. repeat split; try assumption; try lia.
  - exists cap, c. repeat split; try assumption; try lia.
Qed.

Lemma push_back_spec (entry : T) (d : Cells.t T) :
  Cells.well_formed d -> Cells.capacity d < 2147483648 ->
  exists d',
    Cells.push_back fresh entry d = Some d'
    /\ Cells.well_formed d'
    /\ Cells.elements d' = (Cells.elements d ++ [entry])%list
    /\ Cells.numberOfElements d' = Cells.numberOfElements d + 1
    /\ (Cells.capacity d' = Cells.capacity d
        \/ (Cells.capacity d' = 2 * Cells.capacity d
            /\ Cells.numberOfElements d + 1 = Cells.capacity d)).
Proof.
  destruct d as [n cap c]. unfold Cells.well_formed, Cells.elements.
  cbn [Cells.numberOfElements Cells.capacity Cells.container].
  intros [Hn Hlen] Hcap.
  assert (Hk : n = Z.of_nat (Z.to_nat n)) by lia.
  set (k := Z.to_nat n) in *. clearbody k. subst n.
  unfold Cells.push_back.
  cbn [Cells.numberOfElements Cells.capacity Cells.container].
  rewrite write_nat by lia. rewrite to_unsigned_small by lia.
  replace (Z.of_nat k + 1) with (Z.of_nat (S k)) by lia.
  destruct (grow_spec (S k) cap (<[k := entry]> c))
    as (cap' & c' & Hg & Hlt & Hl & Ht & Hc);
    rewrite ?length_insert; try lia.
  rewrite Hg. eexists. split; [reflexivity|].
  cbn [Cells.numberOfElements Cells.capacity Cells.container].
  rewrite !Nat2Z.id. split; [split; [lia | exact Hl]|].
  split.
  - rewrite Ht. rewrite take_S_r with (x := entry)
      by (apply list_lookup_insert_eq; lia).
    now rewrite take_insert_ge by lia.
  - split; [reflexivity|]. lia.
Qed.

Lemma push_front_spec (entry : T) (d : Cells.t T) :
  Cells.well_formed d -> Cells.capacity d < 2147483648 ->
  exists d',
    Cells.push_front fresh entry d = Some d'
    /\ Cells.well_formed d'
    /\ Cells.elements d' = entry :: Cells.elements d
    /\ Cells.numberOfElements d' = Cells.numberOfElements d + 1.
Proof.
  destruct d as [n cap c]. unfold Cells.well_formed, Cells.elements.
  cbn [Cells.numberOfElements Cells.capacity Cells.container].
  intros [Hn Hlen] Hcap.
  assert (Hk : n = Z.of_nat (Z.to_nat n)) by lia.
  set (k := Z.to_nat n) in *. clearbody k. subst n.
  unfold Cells.push_front.
  cbn [Cells.numberOfElements Cells.capacity Cells.container].
  rewrite Nat2Z.id. rewrite shift_loop_spec by lia.
  set (c1 := (take 1 c ++ take k c ++ drop (S k) c)%list).
  assert (Hl1 : length c1 = length c).
  { unfold c1. rewrite !length_app, !length_take, length_drop. lia. }
  change 0 with (Z.of_nat 0). rewrite write_nat by lia.
  rewrite to_unsigned_small by lia.
  replace (Z.of_nat k + 1) with (Z.of_nat (S k)) by lia.
  destruct (grow_spec (S k) cap (<[0%nat := entry]> c1))
    as (cap' & c' & Hg & Hlt & Hl & Ht & Hc);
    rewrite ?length_insert; try lia.
  rewrite Hg. eexists. split; [reflexivity|].
  cbn [Cells.numberOfElements Cells.capacity Cells.container].
  rewrite !Nat2Z.id. split; [split; [lia | exact Hl]|].
  split; [|reflexivity].
  rewrite Ht. unfold c1.
  destruct c as [|x0 c0]; [cbn in Hlen; lia|].
  cbn [take app]. rewrite take_0. cbn [app].
  change (<[0%nat := entry]> (x0 :: ?l)) with (entry :: l).
  cbn [take]. f_equal.
  rewrite take_app_length'; [reflexivity|].
  rewrite length_take. cbn [length] in Hlen. cbn [length]. lia.
Qed.

Lemma pad_spec (entry : T) (d : Cells.t T) :
  Cells.well_formed d -> Cells.capacity d < 2147483648 ->
  exists c,
    Cells.pad entry d
    = Some (Cells.mk (Cells.numberOfElements d) (Cells.capacity d) c)
    /\ Z.of_nat (length c) = Cells.capacity d
    /\ take (Z.to_nat (Cells.capacity d) - 1) c
       = (Cells.elements d
          ++ replicate (Z.to_nat (Cells.capacity d) - 1
                        - Z.to_nat (Cells.numberOfElements d)) entry)%list.
Proof.
  destruct d as [n cap c]. unfold Cells.well_formed, Cells.elements.
  cbn [Cells.numberOfElements Cells.capacity Cells.container].
  intros [Hn Hlen] Hcap.
  assert (Hk : n = Z.of_nat (Z.to_nat n)) by lia.
  set (k := Z.to_nat n) in *. clearbody k. subst n.
  unfold Cells.pad.
  cbn [Cells.numberOfElements Cells.capacity Cells.container].
  rewrite to_unsigned_small by lia.
  rewrite pad_loop_spec by lia.
  eexists. split; [reflexivity|].
  replace (Z.to_nat (cap - 1 - Z.of_nat k)) with (Z.to_nat cap - 1 - k)%nat by lia.
  rewrite ?Nat2Z.id. split.
  - rewrite !length_app, length_take, length_replicate, length_drop. lia.
  - rewrite app_assoc. rewrite take_app_length'; [reflexivity|].
    rewrite length_app, length_take, length_replicate. lia.
Qed.

Lemma at_elements (d : Cells.t T) (i : nat) :
  Cells.well_formed d ->
  Z.of_nat i < Cells.numberOfElements d ->
  Cells.at_ d (Z.of_nat i) = Cells.elements d !! i.
Proof.
  unfold Cells.well_formed, Cells.at_, Cells.elements. intros [Hn Hlen] Hi.
  rewrite read_nat by lia. now rewrite lookup_take_lt by lia.
Qed.

Lemma swap_spec (c : list T) (i j : nat) (y : T) :
  (i < length c)%nat -> c !! j = Some y ->
  Cells.swap c (Z.of_nat i) (Z.of_nat j) = Some (<[i := y]> c).
Proof.
  intros Hi Hj. pose proof (lookup_lt_Some c j y Hj) as Hlt.
  unfold Cells.swap. rewrite read_nat by lia. rewrite Hj.
  rewrite write_nat by lia.
  rewrite read_nat by (rewrite length_insert; lia).
  rewrite list_lookup_insert_eq by lia.
  rewrite write_nat by (rewrite length_insert; lia).
  f_equal. apply list_insert_id.
  destruct (Nat.eq_dec j i) as [->|Hne].
  - now apply list_lookup_insert_eq.
  - now rewrite list_lookup_insert_ne by congruence.
Qed.

Lemma remove_at_spec (m : nat) (cap : Z) (c : list T) (j : nat) (y : T) :
  (j <= m)%nat -> Z.of_nat (S m) < cap -> cap < 2147483648 ->
  Z.of_nat (length c) = cap -> c !! m = Some y ->
  exists d',
    Cells.remove_at fresh (Cells.mk (Z.of_nat (S m)) cap c) (Z.of_nat j) = Some d'
    /\ Cells.well_formed d'
    /\ Cells.numberOfElements d' = Z.of_nat m
    /\ Cells.elements d' = take m (<[j := y]> c).
Proof.
  intros Hj Hm Hcap Hlen Hy. unfold Cells.remove_at.
  cbn [Cells.numberOfElements Cells.capacity Cells.container].
  replace (Z.of_nat (S m) - 1) with (Z.of_nat m) by lia.
  rewrite (swap_spec c j m y) by (assumption || lia).
  rewrite to_unsigned_small by lia.
  destruct ((Cells.minCapacity <? Z.of_nat m) && (Z.of_nat m <=? cap / 4)) eqn:E.
  - apply andb_prop in E. destruct E as [E1 E2].
    apply Z.ltb_lt in E1. apply Z.leb_le in E2. unfold Cells.minCapacity in E1.
    assert (Hhalf : Z.of_nat m < cap / 2) by (Z.div_mod_to_equations; lia).
    destruct (Cells_resize_spec fresh
                (Cells.mk (Z.of_nat m) cap (<[j := y]> c)) (cap / 2))
      as (c' & Hr & Hl & Ht);
      cbn [Cells.numberOfElements Cells.container];
      rewrite ?length_insert; try lia.
    cbn [Cells.numberOfElements Cells.container] in Hr, Ht.
    rewrite Hr. eexists. split; [reflexivity|].
    unfold Cells.well_formed, Cells.elements.
    cbn [Cells.numberOfElements Cells.capacity Cells.container].
    rewrite Nat2Z.id in *. repeat split; try assumption; lia.
  - eexists. split; [reflexivity|].
    unfold Cells.well_formed, Cells.elements.
    cbn [Cells.numberOfElements Cells.capacity Cells.container].
    rewrite Nat2Z.id, length_insert. repeat split; try assumption; lia.
Qed.

End CellsOperations.

Section CellsRemove.

Context {T : Type} (fresh : T) (eqb : T -> T -> bool).

Lemma take_drop_cons (c : list T) (i count : nat) (y : T) (rest : list T) :
  take count (drop i c) = y :: rest ->
  exists k, count = S k /\ c !! i = Some y /\ take k (drop (S i) c) = rest.
Proof.
  intros H. destruct count as [|k]; [rewrite take_0 in H; discriminate|].
  exists k. split; [reflexivity|].
  destruct (drop i c) as [|y' l'] eqn:E; [discriminate|].
  cbn [take] in H. injection H as -> Hrest.
  assert (Hl : c !! i = Some y).
  { pose proof (lookup_drop c i 0) as Hd. rewrite E in Hd. cbn in Hd.
    now rewrite Nat.add_0_r in Hd. }
  split; [exact Hl|].
  rewrite (drop_S c y i Hl) in E. injection E as <-. exact Hrest.
Qed.

Lemma remove_loop_absent (d : Cells.t T) (target : T) (count : nat) :
  forall i : nat,
    (i + count <= length (Cells.container d))%nat ->
    forallb (differs eqb target) (take count (drop i (Cells.container d))) = true ->
    Cells.remove_loop fresh eqb d target (Z.of_nat i) count = Some d.
Proof.
  induction count as [|k IH]; intros i Hlen Hall; [reflexivity|].
  cbn [Cells.remove_loop]. rewrite read_nat by lia.
  destruct (lookup_lt_is_Some_2 (Cells.container d) i ltac:(lia)) as [y Hy].
  rewrite Hy. rewrite (drop_S _ y i Hy) in Hall.
  cbn [take forallb] in Hall. apply andb_prop in Hall. destruct Hall as [H1 H2].
  unfold differs in H1. apply negb_true_iff in H1. rewrite H1.
  replace (Z.of_nat i + 1) with (Z.of_nat (S i)) by lia.
  apply IH; [lia | exact H2].
Qed.

Lemma remove_loop_found (d : Cells.t T) (target : T) (l1 : list T) :
  forall (i count : nat) (x : T) (l2 : list T),
    take count (drop i (Cells.container d)) = (l1 ++ x :: l2)%list ->
    forallb (differs eqb target) l1 = true ->
    eqb x target = true ->
    Cells.remove_loop fresh eqb d target (Z.of_nat i) count
    = Cells.remove_at fresh d (Z.of_nat (i + length l1)).
Proof.
  induction l1 as [|y l1 IH]; intros i count x l2 Hc Hall Hx.
  - cbn [app] in Hc. apply take_drop_cons in Hc.
    destruct Hc as (k & -> & Hi & _).
    cbn [Cells.remove_loop length].
    rewrite read_nat by (eapply lookup_lt_Some; eassumption).
    rewrite Hi, Hx. now rewrite Nat.add_0_r.
  - cbn [app] in Hc. apply take_drop_cons in Hc.
    destruct Hc as (k & -> & Hi & Hrest).
    cbn [forallb] in Hall. apply andb_prop in Hall. destruct Hall as [H1 H2].
    unfold differs in H1. apply negb_true_iff in H1.
    cbn [Cells.remove_loop length].
    rewrite read_nat by (eapply lookup_lt_Some; eassumption).
    rewrite Hi, H1.
    replace (Z.of_nat i + 1) with (Z.of_nat (S i)) by lia.
    rewrite (IH (S i) k x l2 Hrest H2 Hx).
    now replace (S i + length l1)%nat with (i + S (length l1))%nat by lia.
Qed.

Lemma last_first_snoc (init : list T) (z : T) :
  last_first (init ++ [z]) = z :: init.
Proof.
  unfold last_first. rewrite reverse_snoc. now rewrite reverse_involutive.
Qed.

Lemma removed_elements (c l1 l2 : list T) (x y : T) (m : nat) :
  take (S m) c = (l1 ++ x :: l2)%list ->
  c !! m = Some y ->
  take m (<[length l1 := y]> c) = (l1 ++ last_first l2)%list
  /\ Permutation (l1 ++ x :: l2) (x :: l1 ++ last_first l2).
Proof.
  intros Ht Hy.
  assert (Hlen : S m = (length l1 + S (length l2))%nat).
  { pose proof (lookup_lt_Some c m y Hy) as Hlt.
    apply (f_equal length) in Ht.
    rewrite length_take, length_app in Ht. cbn [length] in Ht. lia. }
  assert (Hc : c = ((l1 ++ x :: l2) ++ drop (S m) c)%list).
  { rewrite <- Ht. now rewrite take_drop. }
  destruct l2 as [|z0 l2'] using rev_ind.
  - cbn [length] in Hlen. assert (m = length l1) by lia. subst m.
    unfold last_first. cbn [reverse rev_append]. rewrite app_nil_r.
    split.
    + rewrite take_insert_ge by lia.
      rewrite Hc. rewrite <- app_assoc. now rewrite take_app_length.
    + symmetry. apply Permutation_cons_append.
  - clear IHl2'. rewrite last_first_snoc.
    rewrite length_app in Hlen. cbn [length] in Hlen.
    assert (Hm : m = (length l1 + S (length l2'))%nat) by lia.
    assert (Hyz : y = z0).
    { rewrite Hc in Hy.
      rewrite lookup_app_l in Hy
        by (rewrite length_app; cbn [length]; rewrite length_app; cbn [length]; lia).
      rewrite lookup_app_r in Hy by lia.
      replace (m - length l1)%nat with (S (length l2')) in Hy by lia.
      rewrite lookup_cons in Hy.
      rewrite lookup_app_r in Hy by lia.
      rewrite Nat.sub_diag in Hy. now injection Hy. }
    subst y. split.
    + rewrite Hc. rewrite <- !app_assoc.
      rewrite insert_app_r_alt by lia. rewrite Nat.sub_diag.
      cbn [app]. change (<[0%nat := z0]> (x :: ?l)) with (z0 :: l).
      rewrite take_app_ge by lia.
      replace (m - length l1)%nat with (S (length l2')) by lia.
      cbn [take]. rewrite <- app_assoc. now rewrite take_app_length.
    + rewrite <- Permutation_middle. apply perm_skip.
      apply Permutation_app_head.
      rewrite <- Permutation_cons_append. reflexivity.
Qed.

End CellsRemove.

Section CellsTheorems.

Context {T : Type} (fresh : T) (eqb : T -> T -> bool).


(** X24: [remove] leaves the array as it is when no element equals the
    target; otherwise it takes out the first element that equals it by
    putting the last element in its place (the order of the others is
    kept, the self-referencing [swap] loses no element), so that the
    old elements are the removed one and the new ones. *)
Theorem X24_remove_first_match (target : T) (d : Cells.t T) :
  Cells.well_formed d -> Cells.capacity d < 2147483648 ->
  (forallb (differs eqb target) (Cells.elements d) = true ->
   Cells.remove fresh eqb target d = Some d)
  /\ (forall (l1 l2 : list T) (x : T),
         Cells.elements d = (l1 ++ x :: l2)%list ->
         forallb (differs eqb target) l1 = true ->
         eqb x target = true ->
         exists d',
           Cells.remove fresh eqb target d = Some d'
           /\ Cells.well_formed d'
           /\ Cells.elements d' = (l1 ++ last_first l2)%list
           /\ Permutation (Cells.elements d) (x :: Cells.elements d')).
Proof.
  intros Hwf Hcap. pose proof Hwf as [Hn Hlen]. split.
  - intros Hall. unfold Cells.remove. change 0 with (Z.of_nat 0).
    apply remove_loop_absent; [lia|]. now rewrite drop_0.
  - intros l1 l2 x He Hall Hx. unfold Cells.remove. change 0 with (Z.of_nat 0).
    unfold Cells.elements in He.
    rewrite (remove_loop_found fresh eqb d target l1 0
               (Z.to_nat (Cells.numberOfElements d)) x l2)
      by (rewrite ?drop_0; assumption).
    cbn [Nat.add].
    assert (Hcount : Z.to_nat (Cells.numberOfElements d)
                     = (length l1 + S (length l2))%nat).
    { apply (f_equal length) in He.
      rewrite length_take, length_app in He. cbn [length] in He. lia. }
    set (m := (length l1 + length l2)%nat).
    assert (Hm : Cells.numberOfElements d = Z.of_nat (S m)) by (unfold m; lia).
    destruct (lookup_lt_is_Some_2 (Cells.container d) m ltac:(lia)) as [y Hy].
    destruct d as [n cap c].
    cbn [Cells.numberOfElements Cells.capacity Cells.container] in *.
    subst n.
    destruct (remove_at_spec fresh m cap c (length l1) y)
      as (d' & Hr & Hwf' & Hn' & He'); try assumption; try (unfold m; lia).
    exists d'. split; [exact Hr|]. split; [exact Hwf'|].
    rewrite Nat2Z.id in He.
    destruct (removed_elements c l1 l2 x y m He Hy) as [H1 H2].
    split; [now rewrite He', H1|].
    unfold Cells.elements at 1.
    cbn [Cells.numberOfElements Cells.container].
    now rewrite Nat2Z.id, He, He', H1.
Qed.

End CellsTheorems.


Lemma X24_witness :
  exists d d',
    Cells.push_all EmptyString ["help"; "dump"; "load"; "dir"]
      (Cells.new_ EmptyString) = Some d
    /\ Cells.remove EmptyString String.eqb "dump" d = Some d'
    /\ Cells.elements d' = ["help"; "dir"; "load"].
Proof.
  destruct (Cells.push_all EmptyString ["help"; "dump"; "load"; "dir"]
              (Cells.new_ EmptyString)) as [d|] eqn:E;
    [|vm_compute in E; discriminate].
  assert (Hd : Cells.well_formed d /\ Cells.capacity d < 2147483648
               /\ Cells.elements d = ["help"; "dump"; "load"; "dir"]).
  { vm_compute in E. injection E as <-. vm_compute.
    repeat split; discriminate. }
  destruct Hd as (Hwf & Hcap & He).
  destruct (proj2 (X24_remove_first_match EmptyString String.eqb "dump" d Hwf Hcap)
              ["help"] ["load"; "dir"] "dump" He eq_refl eq_refl)
    as (d' & Hr & _ & He' & _).
  exists d, d'. split; [reflexivity|]. split; [exact Hr | exact He'].
Defined.

(** ** The cells behind the columns of [getColumns] *)

Lemma push_all_spec {T : Type} (fresh : T) (entries : list T) :
  forall d : Cells.t T,
    Cells.well_formed d ->
    16 <= Cells.capacity d <= Z.max 16 (2 * Cells.numberOfElements d) ->
    Cells.numberOfElements d + Z.of_nat (length entries) < 1073741824 ->
    exists d',
      Cells.push_all fresh entries d = Some d'
      /\ Cells.well_formed d'
      /\ 16 <= Cells.capacity d' < 2147483648
      /\ Cells.numberOfElements d'
         = Cells.numberOfElements d + Z.of_nat (length entries)
      /\ Cells.elements d' = (Cells.elements d ++ entries)%list.
Proof.
  induction entries as [|entry rest IH]; intros d Hwf Hcap Hn.
  - exists d. cbn [Cells.push_all length] in *. rewrite app_nil_r.
    repeat split; try assumption; try apply Hwf; lia.
  - cbn [length] in Hn. cbn [Cells.push_all].
    destruct (push_back_spec fresh entry d Hwf ltac:(lia))
      as (d1 & Hp & Hwf1 & He1 & Hn1 & Hc1).
    rewrite Hp.
    destruct (IH d1 Hwf1 ltac:(lia) ltac:(lia))
      as (d' & Hall & Hwf' & Hcap' & Hn' & He').
    exists d'. split; [exact Hall|]. split; [exact Hwf'|].
    split; [exact Hcap'|]. split; [cbn [length]; lia|].
    rewrite He', He1. now rewrite <- app_assoc.
Qed.

Lemma take4_padded {T : Type} (e : T) (l : list T) (m : nat) :
  (4 <= length l + m)%nat ->
  take 4 (l ++ replicate m e) = take 4 (l ++ [e; e; e; e]).
Proof.
  intros H.
  destruct l as [|a [|b [|c [|d l]]]]; cbn [length] in H;
    repeat first [reflexivity | destruct m as [|m]; [lia|]].
Qed.

Lemma parseLine_loop_length (delims line token : string) :
  (length (Util.parseLine_loop delims line token) <= String.length line)%nat.
Proof.
  revert token. induction line as [|c rest IH]; intros token; [reflexivity|].
  cbn [Util.parseLine_loop String.length].
  destruct (_ && _); cbn [length].
  - specialize (IH EmptyString). lia.
  - match goal with
    | |- (length (Util.parseLine_loop _ _ ?t) <= _)%nat => specialize (IH t)
    end. lia.
Qed.

Lemma columns_of_cells_lists (tokens : list string) (blank : bool) :
  Z.of_nat (length tokens) < 1073741824 ->
  let parsedLine :=
    if blank
    then DynamicArray.push_front EmptyString (DynamicArray.pad_forceSize4 tokens)
    else DynamicArray.pad_forceSize4 tokens in
  columns_of_cells tokens blank
  = Some (Some (DynamicArray.at_ parsedLine 0),
          Some (DynamicArray.at_ parsedLine 1),
          Some (DynamicArray.at_ parsedLine 2)).
Proof.
  intros Hlen parsedLine. unfold columns_of_cells.
  destruct (push_all_spec EmptyString tokens (Cells.new_ EmptyString))
    as (d & Hall & Hwf & Hcap & Hn & He).
  { split; [cbv; split; [discriminate | reflexivity] | reflexivity]. }
  { cbv. split; discriminate. }
  { cbn [Cells.new_ Cells.numberOfElements]. lia. }
  rewrite Hall.
  change (Cells.elements (Cells.new_ EmptyString)) with (@nil string) in He.
  cbn [app] in He.
  cbn [Cells.new_ Cells.numberOfElements] in Hn.
  destruct (pad_spec (T := string) EmptyString d Hwf ltac:(lia))
    as (c & Hpad & Hlc & Htake).
  rewrite Hpad.
  set (d2 := Cells.forceSize 4
               (Cells.mk (Cells.numberOfElements d) (Cells.capacity d) c)).
  assert (Hd2 : d2 = Cells.mk 4 (Cells.capacity d) c).
  { unfold d2, Cells.forceSize. cbn [Cells.capacity Cells.container].
    destruct (Z.ltb_spec 4 (Cells.capacity d)); [reflexivity | lia]. }
  assert (Hwf2 : Cells.well_formed d2).
  { rewrite Hd2. split; cbn [Cells.numberOfElements Cells.capacity Cells.container];
      [lia | exact Hlc]. }
  assert (He2 : Cells.elements d2 = DynamicArray.pad_forceSize4 tokens).
  { rewrite Hd2. unfold Cells.elements, DynamicArray.pad_forceSize4.
    cbn [Cells.numberOfElements Cells.container].
    change (Z.to_nat 4) with 4%nat.
    replace (take 4 c) with (take 4 (take (Z.to_nat (Cells.capacity d) - 1) c))
      by (rewrite take_take; f_equal; lia).
    rewrite Htake, He. apply take4_padded. lia. }
  assert (Hl4 : length (DynamicArray.pad_forceSize4 tokens) = 4%nat).
  { unfold DynamicArray.pad_forceSize4. rewrite length_take, length_app.
    cbn [length]. lia. }
  assert (Hat : forall (d3 : Cells.t string) (L : list string) (i : nat),
             Cells.well_formed d3 -> Cells.elements d3 = L ->
             Z.of_nat i < Cells.numberOfElements d3 ->
             Cells.at_ d3 (Z.of_nat i) = Some (DynamicArray.at_ L i)).
  { intros d3 L i Hwf3 He3 Hi. rewrite at_elements by assumption.
    rewrite He3. unfold DynamicArray.at_. rewrite nth_lookup.
    destruct (lookup_lt_is_Some_2 L i) as [v Hv]; [|now rewrite Hv].
    rewrite <- He3. unfold Cells.elements. rewrite length_take.
    destruct Hwf3. lia. }
  destruct blank.
  - destruct (push_front_spec EmptyString EmptyString d2 Hwf2)
      as (d3 & Hpf & Hwf3 & He3 & Hn3).
    { rewrite Hd2. cbn [Cells.capacity]. lia. }
    rewrite Hpf. rewrite He2 in He3.
    assert (Hn5 : Cells.numberOfElements d3 = 5)
      by (rewrite Hn3, Hd2; reflexivity).
    pose proof (Hat d3 parsedLine 0%nat Hwf3 He3 ltac:(lia)) as H0.
    pose proof (Hat d3 parsedLine 1%nat Hwf3 He3 ltac:(lia)) as H1.
    pose proof (Hat d3 parsedLine 2%nat Hwf3 He3 ltac:(lia)) as H2.
    change (Z.of_nat 0) with 0 in H0. change (Z.of_nat 1) with 1 in H1.
    change (Z.of_nat 2) with 2 in H2. now rewrite H0, H1, H2.
  - assert (Hn4 : Cells.numberOfElements d2 = 4) by now rewrite Hd2.
    pose proof (Hat d2 parsedLine 0%nat Hwf2 He2 ltac:(lia)) as H0.
    pose proof (Hat d2 parsedLine 1%nat Hwf2 He2 ltac:(lia)) as H1.
    pose proof (Hat d2 parsedLine 2%nat Hwf2 He2 ltac:(lia)) as H2.
    change (Z.of_nat 0) with 0 in H0. change (Z.of_nat 1) with 1 in H1.
    change (Z.of_nat 2) with 2 in H2. now rewrite H0, H1, H2.
Qed.

(** X25: The columns that [getColumns] returns are the cells 0, 1 and 2
    of the array of the tokens after [pad], [forceSize(4)] and, on a
    line that starts with a delimiter, [push_front]: every access stays
    inside the allocated cells, whatever the number of tokens and of
    reallocations. *)
Theorem X25_getColumns_reads_cells (srcLine : string)
    (u label opcode operand : string) :
  Z.of_nat (String.length srcLine) < 1073741824 ->
  getColumns srcLine delims = Ok (u, label, opcode, operand) ->
  columns_of_cells (Util.parseLine u delims)
    (Util.findChar delims (char_at u 0))
  = Some (Some label, Some opcode, Some operand).
Proof.
  intros Hlen. unfold getColumns.
  destruct (Util.toUpperCase srcLine) as [|c0 rest] eqn:Eu; [discriminate|].
  remember (Util.findChar delims c0) as blank eqn:Hb.
  intros H. apply Ok_inj in H. injection H as <- <- <- <-.
  rewrite columns_of_cells_lists.
  - cbn [char_at String.get]. rewrite <- Hb. now destruct blank.
  - pose proof (parseLine_loop_length delims (String c0 rest) EmptyString) as Hp.
    unfold Util.parseLine. rewrite <- Eu in Hp at 2.
    rewrite toUpperCase_length in Hp. lia.
Qed.

Lemma X25_witness :
  columns_of_cells (Util.parseLine "  LDA ALPHA,X  LOAD" delims) true
  = Some (Some EmptyString, Some "LDA", Some "ALPHA,X").
Proof.
  apply (X25_getColumns_reads_cells "  lda alpha,x  load"
           "  LDA ALPHA,X  LOAD" EmptyString "LDA" "ALPHA,X").
  - vm_compute. reflexivity.
  - vm_compute. reflexivity.
Defined.

(** ** sic.cpp: the loader reads what pass 2 writes *)

Lemma valid_digits_append (base : Z) (s t : string) :
  valid_digits base (s ++ t) = valid_digits base s && valid_digits base t.
Proof. unfold valid_digits. apply string_forallb_append. Qed.

Lemma horner_append (base : Z) (s t : string) (acc : Z) :
  horner base acc (s ++ t) = horner base (horner base acc s) t.
Proof.
  revert acc. induction s as [|c s IH]; intros acc; [reflexivity|].
  rewrite append_cons. cbn [horner]. apply IH.
Qed.

Lemma digit_value_upper (c : ascii) :
  digit_value (Util.upper_char c) = digit_value c.
Proof.
  unfold digit_value. now destruct (upper_char_facts c) as (-> & _).
Qed.

Lemma valid_digits_toUpperCase (base : Z) (s : string) :
  valid_digits base (Util.toUpperCase s) = valid_digits base s.
Proof.
  unfold valid_digits. induction s as [|c s IH]; [reflexivity|].
  cbn [Util.toUpperCase string_forallb].
  rewrite IH, digit_value_upper.
  now destruct (upper_char_facts c) as (-> & _).
Qed.

Lemma horner_toUpperCase (base : Z) (s : string) (acc : Z) :
  horner base acc (Util.toUpperCase s) = horner base acc s.
Proof.
  revert acc. induction s as [|c s IH]; intros acc; [reflexivity|].
  cbn [Util.toUpperCase horner]. now rewrite digit_value_upper, IH.
Qed.

Lemma fill_zero_digits (n : nat) :
  valid_digits 16 (fill_string n "0") = true
  /\ forall acc, horner 16 acc (fill_string n "0") = acc * 16 ^ Z.of_nat n.
Proof.
  induction n as [|n [IH1 IH2]]; [split; [reflexivity | intros; cbn; lia]|].
  split.
  - unfold valid_digits in *. cbn [fill_string string_forallb].
    now rewrite IH1.
  - intros acc. cbn [fill_string horner]. rewrite IH2.
    change (digit_value "0") with 0.
    rewrite Nat2Z.inj_succ, Z.pow_succ_r by lia. ring.
Qed.

(** A field of at most six hex digits, padded as the records have it,
    is read back by [stringToInt] as the same number. *)
Lemma padded_value (s : string) :
  (String.length s <= 6)%nat -> valid_digits 16 s = true ->
  let field := pad_right_adjust basicPadding "0" s in
  String.length field = 6%nat
  /\ Util.stringToInt field 16 = Some (horner 16 0 s).
Proof.
  intros Hlen Hvalid field.
  assert (Hl : String.length field = 6%nat).
  { unfold field. now apply pad_right_adjust_length. }
  split; [exact Hl|].
  assert (Hv : valid_digits 16 field = true).
  { unfold field, pad_right_adjust.
    rewrite valid_digits_append, Hvalid.
    now rewrite (proj1 (fill_zero_digits _)). }
  assert (Hh : horner 16 0 field = horner 16 0 s).
  { unfold field, pad_right_adjust.
    now rewrite horner_append, (proj2 (fill_zero_digits _)). }
  unfold Util.stringToInt.
  destruct field as [|c f] eqn:E; [discriminate|]. cbn [is_empty].
  rewrite stringToInt_loop_value; try assumption; try lia.
  - now rewrite Hh.
  - rewrite Hl. vm_compute. discriminate.
Qed.

Lemma padded_field_value (s : string) :
  (String.length s <= 6)%nat -> valid_digits 16 s = true ->
  let field := pad_right_adjust basicPadding "0" (Util.toUpperCase s) in
  String.length field = 6%nat
  /\ Util.stringToInt field 16 = Some (horner 16 0 s).
Proof.
  intros Hlen Hvalid. cbv zeta.
  rewrite <- (horner_toUpperCase 16 s 0).
  apply padded_value.
  - now rewrite toUpperCase_length.
  - now rewrite valid_digits_toUpperCase.
Qed.

Lemma digit_char_value (upper : bool) (d : Z) :
  0 <= d < 16 ->
  valid_digits 16 (String (digit_char upper d) EmptyString) = true
  /\ digit_value (digit_char upper d) = d.
Proof.
  intros H.
  assert (E : d = 0 \/ d = 1 \/ d = 2 \/ d = 3 \/ d = 4 \/ d = 5 \/ d = 6
              \/ d = 7 \/ d = 8 \/ d = 9 \/ d = 10 \/ d = 11 \/ d = 12
              \/ d = 13 \/ d = 14 \/ d = 15) by lia.
  destruct upper;
    repeat (destruct E as [->|E]; [vm_compute; auto|]);
    subst d; vm_compute; auto.
Qed.

(** The digits that [digits_loop] writes in base 16 denote the number
    printed, and a number below [16^k] takes at most [k] of them. *)
Lemma digits_loop_value (upper : bool) (fuel : nat) :
  forall (k : nat) (n : Z) (acc : string),
    (1 <= k <= fuel)%nat -> 0 <= n < 16 ^ Z.of_nat k ->
    let s := digits_loop fuel 16 upper n acc in
    valid_digits 16 s = valid_digits 16 acc
    /\ horner 16 0 s
       = n * 16 ^ Z.of_nat (String.length acc) + horner 16 0 acc
    /\ (String.length s <= k + String.length acc)%nat.
Proof.
  induction fuel as [|f IH]; intros k n acc Hk Hn; [lia|].
  cbn [digits_loop]. cbv zeta.
  assert (Hd : 0 <= n mod 16 < 16) by (apply Z.mod_pos_bound; lia).
  destruct (digit_char_value upper (n mod 16) Hd) as [Hv Hval].
  set (acc' := String (digit_char upper (n mod 16)) acc).
  assert (Hv' : valid_digits 16 acc' = valid_digits 16 acc).
  { unfold valid_digits in *. unfold acc'. cbn [string_forallb] in *.
    rewrite andb_true_r in Hv. now rewrite Hv. }
  assert (Hh' : horner 16 0 acc'
                = n mod 16 * 16 ^ Z.of_nat (String.length acc) + horner 16 0 acc).
  { unfold acc'. cbn [horner]. rewrite horner_acc, Hval. ring. }
  destruct (Z.eqb_spec (n / 16) 0) as [E|E].
  - split; [exact Hv'|]. split.
    + rewrite Hh'. replace (n mod 16) with n
        by (Z.div_mod_to_equations; lia). reflexivity.
    + unfold acc'. cbn [String.length]. lia.
  - destruct k as [|[|k]]; [lia| |].
    + change (16 ^ Z.of_nat 1) with 16 in Hn.
      exfalso. apply E. Z.div_mod_to_equations; lia.
    + assert (Hn' : 0 <= n / 16 < 16 ^ Z.of_nat (S k)).
      { rewrite (Nat2Z.inj_succ (S k)), Z.pow_succ_r in Hn by lia.
        Z.div_mod_to_equations; lia. }
      destruct (IH (S k) (n / 16) acc' ltac:(lia) Hn') as (H1 & H2 & H3).
      split; [now rewrite H1|]. split.
      * rewrite H2, Hh'. unfold acc'. cbn [String.length].
        rewrite Nat2Z.inj_succ, Z.pow_succ_r by lia.
        pose proof (Z.div_mod n 16 ltac:(lia)) as Hdm.
        set (p := 16 ^ Z.of_nat (String.length acc)).
        rewrite Hdm at 3. ring.
      * subst acc'. cbn [String.length] in H3. lia.
Qed.

Lemma print_hex_value (upper : bool) (v : Z) :
  0 <= v < 16777216 ->
  valid_digits 16 (print_hex upper v) = true
  /\ horner 16 0 (print_hex upper v) = v
  /\ (String.length (print_hex upper v) <= 6)%nat.
Proof.
  intros H. unfold print_hex, to_unsigned. rewrite Z.mod_small by lia.
  destruct (digits_loop_value upper 8 6 v EmptyString ltac:(lia))
    as (H1 & H2 & H3); [change (16 ^ Z.of_nat 6) with 16777216; lia|].
  split; [exact H1|]. split; [|cbn [String.length] in H3; lia].
  rewrite H2. cbn. lia.
Qed.

Lemma hex_pair_value (c1 c2 : ascii) :
  valid_digits 16 (String c1 (String c2 EmptyString)) = true ->
  Util.stringToInt (String c1 (String c2 EmptyString)) 16
  = Some (16 * digit_value c1 + digit_value c2).
Proof.
  intros H. unfold Util.stringToInt. cbn [is_empty].
  rewrite stringToInt_loop_value; try assumption; try lia.
  - cbn [horner]. f_equal. lia.
  - vm_compute. discriminate.
Qed.

Lemma load_bytes_hex (n : nat) :
  forall (data : string) (address i_byte : Z),
    (String.length data <= n)%nat ->
    valid_digits 16 data = true ->
    Nat.even (String.length data) = true ->
    0 <= address -> address + Z.of_nat (String.length data) <= 2147483647 ->
    load_bytes data address i_byte = hex_bytes address data.
Proof.
  induction n as [|n IH]; intros data address i_byte Hn Hv He Ha Hfit.
  - destruct data; [reflexivity | cbn in Hn; lia].
  - destruct data as [|c1 [|c2 rest]]; [reflexivity | discriminate |].
    cbn [load_bytes hex_bytes].
    assert (Hpair : valid_digits 16 (String c1 (String c2 EmptyString)) = true
                    /\ valid_digits 16 rest = true).
    { unfold valid_digits in *. cbn [string_forallb] in *.
      rewrite !andb_true_iff in *. tauto. }
    destruct Hpair as [Hp Hr].
    unfold stringToInt_into. rewrite (hex_pair_value c1 c2 Hp).
    cbn [String.length] in Hn, He, Hfit.
    rewrite wrap_int_small by (unfold INT_MIN, INT_MAX; lia).
    f_equal. apply IH; try assumption; try lia.
Qed.

Lemma hex_bytes_toUpperCase (data : string) :
  forall address, hex_bytes address (Util.toUpperCase data) = hex_bytes address data.
Proof.
  assert (H : forall n data address,
             (String.length data <= n)%nat ->
             hex_bytes address (Util.toUpperCase data) = hex_bytes address data).
  { induction n as [|n IH]; intros d address Hn.
    - destruct d; [reflexivity | cbn in Hn; lia].
    - destruct d as [|c1 [|c2 rest]]; [reflexivity | reflexivity |].
      cbn [Util.toUpperCase hex_bytes]. rewrite !digit_value_upper.
      f_equal. apply IH. cbn [String.length] in Hn. lia. }
  intros address. now apply (H (String.length data)).
Qed.

Lemma textRecordLength_length (size : Z) :
  0 <= size <= 511 -> String.length (textRecordLength size) = 2%nat.
Proof.
  intros H. unfold textRecordLength. apply pad_right_adjust_length.
  unfold print_hex, to_unsigned.
  assert (Hb : 0 <= size / 2 < 256) by (Z.div_mod_to_equations; lia).
  rewrite (Z.mod_small (size / 2)) by lia. cbn [digits_loop].
  destruct (Z.eqb_spec (size / 2 / 16) 0) as [_|_]; [cbn; lia|].
  destruct (Z.eqb_spec (size / 2 / 16 / 16) 0) as [_|E];
    [cbn; lia | Z.div_mod_to_equations; lia].
Qed.

Lemma load_text_record (address buffer : string) :
  record_fits (address, buffer) = true ->
  load_record (text_record address buffer)
  = Ok (hex_bytes (horner 16 0 address) buffer).
Proof.
  unfold record_fits. cbn [fst snd]. rewrite !andb_true_iff.
  intros [[[[[Hne Hla] Hva] Hvb] Heven] Hlb].
  apply Nat.leb_le in Hla, Hlb.
  destruct (padded_field_value address Hla Hva) as [Hl6 Hval].
  pose proof (textRecordLength_length (Z.of_nat (String.length buffer))
                ltac:(lia)) as Hl2.
  pose proof (horner_bound 16 address ltac:(lia) Hva) as Hh.
  assert (Hp : 16 ^ Z.of_nat (String.length address) <= 16 ^ 6)
    by (apply Z.pow_le_mono_r; lia).
  change (16 ^ 6) with 16777216 in Hp.
  unfold text_record, startTextRecord, textRecordCode, load_record.
  set (A := pad_right_adjust basicPadding "0" (Util.toUpperCase address)) in *.
  set (L := textRecordLength (Z.of_nat (String.length buffer))) in *.
  set (D := Util.toUpperCase buffer).
  assert (Hlen : String.length (("T" ++ A) ++ L ++ D)
                 = (9 + String.length buffer)%nat).
  { rewrite !length_append, Hl6, Hl2. unfold D.
    rewrite toUpperCase_length. reflexivity. }
  rewrite Hlen.
  destruct (Nat.ltb_spec (9 + String.length buffer) 9); [lia|].
  replace (9 + String.length buffer - 9)%nat with (String.length D)
    by (unfold D; rewrite toUpperCase_length; lia).
  rewrite (append_assoc "T" A (L ++ D)).
  rewrite (substring_after_prefix "T" (A ++ L ++ D) 1 6 eq_refl).
  replace (String.substring 0 6 (A ++ L ++ D)) with A
    by (rewrite <- Hl6; symmetry; apply substring_prefix).
  rewrite <- (append_assoc "T" A (L ++ D)), <- (append_assoc ("T" ++ A) L D).
  rewrite (substring_after_prefix (("T" ++ A) ++ L) D 9)
    by (rewrite !length_append, Hl6, Hl2; reflexivity).
  rewrite substring_all.
  unfold stringToInt_into. rewrite Hval. f_equal.
  rewrite load_bytes_hex with (n := String.length D); unfold D;
    rewrite ?toUpperCase_length, ?valid_digits_toUpperCase;
    try assumption; try lia.
  apply hex_bytes_toUpperCase.
Qed.

Lemma load_records_text (records : list (string * string)) (last : string) :
  forallb record_fits records = true ->
  forall effects first,
    load_records [last] = Ok (effects, first) ->
    load_records
      (map (fun r => text_record (fst r) (snd r)) records ++ [last])%list
    = Ok ((records_bytes records ++ effects)%list, first).
Proof.
  intros Hfit effects first Hlast.
  induction records as [|[address buffer] rest IH]; [exact Hlast|].
  cbn [forallb] in Hfit. apply andb_prop in Hfit. destruct Hfit as [Hr Hrest].
  cbn [map app fst snd records_bytes].
  change (load_records (text_record address buffer :: ?l))
    with (let! e := load_record (text_record address buffer) in
          let! (e', f) := load_records l in
          Ok ((e ++ e')%list, f)).
  rewrite (load_text_record address buffer Hr). cbn [bind].
  rewrite (IH Hrest). cbn [bind]. now rewrite <- app_assoc.
Qed.

Lemma end_record_read (start : Z) :
  0 <= start < 16777216 ->
  exists first,
    load_records [createEndRecord start] = Ok ([], first)
    /\ exec_from first = [SICRun start].
Proof.
  intros H. destruct (print_hex_value true start H) as (Hv & Hh & Hl).
  destruct (padded_value (print_hex true start) Hl Hv) as [Hl6 Hval].
  unfold createEndRecord.
  set (A := pad_right_adjust basicPadding "0" (print_hex true start)) in *.
  exists A. split.
  - cbn [append load_records Ascii.eqb Bool.eqb].
    change (String "E" A) with ("E" ++ A).
    rewrite (substring_after_prefix "E" A 1 6 eq_refl).
    rewrite <- Hl6. now rewrite substring_all.
  - unfold exec_from, stringToInt_into. rewrite Hval, Hh.
    destruct A; [discriminate | reflexivity].
Qed.

(** X26: The loader reads back what pass 2 writes: of an object file
    made of any header line, text records written by [startTextRecord]
    and [finishTextRecord] and the record of [createEndRecord], [load]
    stores the bytes of every buffer, two hex digits a byte, at the
    addresses that follow the address of its record, and [exec] then
    starts the engine at the starting address. *)
Theorem X26_load_reads_object_file (path header : string)
    (records : list (string * string)) (start : Z) :
  forallb record_fits records = true ->
  0 <= start < 16777216 ->
  exists first,
    load_file path
      (Some (header
             :: map (fun r => text_record (fst r) (snd r)) records
             ++ [createEndRecord start])%list)
    = Ok (records_bytes records, first)
    /\ exec_from first = [SICRun start].
Proof.
  intros Hfit Hstart.
  destruct (end_record_read start Hstart) as (first & Hlast & Hexec).
  exists first. split; [|exact Hexec].
  cbn [load_file List.tl].
  rewrite (load_records_text records (createEndRecord start) Hfit [] first Hlast).
  now rewrite app_nil_r.
Qed.

Lemma X26_witness :
  exists first,
    load_file "prog.obj"
      (Some ["HPROG  00100000000C";
             text_record "1000" "001009"; text_record "1009" "4c0000";
             createEndRecord 4096])
    = Ok ([PutMem 4096 0; PutMem 4097 16; PutMem 4098 9;
           PutMem 4105 76; PutMem 4106 0; PutMem 4107 0], first)
    /\ exec_from first = [SICRun 4096].
Proof.
  apply (X26_load_reads_object_file "prog.obj" "HPROG  00100000000C"
           [("1000", "001009"); ("1009", "4c0000")] 4096).
  - vm_compute. reflexivity.
  - lia.
Defined.

(** ** Object code and location counter *)

Lemma getConstantLength_success (operand e : string) (len : Z) (e' : string) :
  getConstantLength operand e = (len, e') -> len <> -1 ->
  (4 <= String.length operand)%nat
  /\ Ascii.eqb (char_at operand (String.length operand - 1)) QUOTE = true
  /\ ((Ascii.eqb (char_at operand 0) "C" = true
       /\ len = Z.of_nat (String.length operand - 3))
      \/ (Ascii.eqb (char_at operand 0) "C" = false
          /\ Ascii.eqb (char_at operand 0) "X" = true
          /\ 2 * len = Z.of_nat (String.length operand - 3))).
Proof.
  unfold getConstantLength.
  destruct (Nat.ltb_spec (String.length operand) 4) as [|Hlen];
    [intros [= <- _]; congruence|].
  destruct (negb _ && negb _); [intros [= <- _]; congruence|].
  destruct (Ascii.eqb (char_at operand 1) QUOTE); cbn [negb orb];
    [|intros [= <- _]; congruence].
  destruct (Ascii.eqb (char_at operand (String.length operand - 1)) QUOTE);
    cbn [negb]; [|intros [= <- _]; congruence].
  destruct (Ascii.eqb (char_at operand 0) "C").
  - destruct (_ <? _)%nat; [intros [= <- _]; congruence|].
    intros [= <- _] _. split; [lia|]. split; [reflexivity|].
    left. split; [reflexivity | lia].
  - destruct (Ascii.eqb (char_at operand 0) "X"); [|intros [= <- _]; congruence].
    destruct (negb _); [intros [= <- _]; congruence|].
    destruct (_ <? _)%nat; [intros [= <- _]; congruence|].
    rewrite odd_test.
    destruct (Nat.even (String.length operand - 3)) eqn:Hev; cbn [negb];
      [|intros [= <- _]; congruence].
    intros [= <- _] _. split; [lia|]. split; [reflexivity|].
    right. split; [reflexivity|]. split; [reflexivity|].
    apply Nat.even_spec in Hev. destruct Hev as [k Hk].
    rewrite Hk.
    assert (Hdiv : (2 * k / 2)%nat = k)
      by (rewrite (Nat.mul_comm 2 k); apply Nat.div_mul; lia).
    change (fst (Nat.divmod (2 * k) 1 0 1)) with (2 * k / 2)%nat.
    rewrite Hdiv. lia.
Qed.

Lemma quoted_not_indexed (operand : string) :
  Ascii.eqb (char_at operand (String.length operand - 1)) QUOTE = true ->
  isIndexedOperand operand = false.
Proof.
  unfold isIndexedOperand.
  destruct (String.length operand) as [|end_]; [reflexivity|].
  replace (S end_ - 1)%nat with end_ by lia.
  intros H. apply Ascii.eqb_eq in H. rewrite H.
  now rewrite andb_false_r.
Qed.

Lemma digits_not_indexed (operand : string) :
  string_forallb (fun c => Util.isDigit (Util.upper_char c)) operand = true ->
  isIndexedOperand operand = false.
Proof.
  intros H. destruct (isIndexedOperand operand) eqn:E; [|reflexivity].
  apply isIndexedOperand_iff in E. destruct E as (p & _ & ->).
  rewrite string_forallb_append in H. apply andb_prop in H.
  destruct H as [_ H]. vm_compute in H. discriminate.
Qed.

Lemma createObjectCode_BYTE (a : Assembler) (operand : string) :
  isIndexedOperand operand = false ->
  createObjectCode a "BYTE" operand
  = if Ascii.eqb (char_at operand 0) "C"
    then hex_of_chars (getByteOperand operand)
    else if Ascii.eqb (char_at operand 0) "X" then getByteOperand operand
         else EmptyString.
Proof. intros H. unfold createObjectCode. rewrite H. reflexivity. Qed.

Lemma createObjectCode_WORD (a : Assembler) (operand : string) (v : Z) :
  isIndexedOperand operand = false ->
  Util.stringToInt operand 10 = Some v ->
  createObjectCode a "WORD" operand
  = pad_right_adjust basicPadding "0" (print_hex false v).
Proof.
  intros H Hv. unfold createObjectCode. rewrite H.
  cbv beta iota zeta delta [String.eqb Ascii.eqb Bool.eqb orb andb].
  now rewrite Hv.
Qed.

(** X27: Pass 2 writes two hex digits for every byte that pass 1 has
    counted: for a BYTE or WORD line that pass 1 accepts without error,
    the object code has twice as many characters as the increment of the
    location counter, provided that the characters of a [C] constant
    print as two digits and that the value of a WORD is below [2^24]
    (for a WORD, the six digits denote its value). *)
Theorem X27_object_code_matches_increment (a : Assembler)
    (opcode operand : string) (increment : Z) :
  pass1_size opcode operand EmptyString = (increment, false, EmptyString) ->
  (opcode = "BYTE"
   /\ (Ascii.eqb (char_at operand 0) "C" = true ->
       string_forallb two_digit_char (getByteOperand operand) = true))
  \/ (opcode = "WORD"
      /\ exists v, Util.stringToInt operand 10 = Some v /\ 0 <= v < 16777216) ->
  Z.of_nat (String.length (createObjectCode a opcode operand)) = 2 * increment
  /\ (opcode = "WORD" ->
      Util.stringToInt operand 10
      = Some (horner 16 0 (createObjectCode a opcode operand))).
Proof.
  intros Hsize [[-> Hchars]|[-> (v & Hv & Hrange)]].
  - split; [|discriminate].
    change (pass1_size "BYTE" operand EmptyString)
      with (let '(length, errors) := getConstantLength operand EmptyString in
            if negb (length =? -1) then (length, false, errors)
            else (0, false, errors ++ "0001")) in Hsize.
    destruct (getConstantLength operand EmptyString) as [len e] eqn:E.
    destruct (Z.eqb_spec len (-1)) as [->|Hne]; cbn [negb] in Hsize.
    { injection Hsize as _ He. destruct e; discriminate. }
    injection Hsize as <- ->.
    destruct (getConstantLength_success operand EmptyString len EmptyString E Hne)
      as (Hlen & Hq & Hcase).
    rewrite (createObjectCode_BYTE a operand (quoted_not_indexed operand Hq)).
    assert (Hb : String.length (getByteOperand operand)
                 = (String.length operand - 3)%nat).
    { unfold getByteOperand.
      destruct (Nat.ltb_spec 3 (String.length operand)); [|lia].
      apply byte_content_length. lia. }
    destruct Hcase as [[Hc ->]|(Hc & Hx & Hl)]; rewrite Hc.
    + rewrite hex_of_chars_length by (apply Hchars; exact Hc).
      rewrite Hb. lia.
    + rewrite Hx, Hb. lia.
  - change (pass1_size "WORD" operand EmptyString)
      with (match Util.stringToInt operand 10 with
            | Some _ => (3, false, EmptyString)
            | None => (3, false, EmptyString ++ "0001")
            end) in Hsize.
    rewrite Hv in Hsize. injection Hsize as <-.
    assert (Hni : isIndexedOperand operand = false).
    { apply digits_not_indexed. unfold Util.stringToInt in Hv.
      destruct (is_empty operand); [discriminate|].
      apply stringToInt_loop_accepts in Hv. apply Hv. lia. }
    rewrite (createObjectCode_WORD a operand v Hni Hv).
    destruct (print_hex_value false v Hrange) as (Hvd & Hh & Hl).
    destruct (padded_value (print_hex false v) Hl Hvd) as [Hl6 _].
    split; [rewrite Hl6; reflexivity|]. intros _. f_equal.
    unfold pad_right_adjust.
    now rewrite horner_append, (proj2 (fill_zero_digits _)), Z.mul_0_l, Hh.
Qed.

Lemma X27_witness :
  Z.of_nat (String.length (createObjectCode (Assembler_new 0) "BYTE" "C'EOF'"))
  = 2 * 3.
Proof.
  refine (proj1 (X27_object_code_matches_increment
                   (Assembler_new 0) "BYTE" "C'EOF'" 3 _ _)).
  - vm_compute. reflexivity.
  - left. split; [reflexivity|]. intros _. vm_compute. reflexivity.
Defined.

(** ** Undefined symbols *)

Lemma RSUB_opcode : opcodeTable !! "RSUB" = Some 76.
Proof. vm_compute. reflexivity. Qed.

Lemma createObjectCode_undefined (a : Assembler) (opcode operand : string) :
  String.eqb opcode "RESB" || String.eqb opcode "RESW"
  || String.eqb opcode "BYTE" || String.eqb opcode "WORD" = false ->
  isHexSymbol (pure_operand operand) = false ->
  symbolTable a !! pure_operand operand = None ->
  Util.stringToInt opcode 16 <> Some 76 ->
  createObjectCode a opcode operand = EmptyString.
Proof.
  intros Hop Hhex Hsym Hrsub.
  apply orb_false_iff in Hop. destruct Hop as [Hop Hword].
  apply orb_false_iff in Hop. destruct Hop as [Hop Hbyte].
  unfold createObjectCode. fold (pure_operand operand).
  rewrite Hop, Hbyte, Hword, Hhex, Hsym, RSUB_opcode.
  destruct (Util.stringToInt opcode 16) as [iOpcode|]; [|reflexivity].
  change (wrap_int 76) with 76.
  destruct (Z.eqb_spec iOpcode 76) as [->|_]; [congruence | reflexivity].
Qed.

Lemma pack_no_objectCode (address object : string) (makeNew : bool)
    (buffer : string) :
  snd (pack_objectCode address EmptyString object makeNew buffer) = EmptyString
  /\ fst (fst (pack_objectCode address EmptyString object makeNew buffer))
     = if is_empty buffer then object
       else object
            ++ finishTextRecord (Z.of_nat (String.length buffer)) buffer.
Proof.
  unfold pack_objectCode. cbn [is_empty negb andb orb].
  destruct buffer as [|c buffer]; [split; reflexivity|].
  cbn [is_empty].
  destruct (Z.eqb_spec (Z.of_nat (String.length (String c buffer))) 0) as [E|_];
    [cbn [String.length] in E; lia|].
  cbn [negb]. split; reflexivity.
Qed.

(** X28: A symbol that is not defined is never reported: on a block
    without error whose operand is neither a hex literal nor a key of
    the symbol table (and whose opcode is not RSUB), pass 2 writes the
    listing row with an empty object code and no error, leaves
    [anyErrors] and the rest of the object as they are, and leaves the
    buffer of the text record empty. *)
Theorem X28_undefined_symbol_not_reported (st : pass2_state) (b : block) :
  has_error b = false ->
  String.eqb (opcodeField b) "START" || String.eqb (opcodeField b) "END" = false ->
  String.eqb (opcodeField b) "RESB" || String.eqb (opcodeField b) "RESW"
  || String.eqb (opcodeField b) "BYTE" || String.eqb (opcodeField b) "WORD"
  = false ->
  isHexSymbol (pure_operand (operandField b)) = false ->
  symbolTable (p2_asm st) !! pure_operand (operandField b) = None ->
  Util.stringToInt (opcodeField b) 16 <> Some 76 ->
  let st' := fst (pass2_block st b) in
  snd (pass2_block st b) = false
  /\ p2_asm st' = p2_asm st
  /\ listingfile st'
     = listingfile st
       ++ writeToListingFile (addressField b) EmptyString (sourceLine b)
            EmptyString
  /\ machineCodeStreamBuffer st' = EmptyString.
Proof.
  intros Herr Hse Hop Hhex Hsym Hrsub st'.
  apply orb_false_iff in Hse. destruct Hse as [Hs He].
  unfold has_error in Herr. apply negb_false_iff in Herr.
  assert (Hnote : note_errors (p2_asm st) b = p2_asm st).
  { unfold note_errors. rewrite Herr. now destruct (negb (anyErrors (p2_asm st))). }
  assert (Hcode : block_objectCode (p2_asm st) b = EmptyString).
  { unfold block_objectCode. rewrite Herr.
    now apply createObjectCode_undefined. }
  assert (Hlist : errorList b = EmptyString) by (destruct (errorList b); easy).
  unfold st', pass2_block. rewrite Hs, He, Hnote, Hcode.
  match goal with
  | |- context [pack_objectCode ?x EmptyString ?o ?m ?u] =>
      destruct (pack_no_objectCode x o m u) as [Hbuf _];
      destruct (pack_objectCode x EmptyString o m u) as [[object makeNew] buffer]
  end.
  cbn [fst snd] in *. subst buffer.
  cbn [p2_asm listingfile machineCodeStreamBuffer]. rewrite Hlist.
  repeat split.
Qed.

Lemma X28_witness :
  let st := mkPass2 (Assembler_new 0) "001009" true false false
              EmptyString EmptyString in
  let b := mkBlock " LDA NOWHERE" "0" "1003" "NOWHERE" EmptyString in
  snd (pass2_block st b) = false
  /\ p2_asm (fst (pass2_block st b)) = p2_asm st
  /\ listingfile (fst (pass2_block st b))
     = listingfile st
       ++ writeToListingFile (addressField b) EmptyString (sourceLine b)
            EmptyString
  /\ machineCodeStreamBuffer (fst (pass2_block st b)) = EmptyString.
Proof.
  intros st b. apply (X28_undefined_symbol_not_reported st b).
  - reflexivity.
  - reflexivity.
  - reflexivity.
  - vm_compute. reflexivity.
  - vm_compute. reflexivity.
  - vm_compute. discriminate.
Defined.

(** ** The END line *)

Lemma pass1_line_stop (st : pass1_state) (srcLine : string)
    (st' : pass1_state) (stop : bool) :
  pass1_line st srcLine = Ok (st', stop) -> stop = is_END_line srcLine.
Proof.
  assert (Hinj : forall (s1 s2 : pass1_state) (b1 b2 b3 : bool),
             b1 = b3 -> Ok (s1, b1) = Ok (s2, b2) -> b2 = b3).
  { intros s1 s2 b1 b2 b3 <- H. apply Ok_inj in H. congruence. }
  unfold pass1_line, is_END_line.
  destruct (is_empty srcLine); [now apply Hinj|].
  destruct (Ascii.eqb (char_at srcLine 0) "."); [now apply Hinj|].
  cbn [negb andb].
  destruct (getColumns srcLine delims) as [[[[u label] opcode] operand]|];
    cbn [bind]; [|discriminate].
  destruct (String.eqb_spec opcode "END") as [->|He].
  - destruct (_ =? 0)%nat eqn:E0.
    { apply Nat.eqb_eq in E0. cbn [String.length] in E0. lia. }
    change (String.eqb "END" "START") with false. cbv iota.
    unfold pass1_columns. change (String.eqb "END" "END") with true. cbv iota.
    destruct (pass1_END _ _ _ _ _); cbn [bind]; [|discriminate].
    now apply Hinj.
  - apply String.eqb_neq in He.
    destruct (_ =? 0)%nat; [now apply Hinj|].
    destruct (String.eqb opcode "START").
    + destruct (pass1_START _ _ _ _ _); cbn [bind]; [|discriminate].
      now apply Hinj.
    + unfold pass1_columns. rewrite He.
      destruct (pass1_other _ _ _ _ _ _); cbn [bind]; [|discriminate].
      now apply Hinj.
Qed.

Lemma pass1_loop_after_END (pre post : list string) (l : string) :
  is_END_line l = true ->
  forall st,
    pass1_loop st (pre ++ l :: post)%list = pass1_loop st (pre ++ [l])%list.
Proof.
  intros Hl. induction pre as [|p pre IH]; intros st; cbn [app pass1_loop].
  - destruct (pass1_line st l) as [[st1 stop]|] eqn:E; cbn [bind]; [|reflexivity].
    apply pass1_line_stop in E. rewrite Hl in E. now subst stop.
  - destruct (pass1_line st p) as [[st1 stop]|]; cbn [bind]; [|reflexivity].
    destruct stop; [reflexivity | apply IH].
Qed.

(** X29: Pass 1 stops reading at the first END line: whatever follows
    it in the source (instructions, errors, a second END) changes
    neither the object nor the intermediate file. *)
Theorem X29_nothing_read_after_END (a : Assembler) (pre post : list string)
    (l : string) :
  is_END_line l = true ->
  pass1 a (Some (pre ++ l :: post)%list) = pass1 a (Some (pre ++ [l])%list).
Proof.
  intros Hl. unfold pass1. now rewrite (pass1_loop_after_END pre post l Hl).
Qed.

Lemma X29_witness :
  pass1 (Assembler_new 0)
    (Some ["P START 1000"; " end P"; "9$ BAD ,X"; " END"])
  = pass1 (Assembler_new 0) (Some ["P START 1000"; " end P"]).
Proof.
  apply (X29_nothing_read_after_END (Assembler_new 0) ["P START 1000"]
           ["9$ BAD ,X"; " END"] " end P").
  vm_compute. reflexivity.
Defined.

Lemma pass1_loop_END_position (lines : list string) :
  forall st st',
    no_END st -> pass1_loop st lines = Ok st' ->
    if existsb is_END_line lines then ended st' else no_END st'.
Proof.
  induction lines as [|l rest IH]; intros st st' Hinv.
  - intros H. apply Ok_inj in H. now subst st'.
  - cbn [pass1_loop existsb].
    destruct (pass1_line st l) as [[st1 stop]|] eqn:E; cbn [bind]; [|discriminate].
    pose proof (pass1_line_stop st l st1 stop E) as Hstop.
    apply pass1_line_step in E.
    pose proof (END_position_step st st1 stop Hinv E) as Hpos.
    rewrite <- Hstop. destruct stop; cbn [orb].
    + intros H. apply Ok_inj in H. now subst st'.
    + now apply IH.
Qed.

Lemma ended_existsb (st : pass1_state) :
  ended st -> existsb is_END (intermediate st) = true.
Proof.
  intros [(init & e & -> & _ & He) _].
  rewrite existsb_app. cbn [existsb]. rewrite He.
  now rewrite orb_true_r.
Qed.

(** X30: The listing ends with the missing-END notice exactly when no
    line of the source is an END line; the object file is then
    removed. *)
Theorem X30_missing_END_notice (garbage : Z) (lines : list string)
    (a : Assembler) (blocks : list block) :
  pass1 (Assembler_new garbage) (Some lines) = Ok (a, blocks) ->
  let out := pass2 a (Some blocks) in
  listing_txt out
  = listingfile (pass2_loop (pass2_init a) blocks)
    ++ (if maxProgramSizeBytes <? locctr a then fatalNotice (locctr a)
        else EmptyString)
    ++ (if existsb is_END_line lines then EmptyString else missingEndNotice)
  /\ (existsb is_END_line lines = false -> object_exists out = false).
Proof.
  intros Hp1 out.
  destruct (assemble_anyErrors garbage (Some lines) a blocks Hp1)
    as (Hend & Hloc & _ & _).
  assert (Hlines : existsb is_END blocks = existsb is_END_line lines).
  { unfold pass1 in Hp1.
    destruct (pass1_loop _ lines) as [st|] eqn:E; cbn [bind] in Hp1;
      [|discriminate].
    apply Ok_inj in Hp1. injection Hp1 as _ <-.
    apply pass1_loop_END_position in E; [|reflexivity].
    destruct (existsb is_END_line lines).
    - now apply ended_existsb.
    - now apply no_END_existsb. }
  rewrite Hlines in Hend.
  unfold out. cbn [pass2]. unfold pass2_finish. rewrite Hend, Hloc.
  destruct (maxProgramSizeBytes <? locctr a);
    destruct (existsb is_END_line lines); cbn [negb listing_txt object_exists];
    rewrite ?append_empty_r, ?append_assoc;
    (split; [reflexivity | first [discriminate | reflexivity]]).
Qed.

Lemma X30_witness :
  exists a blocks,
    pass1 (Assembler_new 0) (Some ["P START 1000"; " RSUB"]) = Ok (a, blocks)
    /\ listing_txt (pass2 a (Some blocks))
       = listingfile (pass2_loop (pass2_init a) blocks)
         ++ EmptyString ++ missingEndNotice
    /\ object_exists (pass2 a (Some blocks)) = false.
Proof.
  destruct (pass1 (Assembler_new 0) (Some ["P START 1000"; " RSUB"]))
    as [[a blocks]|] eqn:E; [|vm_compute in E; discriminate].
  exists a, blocks. split; [reflexivity|].
  destruct (X30_missing_END_notice 0 ["P START 1000"; " RSUB"] a blocks E)
    as [H1 H2].
  assert (Hloc : (maxProgramSizeBytes <? locctr a) = false).
  { vm_compute in E. apply Ok_inj in E. injection E as <- _. reflexivity. }
  rewrite Hloc in H1. split; [exact H1 | now apply H2].
Defined.

(** ** The labels of the symbol table *)












(** ** The location counter *)

Lemma getConstantLength_fst (operand errors : string) :
  fst (getConstantLength operand errors)
  = fst (getConstantLength operand EmptyString).
Proof.
  unfold getConstantLength.
  repeat match goal with
         | |- context [if ?c then _ else _] => destruct c
         end; reflexivity.
Qed.

Lemma pass1_size_increment_of (opcode operand errors : string) :
  fst (fst (pass1_size opcode operand errors)) = line_increment opcode operand.
Proof.
  unfold line_increment, pass1_size.
  destruct (String.eqb opcode "WORD").
  { now destruct (Util.stringToInt operand 10). }
  destruct (String.eqb opcode "RESW").
  { now destruct (Util.stringToInt operand 10). }
  destruct (String.eqb opcode "RESB").
  { now destruct (Util.stringToInt operand 10). }
  destruct (String.eqb opcode "BYTE").
  { pose proof (getConstantLength_fst operand errors) as H.
    destruct (getConstantLength operand errors) as [len e].
    destruct (getConstantLength operand EmptyString) as [len0 e0].
    cbn [fst] in H. subst len0.
    now destruct (negb (len =? -1)). }
  generalize (opcodeTable !! opcode). now intros [v|].
Qed.

Lemma pass1_START_duplicate (st : pass1_state) (u label operand : string)
    (st' : pass1_state) :
  pass1_START st u label "START" operand = Ok st' ->
  startFound st = true ->
  anyErrors (p1_asm st') = true
  /\ exists b,
       intermediate st' = (intermediate st ++ [b])%list
       /\ has_code "0015" (errorList b).
Proof.
  assert (H1 : forall e1,
             (if (0 <? String.length label)%nat
              then let! (valid, errors) :=
                     isValidSymbol label (EmptyString ++ "0015") in
                   Ok (if negb valid then errors ++ "0004" else errors)
              else Ok (EmptyString ++ "0015")) = Ok e1 ->
             has_code "0015" e1).
  { intros e1. destruct (0 <? String.length label)%nat.
    - destruct (isValidSymbol label (EmptyString ++ "0015")) as [[valid e]|] eqn:E;
        cbn [bind]; [|discriminate].
      apply isValidSymbol_result in E. destruct E as [_ [suf ->]].
      intros H1. apply Ok_inj in H1. subst e1.
      destruct (negb valid);
        repeat first [apply has_code_here | apply has_code_append].
    - intros H1. apply Ok_inj in H1. subst e1. apply has_code_here. }
  unfold pass1_START. intros H Hfound. revert H. rewrite Hfound.
  cbv beta iota zeta.
  destruct (if (0 <? String.length label)%nat then _ else _) as [e1|];
    cbn [bind]; [|discriminate].
  specialize (H1 e1 eq_refl).
  destruct (if is_empty operand then None else Util.stringToInt operand 16) as [v|];
    intros H; apply Ok_inj in H; subst st'; cbn [p1_asm intermediate];
    (split; [reflexivity|]); eexists; (split; [reflexivity|]);
    cbn [errorList]; [exact H1 | now apply has_code_append].
Qed.

(** C9, amended: on a line that is not a START line, once the location
    counter has been set, the counter moves by the increment of the line
    (that of [pass1_size] for an instruction, WORD, RESW, RESB or BYTE
    line, 0 for a line that is skipped and for the END line), which is
    not negative, so the counter does not decrease, as long as the
    arithmetic stays within [int] (an operand of at most 8 digits for
    RESW and RESB, a counter of at most 2^30).  A START line, also a
    second one, which is flagged with 0015, sets the counter to the value
    of its operand in base 16, or to 0, whatever the counter was. *)
Theorem C9_locctr_monotone_except_START (st st' : pass1_state)
    (srcLine u label opcode operand : string) (stop : bool) :
  getColumns srcLine delims = Ok (u, label, opcode, operand) ->
  pass1_line st srcLine = Ok (st', stop) ->
  (String.eqb opcode "START" = false ->
   startFound st = true ->
   (String.eqb opcode "RESW" || String.eqb opcode "RESB" = true ->
    (String.length operand <= 8)%nat) ->
   0 <= locctr (p1_asm st) <= 1073741824 ->
   (forall errors,
       fst (fst (pass1_size opcode operand errors))
       = line_increment opcode operand)
   /\ 0 <= line_increment opcode operand
   /\ locctr (p1_asm st')
      = locctr (p1_asm st) + line_move srcLine label opcode operand
   /\ locctr (p1_asm st) <= locctr (p1_asm st'))
  /\ (String.eqb opcode "START" = true ->
      Ascii.eqb (char_at srcLine 0) "." = false ->
      locctr (p1_asm st') = START_address operand
      /\ (startFound st = true ->
          anyErrors (p1_asm st') = true
          /\ exists b,
               intermediate st' = (intermediate st ++ [b])%list
               /\ has_code "0015" (errorList b))).
Proof.
  intros Hcols Hrun. split.
  - intros Hstart Hfound Hres Hloc.
    assert (Hinc : 0 <= line_increment opcode operand <= 300000000).
    { rewrite <- (pass1_size_increment_of opcode operand EmptyString).
      now apply pass1_size_increment. }
    split; [apply pass1_size_increment_of|]. split; [lia|].
    assert (Hmove : locctr (p1_asm st')
                    = locctr (p1_asm st)
                      + line_move srcLine label opcode operand).
    { unfold line_move. unfold pass1_line in Hrun.
      destruct (is_empty srcLine) eqn:Hemp.
      { destruct srcLine; [discriminate Hcols | discriminate Hemp]. }
      destruct (Ascii.eqb (char_at srcLine 0) "."); cbn [orb].
      { apply Ok_inj in Hrun. injection Hrun as <- _. lia. }
      rewrite Hcols in Hrun. cbn [bind] in Hrun.
      destruct (_ =? 0)%nat; cbn [orb].
      { apply Ok_inj in Hrun. injection Hrun as <- _. lia. }
      rewrite Hstart in Hrun. unfold pass1_columns in Hrun.
      assert (Himp : implicit_start st = st)
        by (unfold implicit_start; now rewrite Hfound).
      rewrite Himp in Hrun.
      destruct (String.eqb opcode "END").
      - destruct (pass1_END st u opcode operand _) as [st1|] eqn:E;
          cbn [bind] in Hrun; [|discriminate].
        apply Ok_inj in Hrun. injection Hrun as <- _.
        apply pass1_END_locctr in E. lia.
      - destruct (pass1_other st u label opcode operand _) as [st1|] eqn:E;
          cbn [bind] in Hrun; [|discriminate].
        apply Ok_inj in Hrun. injection Hrun as <- _.
        apply pass1_other_locctr in E. destruct E as [errors' E].
        rewrite pass1_size_increment_of in E. rewrite E.
        apply wrap_int_small. unfold INT_MIN, INT_MAX. lia. }
    split; [exact Hmove|].
    assert (Hm : 0 <= line_move srcLine label opcode operand).
    { unfold line_move.
      match goal with
      | |- context [if ?c then _ else _] => destruct c
      end; lia. }
    lia.
  - intros Hstart Hdot. apply String.eqb_eq in Hstart. subst opcode.
    unfold pass1_line in Hrun.
    destruct (is_empty srcLine) eqn:Hemp.
    { destruct srcLine; [discriminate Hcols | discriminate Hemp]. }
    rewrite Hdot, Hcols in Hrun. cbn [bind] in Hrun.
    destruct (_ =? 0)%nat eqn:E0.
    { apply Nat.eqb_eq in E0. cbn [String.length] in E0. lia. }
    change (String.eqb "START" "START") with true in Hrun. cbv iota in Hrun.
    destruct (pass1_START st u label "START" operand) as [st1|] eqn:E;
      cbn [bind] in Hrun; [|discriminate].
    apply Ok_inj in Hrun. injection Hrun as <- _.
    split; [exact (pass1_START_locctr st u label operand st1 E)|].
    intros Hfound. exact (pass1_START_duplicate st u label operand st1 E Hfound).
Qed.

Lemma C9_witness :
  let st := mkPass1 (set_locctr 4096 (Assembler_new 0)) [] true true in
  exists st1 st2,
    pass1_line st "BUF RESW 100" = Ok (st1, false)
    /\ locctr (p1_asm st1) = 4096 + 300
    /\ pass1_line st1 "B START 20" = Ok (st2, false)
    /\ locctr (p1_asm st2) = 32
    /\ exists b,
         intermediate st2 = (intermediate st1 ++ [b])%list
         /\ has_code "0015" (errorList b).
Proof.
  intros st.
  destruct (pass1_line st "BUF RESW 100") as [[st1 stop1]|] eqn:E1;
    [|vm_compute in E1; discriminate].
  assert (H1 : stop1 = false /\ startFound st1 = true).
  { vm_compute in E1. apply Ok_inj in E1. injection E1 as <- <-. now split. }
  destruct H1 as [-> Hfound1].
  destruct (pass1_line st1 "B START 20") as [[st2 stop2]|] eqn:E2.
  2: { vm_compute in E1. apply Ok_inj in E1. injection E1 as <-.
       vm_compute in E2. discriminate. }
  assert (H2 : stop2 = false).
  { vm_compute in E1. apply Ok_inj in E1. injection E1 as <-.
    vm_compute in E2. apply Ok_inj in E2. now injection E2. }
  subst stop2. exists st1, st2.
  destruct (C9_locctr_monotone_except_START st st1 "BUF RESW 100"
              "BUF RESW 100" "BUF" "RESW" "100" false eq_refl E1) as [Hline _].
  destruct Hline as (_ & _ & Hmove & _);
    [reflexivity | reflexivity | intros _; vm_compute; lia
    | vm_compute; split; discriminate |].
  destruct (C9_locctr_monotone_except_START st1 st2 "B START 20"
              "B START 20" "B" "START" "20" false eq_refl E2) as [_ HSTART].
  destruct (HSTART eq_refl eq_refl) as [Hset Hdup].
  destruct (Hdup Hfound1) as [_ Hb].
  split; [reflexivity|]. split; [exact Hmove|].
  split; [exact E2|]. split; [exact Hset | exact Hb].
Defined.

(** ** The placeholder in the text records *)

Lemma hex_byte_value (n : Z) :
  0 <= n < 256 ->
  let LL := pad_right_adjust sizePadding "0" (print_hex true n) in
  String.length LL = 2%nat /\ Util.stringToInt LL 16 = Some n.
Proof.
  intros H LL.
  assert (Hd : valid_digits 16 (print_hex true n) = true
               /\ horner 16 0 (print_hex true n) = n
               /\ (String.length (print_hex true n) <= 2)%nat).
  { unfold print_hex, to_unsigned. rewrite Z.mod_small by lia.
    destruct (digits_loop_value true 8 2 n EmptyString ltac:(lia))
      as (H1 & H2 & H3); [change (16 ^ Z.of_nat 2) with 256; lia|].
    split; [exact H1|]. split; [|cbn [String.length] in H3; lia].
    rewrite H2. cbn. lia. }
  destruct Hd as (Hv & Hh & Hl).
  assert (Hl2 : String.length LL = 2%nat)
    by (unfold LL; now apply pad_right_adjust_length).
  split; [exact Hl2|].
  assert (HvL : valid_digits 16 LL = true).
  { unfold LL, pad_right_adjust.
    rewrite valid_digits_append, Hv. now rewrite (proj1 (fill_zero_digits _)). }
  assert (HhL : horner 16 0 LL = n).
  { unfold LL, pad_right_adjust.
    now rewrite horner_append, (proj2 (fill_zero_digits _)), Z.mul_0_l, Hh. }
  unfold Util.stringToInt.
  destruct LL as [|c f] eqn:E; [discriminate|]. cbn [is_empty].
  rewrite stringToInt_loop_value; try assumption; try lia.
  - now rewrite HhL.
  - rewrite Hl2. vm_compute. discriminate.
Qed.

Lemma textRecordLength_byte (code : string) :
  (String.length code <= 510)%nat ->
  length_byte_of (textRecordLength (Z.of_nat (String.length code))) code.
Proof.
  intros H. unfold length_byte_of, textRecordLength.
  apply hex_byte_value. Z.div_mod_to_equations; lia.
Qed.

(** The packing of an object code that is not empty. *)
Lemma pack_nonempty (address objectCode object : string) (makeNew : bool)
    (buffer : string) :
  is_empty objectCode = false ->
  let flush :=
    (machineCodePadding
     <? Z.of_nat (String.length objectCode) + Z.of_nat (String.length buffer))
    && negb (is_empty buffer) in
  pack_objectCode address objectCode object makeNew buffer
  = (object
     ++ (if makeNew then startTextRecord address else EmptyString)
     ++ (if flush
         then finishTextRecord (Z.of_nat (String.length buffer)) buffer
              ++ startTextRecord address
         else EmptyString),
     false,
     (if flush then EmptyString else buffer) ++ objectCode).
Proof.
  intros Hne flush. unfold pack_objectCode. rewrite Hne. cbn [negb andb orb].
  assert (Hz : (Z.of_nat (String.length buffer) =? 0) = is_empty buffer).
  { destruct buffer; [reflexivity|].
    cbn [is_empty String.length]. apply Z.eqb_neq. lia. }
  unfold flush. rewrite Hz.
  destruct makeNew;
    destruct (machineCodePadding <? _);
    destruct (is_empty buffer); cbn [negb andb];
    rewrite ?append_empty_r, ?append_assoc; reflexivity.
Qed.

Lemma pack_empty_flags (address object : string) (makeNew : bool)
    (buffer : string) :
  snd (fst (pack_objectCode address EmptyString object makeNew buffer))
  = if is_empty buffer then makeNew else true.
Proof.
  unfold pack_objectCode. cbn [is_empty negb andb orb].
  destruct buffer as [|c buffer]; [reflexivity|].
  cbn [is_empty].
  destruct (Z.eqb_spec (Z.of_nat (String.length (String c buffer))) 0) as [E|_];
    [cbn [String.length] in E; lia|].
  reflexivity.
Qed.

(** One iteration of the loop of pass 2 on a block that is neither START
    nor END. *)
Lemma pass2_block_other (s : pass2_state) (x : block) :
  String.eqb (opcodeField x) "START" = false ->
  String.eqb (opcodeField x) "END" = false ->
  let a := note_errors (p2_asm s) x in
  let object0 :=
    if negb (startSet s)
    then objectfile s
         ++ createHeaderRecord "NONAME" "00000" (programLength (p2_asm s))
         ++ startTextRecord (addressField x)
    else objectfile s in
  let packed :=
    pack_objectCode (addressField x) (block_objectCode a x) object0
      (makeNewTextRec s) (machineCodeStreamBuffer s) in
  pass2_block s x
  = ({| p2_asm := a;
        machineCodeStreamBuffer := snd packed;
        startSet := true;
        endFound := endFound s;
        makeNewTextRec := snd (fst packed);
        listingfile :=
          listingfile s
          ++ writeToListingFile (addressField x) (block_objectCode a x)
               (sourceLine x) (errorList x);
        objectfile := fst (fst packed) |}, false).
Proof.
  intros Hs He a object0 packed. unfold pass2_block. rewrite Hs, He.
  assert (Hpl : programLength (note_errors (p2_asm s) x)
                = programLength (p2_asm s)) by apply note_errors_fields.
  rewrite Hpl. fold a. fold object0. fold packed.
  now destruct packed as [[o m] bf].
Qed.

Lemma placeholder_code (kept more : string) :
  Util.toUpperCase (kept ++ placeholder ++ more)
  = Util.toUpperCase kept ++ placeholder ++ Util.toUpperCase more.
Proof. now rewrite !toUpperCase_append, toUpperCase_placeholder. Qed.

(** A record that is finished with the placeholder in its accumulator
    holds it in the object file. *)
Lemma flush_written (object pre address kept more tail : string) :
  object = pre ++ startTextRecord address ->
  placeholder_written
    (object
     ++ finishTextRecord
          (Z.of_nat (String.length (kept ++ placeholder ++ more)))
          (kept ++ placeholder ++ more)
     ++ tail) kept.
Proof.
  intros ->.
  exists pre, address,
    (textRecordLength (Z.of_nat (String.length (kept ++ placeholder ++ more)))),
    more, tail.
  split.
  - unfold finishTextRecord, textRecordCode. rewrite placeholder_code.
    now rewrite !append_assoc.
  - apply textRecordLength_byte.
Qed.

Lemma written_grows (object kept delta : string) :
  placeholder_written object kept -> placeholder_written (object ++ delta) kept.
Proof.
  intros (pre & address & LL & more & post & -> & Hbyte).
  exists pre, address, LL, more, (post ++ delta).
  split; [now rewrite !append_assoc | exact Hbyte].
Qed.

Lemma pass2_block_grows (s : pass2_state) (x : block) :
  exists delta, objectfile (fst (pass2_block s x)) = objectfile s ++ delta.
Proof.
  destruct (String.eqb (opcodeField x) "START") eqn:Hs.
  { unfold pass2_block. rewrite Hs. cbn [fst objectfile].
    destruct (negb (startSet s)); [now eexists|].
    exists EmptyString. now rewrite append_empty_r. }
  assert (H0 : exists d0,
             (if negb (startSet s)
              then objectfile s
                   ++ createHeaderRecord "NONAME" "00000"
                        (programLength (p2_asm s))
                   ++ startTextRecord (addressField x)
              else objectfile s) = objectfile s ++ d0).
  { destruct (negb (startSet s)); [now eexists|].
    exists EmptyString. now rewrite append_empty_r. }
  destruct H0 as [d0 H0].
  destruct (String.eqb (opcodeField x) "END") eqn:He.
  { unfold pass2_block. rewrite Hs, He.
    assert (Hpl : programLength (note_errors (p2_asm s) x)
                  = programLength (p2_asm s)) by apply note_errors_fields.
    rewrite Hpl, H0. cbn [fst objectfile].
    destruct (negb (_ =? 0)); rewrite ?append_assoc; now eexists. }
  rewrite (pass2_block_other s x Hs He). cbn [fst objectfile]. rewrite H0.
  destruct (is_empty (block_objectCode (note_errors (p2_asm s) x) x)) eqn:Hoc.
  - destruct (block_objectCode (note_errors (p2_asm s) x) x); [|discriminate].
    rewrite (proj2 (pack_no_objectCode _ _ _ _)).
    destruct (is_empty (machineCodeStreamBuffer s));
      rewrite ?append_assoc; now eexists.
  - rewrite pack_nonempty by exact Hoc. cbn [fst].
    rewrite !append_assoc. now eexists.
Qed.

(** What becomes of the placeholder in the accumulator on the next
    block. *)
Lemma pending_step (s : pass2_state) (x : block) (kept : string) :
  placeholder_pending s kept ->
  if is_END x
  then placeholder_written (objectfile (fst (pass2_block s x))) kept
  else placeholder_pending (fst (pass2_block s x)) kept
       \/ placeholder_written (objectfile (fst (pass2_block s x))) kept.
Proof.
  intros (more & pre & address & Hbuf & Hobj & Hset & Hnew).
  unfold is_END.
  destruct (String.eqb (opcodeField x) "START") eqn:Hs.
  { assert (He : String.eqb (opcodeField x) "END" = false).
    { apply String.eqb_eq in Hs. now rewrite Hs. }
    rewrite He. left. unfold pass2_block. rewrite Hs, Hset.
    cbn [negb fst]. exists more, pre, address.
    cbn [machineCodeStreamBuffer objectfile startSet makeNewTextRec].
    repeat split; assumption. }
  destruct (String.eqb (opcodeField x) "END") eqn:He.
  { unfold pass2_block. rewrite Hs, He, Hset. cbn [negb fst objectfile].
    rewrite Hbuf.
    destruct (Z.eqb_spec
                (Z.of_nat (String.length (kept ++ placeholder ++ more))) 0)
      as [E|_].
    { rewrite !length_append in E.
      change (String.length placeholder) with 6%nat in E. lia. }
    cbn [negb]. rewrite append_assoc.
    now apply (flush_written (objectfile s) pre address). }
  rewrite (pass2_block_other s x Hs He). cbn [fst]. rewrite Hset, Hnew.
  cbn [negb].
  destruct (is_empty (block_objectCode (note_errors (p2_asm s) x) x)) eqn:Hoc.
  - right. cbn [objectfile].
    destruct (block_objectCode (note_errors (p2_asm s) x) x); [|discriminate].
    rewrite (proj2 (pack_no_objectCode _ _ _ _)), Hbuf.
    replace (is_empty (kept ++ placeholder ++ more)) with false
      by (now rewrite !is_empty_append, andb_false_r).
    rewrite <- (append_empty_r (finishTextRecord _ _)).
    now apply (flush_written (objectfile s) pre address).
  - rewrite pack_nonempty by exact Hoc. cbn [fst snd].
    destruct (_ && _) eqn:Hflush.
    + right. cbn [objectfile]. rewrite Hbuf, append_nil.
      now apply (flush_written (objectfile s) pre address).
    + left. exists (more ++ block_objectCode (note_errors (p2_asm s) x) x),
        pre, address.
      cbn [machineCodeStreamBuffer objectfile startSet makeNewTextRec].
      rewrite Hbuf, !append_assoc, !append_empty_r.
      repeat split; assumption.
Qed.

Lemma placeholder_fate (kept : string) (rest : list block) :
  forall s : pass2_state,
    placeholder_pending s kept \/ placeholder_written (objectfile s) kept ->
    (placeholder_pending (pass2_loop s rest) kept
     \/ placeholder_written (objectfile (pass2_loop s rest)) kept)
    /\ (existsb is_END rest = true ->
        placeholder_written (objectfile (pass2_loop s rest)) kept).
Proof.
  induction rest as [|x rest IH]; intros s Hs; [split; [exact Hs | discriminate]|].
  cbn [pass2_loop existsb].
  pose proof (pass2_block_stop s x) as Hstop.
  assert (Hnext :
    if is_END x
    then placeholder_written (objectfile (fst (pass2_block s x))) kept
    else placeholder_pending (fst (pass2_block s x)) kept
         \/ placeholder_written (objectfile (fst (pass2_block s x))) kept).
  { destruct Hs as [Hp|Hw]; [now apply pending_step|].
    destruct (pass2_block_grows s x) as [delta ->].
    destruct (is_END x); [|right]; now apply written_grows. }
  destruct (pass2_block s x) as [s1 stop]. cbn [fst snd] in Hstop, Hnext.
  subst stop. destruct (is_END x); cbn [orb].
  - split; [now right | intros _; exact Hnext].
  - now apply IH.
Qed.

(** The header of the open record is at the end of the object file,
    as long as the loop goes on. *)
Lemma record_open_step (s : pass2_state) (x : block) :
  record_open s -> is_END x = false -> record_open (fst (pass2_block s x)).
Proof.
  unfold record_open, is_END. intros Hinv He.
  destruct (String.eqb (opcodeField x) "START") eqn:Hs.
  { unfold pass2_block. rewrite Hs.
    cbn [fst startSet makeNewTextRec objectfile]. intros _ Hnew.
    destruct (startSet s) eqn:Hset; cbn [negb]; [now apply Hinv|].
    eexists. eexists. rewrite <- append_assoc. reflexivity. }
  rewrite (pass2_block_other s x Hs He).
  cbn [fst startSet makeNewTextRec objectfile]. intros _ Hnew.
  assert (H0 : startSet s = false \/ makeNewTextRec s = true
               \/ exists pre address,
                    (if negb (startSet s)
                     then objectfile s
                          ++ createHeaderRecord "NONAME" "00000"
                               (programLength (p2_asm s))
                          ++ startTextRecord (addressField x)
                     else objectfile s) = pre ++ startTextRecord address).
  { destruct (startSet s) eqn:Hset; [|now left].
    destruct (makeNewTextRec s) eqn:Hmk; [right; now left|].
    right. right. cbn [negb]. now apply Hinv. }
  assert (H1 : makeNewTextRec s = false ->
               exists pre address,
                 (if negb (startSet s)
                  then objectfile s
                       ++ createHeaderRecord "NONAME" "00000"
                            (programLength (p2_asm s))
                       ++ startTextRecord (addressField x)
                  else objectfile s) = pre ++ startTextRecord address).
  { intros Hmk. destruct (startSet s) eqn:Hset; cbn [negb].
    - now apply Hinv.
    - eexists. eexists. rewrite <- append_assoc. reflexivity. }
  clear H0.
  destruct (is_empty (block_objectCode (note_errors (p2_asm s) x) x)) eqn:Hoc.
  - destruct (block_objectCode (note_errors (p2_asm s) x) x); [|discriminate].
    rewrite pack_empty_flags in Hnew.
    rewrite (proj2 (pack_no_objectCode _ _ _ _)).
    destruct (is_empty (machineCodeStreamBuffer s)); [|discriminate].
    now apply H1.
  - rewrite pack_nonempty by exact Hoc. cbn [fst].
    destruct (_ && _).
    + eexists. eexists. rewrite <- !append_assoc. reflexivity.
    + rewrite append_empty_r. destruct (makeNewTextRec s) eqn:Hmk.
      * now eexists; eexists.
      * rewrite append_empty_r. now apply H1.
Qed.

Lemma record_open_loop (init : list block) :
  forall s : pass2_state,
    record_open s -> forallb not_END init = true ->
    record_open (pass2_loop s init).
Proof.
  induction init as [|x init IH]; intros s Hinv Hall; [exact Hinv|].
  cbn [forallb] in Hall. apply andb_prop in Hall. destruct Hall as [Hx Hall].
  unfold not_END in Hx. apply negb_true_iff in Hx.
  cbn [pass2_loop].
  pose proof (pass2_block_stop s x) as Hstop.
  pose proof (record_open_step s x Hinv Hx) as Hnext.
  destruct (pass2_block s x) as [s1 stop]. cbn [fst snd] in Hstop, Hnext.
  rewrite Hx in Hstop. subst stop. now apply IH.
Qed.

(** The block in error: the placeholder goes to the accumulator, after
    the record in progress has been finished when it does not fit. *)
Lemma placeholder_block (st : pass2_state) (b : block) :
  record_open st ->
  String.eqb (opcodeField b) "START" = false ->
  String.eqb (opcodeField b) "END" = false ->
  is_empty (errorList b) = false ->
  let st' := fst (pass2_block st b) in
  let buffer := machineCodeStreamBuffer st in
  let full := machineCodePadding <? Z.of_nat (String.length buffer) + 6 in
  let kept := if full then EmptyString else buffer in
  machineCodeStreamBuffer st' = kept ++ placeholder
  /\ objectfile st'
     = record_opening st b
       ++ (if full
           then textRecordLength (Z.of_nat (String.length buffer))
                ++ Util.toUpperCase buffer ++ endl
                ++ startTextRecord (addressField b)
           else EmptyString)
  /\ placeholder_pending st' kept.
Proof.
  intros Hopen Hs He Herr st' buffer full kept.
  assert (Hcode : block_objectCode (note_errors (p2_asm st) b) b = placeholder).
  { unfold block_objectCode. now rewrite Herr. }
  assert (Hfull : (machineCodePadding
                   <? Z.of_nat (String.length placeholder)
                      + Z.of_nat (String.length buffer))
                  && negb (is_empty buffer) = full).
  { unfold full. change (Z.of_nat (String.length placeholder)) with 6.
    rewrite (Z.add_comm 6).
    destruct (Z.ltb_spec machineCodePadding
                (Z.of_nat (String.length buffer) + 6)) as [Hlt|_];
      [|reflexivity].
    destruct buffer; [|reflexivity].
    cbn [String.length] in Hlt. unfold machineCodePadding in Hlt. lia. }
  assert (Hst' : st' = fst (pass2_block st b)) by reflexivity.
  rewrite (pass2_block_other st b Hs He) in Hst'. cbn [fst] in Hst'.
  rewrite Hcode in Hst'. rewrite pack_nonempty in Hst' by reflexivity.
  cbn [fst snd] in Hst'. fold buffer in Hst'. rewrite Hfull in Hst'.
  fold kept in Hst'.
  assert (Hbuf : machineCodeStreamBuffer st' = kept ++ placeholder)
    by (rewrite Hst'; reflexivity).
  assert (Hobj : objectfile st'
                 = record_opening st b
                   ++ (if full
                       then textRecordLength (Z.of_nat (String.length buffer))
                            ++ Util.toUpperCase buffer ++ endl
                            ++ startTextRecord (addressField b)
                       else EmptyString)).
  { rewrite Hst'. cbn [objectfile]. unfold record_opening.
    unfold finishTextRecord, textRecordCode. fold buffer.
    destruct full; now rewrite !append_assoc. }
  split; [exact Hbuf|]. split; [exact Hobj|].
  exists EmptyString.
  assert (Hend : exists pre address,
             objectfile st' = pre ++ startTextRecord address).
  { rewrite Hobj. unfold record_opening. destruct full.
    - eexists. eexists. rewrite <- !append_assoc. reflexivity.
    - rewrite append_empty_r. destruct (makeNewTextRec st) eqn:Hmk.
      + now eexists; eexists.
      + rewrite append_empty_r. destruct (startSet st) eqn:Hset; cbn [negb].
        * now apply Hopen.
        * eexists. eexists. rewrite <- append_assoc. reflexivity. }
  destruct Hend as (pre & address & Hend). exists pre, address.
  rewrite append_empty_r. split; [exact Hbuf|]. split; [exact Hend|].
  rewrite Hst'. split; reflexivity.
Qed.

(** C10 (amended): a block that is neither START nor END, has a non-empty
    error list and is reached by the loop of pass 2 (no END block before
    it) is given the object code [------], packed like any object code.
    It takes 6 characters of the record: the accumulator becomes
    [kept ++ "------"], where [kept] is the accumulator before the block,
    or nothing when the 6 characters would bring it beyond 60, in which
    case the record in progress is first written to the object file, with
    its length byte, and the header of a new record after it.  The text
    record the placeholder belongs to is then open in the object file.
    The placeholder is written in the machine-code section of that record,
    after [kept], and counted in its length byte, when the record is
    finished: it is at the end of pass 2 when an END block follows; without
    one, it is either written (a later block finished the record) or still
    in the accumulator, the object file ending with the header of the
    record.  A length byte is two hex digits that read as half the number
    of characters of the section, for a section of at most 510 characters.
    [anyErrors] is set, so the object file is removed at the end of
    pass 2. *)
Theorem C10_placeholder_packed_like_object_code (a : Assembler)
    (init rest : list block) (b : block) :
  forallb not_END init = true ->
  String.eqb (opcodeField b) "START" = false ->
  String.eqb (opcodeField b) "END" = false ->
  is_empty (errorList b) = false ->
  let st := pass2_loop (pass2_init a) init in
  let st' := fst (pass2_block st b) in
  let final := pass2_loop (pass2_init a) (init ++ b :: rest) in
  let out := pass2 a (Some (init ++ b :: rest)%list) in
  let buffer := machineCodeStreamBuffer st in
  let full := machineCodePadding <? Z.of_nat (String.length buffer) + 6 in
  let kept := if full then EmptyString else buffer in
  (machineCodeStreamBuffer st' = kept ++ placeholder
   /\ String.length (machineCodeStreamBuffer st')
      = (String.length kept + 6)%nat)
  /\ (exists LL,
        objectfile st'
        = record_opening st b
          ++ (if full
              then LL ++ Util.toUpperCase buffer ++ endl
                   ++ startTextRecord (addressField b)
              else EmptyString)
        /\ ((String.length buffer <= 510)%nat -> length_byte_of LL buffer))
  /\ placeholder_pending st' kept
  /\ object_written out = objectfile final
  /\ (placeholder_pending final kept
      \/ placeholder_written (object_written out) kept)
  /\ (existsb is_END rest = true ->
      placeholder_written (object_written out) kept)
  /\ anyErrors (r_asm out) = true
  /\ object_exists out = false.
Proof.
  intros Hinit Hs He Herr st st' final out buffer full kept.
  assert (Hopen : record_open st).
  { apply record_open_loop; [|exact Hinit]. intros H. discriminate H. }
  destruct (placeholder_block st b Hopen Hs He Herr) as (Hbuf & Hobj & Hpend).
  fold st' buffer full kept in Hbuf, Hobj, Hpend.
  assert (Hfinal : final = pass2_loop st' rest).
  { unfold final. rewrite (pass2_loop_app_no_END init (b :: rest) _ Hinit).
    fold st. cbn [pass2_loop].
    pose proof (pass2_block_stop st b) as Hstop. unfold is_END in Hstop.
    rewrite He in Hstop. unfold st'.
    destruct (pass2_block st b) as [s1 stop]. cbn [snd] in Hstop.
    now subst stop. }
  assert (Hout : object_written out = objectfile final).
  { unfold out, pass2. fold final. unfold pass2_finish.
    destruct (maxProgramSizeBytes <? locctr (p2_asm final));
      destruct (negb (endFound final)); reflexivity. }
  destruct (placeholder_fate kept rest st' (or_introl Hpend)) as [Hfate Hend].
  rewrite <- Hfinal in Hfate, Hend. rewrite <- Hout in Hfate, Hend.
  assert (Hany : anyErrors (r_asm out) = true).
  { unfold out, pass2. fold final. rewrite pass2_finish_anyErrors, Hfinal.
    rewrite (pass2_loop_keeps_anyErrors rest st'); [reflexivity|].
    unfold st'. rewrite pass2_block_anyErrors. unfold has_error.
    rewrite Herr. apply orb_true_r. }
  split.
  { split; [exact Hbuf|]. rewrite Hbuf, length_append. reflexivity. }
  split.
  { exists (textRecordLength (Z.of_nat (String.length buffer))).
    split; [exact Hobj | apply textRecordLength_byte]. }
  split; [exact Hpend|]. split; [exact Hout|].
  split; [exact Hfate|]. split; [exact Hend|]. split; [exact Hany|].
  unfold out, pass2. fold final. rewrite pass2_finish_object_exists.
  unfold out, pass2 in Hany. fold final in Hany. now rewrite Hany.
Qed.

Lemma C10_witness :
  let a := Assembler_new 0 in
  let init := [mkBlock "P START 1000" "START" "1000" "1000" EmptyString;
               mkBlock "B WORD 5" "WORD" "1000" "5" EmptyString] in
  let b := mkBlock "A BYTE X'0G'" "BYTE" "1003" "X'0G'" "0001" in
  let rest := [mkBlock " END P" "END" "1003" "P" EmptyString] in
  let st := pass2_loop (pass2_init a) init in
  let out := pass2 a (Some (init ++ b :: rest)%list) in
  let buffer := machineCodeStreamBuffer st in
  let kept :=
    if machineCodePadding <? Z.of_nat (String.length buffer) + 6
    then EmptyString else buffer in
  kept = "000005"
  /\ machineCodeStreamBuffer (fst (pass2_block st b)) = kept ++ placeholder
  /\ placeholder_written (object_written out) kept
  /\ object_exists out = false.
Proof.
  intros a init b rest st out buffer kept.
  split; [vm_compute; reflexivity|].
  pose proof (C10_placeholder_packed_like_object_code a init rest b
                eq_refl eq_refl eq_refl eq_refl) as H.
  cbv zeta in H.
  destruct H as ((H1 & _) & _ & _ & _ & _ & H6 & _ & H8).
  split; [exact H1|]. split; [exact (H6 eq_refl) | exact H8].
Defined.

(** The claim as it was stated fails when the text record is never
    finished: for the source made of the one line [A BYTE X'0G'] pass 1
    writes one block, in error; pass 2 puts the placeholder in the
    accumulator and ends without END, so that the object file holds the
    header and the first 7 characters of a text record, and no placeholder
    in any machine-code section. *)
Lemma C10_placeholder_left_in_buffer :
  exists a b,
    b = mkBlock "A BYTE X'0G'" "BYTE" "0" "X'0G'" "0001"
    /\ pass1 (Assembler_new 0) (Some ["A BYTE X'0G'"]) = Ok (a, [b])
    /\ String.eqb (opcodeField b) "START" = false
    /\ String.eqb (opcodeField b) "END" = false
    /\ is_empty (errorList b) = false
    /\ machineCodeStreamBuffer (pass2_loop (pass2_init a) [b]) = placeholder
    /\ object_written (pass2 a (Some [b]))
       = "HNONAME000000000000" ++ endl ++ "T000000"
    /\ machine_code_sections (object_written (pass2 a (Some [b])))
       = [EmptyString].
Proof.
  eexists. eexists. split; [reflexivity|].
  split; [vm_compute; reflexivity|].
  repeat split; vm_compute; reflexivity.
Qed.
